(** * Maze generation, random wall placement and persistence

    A shallow embedding of [src/maze/main.py]: the [Obstacle] and [Maze]
    classes, [check_collision], [generate_random_walls] and the save/load
    path, followed by the properties proved about them.

    Modelling conventions.
    - Python [int] is [Z]; the other Python numbers (the floats the program
      computes with) are rationals [Q].  No theorem below depends on how a
      sum or product is rounded: coordinates are compared, stored and copied.
    - A JSON document, and every Python value that is only stored and written
      back (an obstacle's size, color and position), is a [json] value.
    - A Python [dict] is an association list with Python's update rule: an
      assignment to a present key keeps the key's place, a new key goes last.
    - Mutation is explicit state passing.  The scene ([ry.Config]) the maze
      and its obstacles share is a field of the maze; the process-wide random
      generator, the standard output and the file system form the [World].
    - An exception is a value of [exn]; a function that can raise returns
      [result].  Python is dynamically typed: the model reads each field of a
      document at the type the file format gives it and reports a value of
      another type as [TypeError] at the read. *)

From Stdlib Require Import ZArith QArith List String Ascii Bool Lia.
From Stdlib Require Import DecimalString DecimalZ Permutation.
Import ListNotations.

Set Warnings "-register-all".
Local Open Scope string_scope.
Local Open Scope Z_scope.

(** ** Python values *)

Inductive json : Type :=
| JNull
| JBool (b : bool)
| JInt (z : Z)
| JFloat (q : Q)
| JStr (s : string)
| JList (l : list json)
| JDict (kvs : list (string * json)).

Inductive exn : Type :=
| KeyError (key : json)
| TypeError
| FileNotFoundError (path : string).

Inductive result (A : Type) : Type :=
| Ok (a : A)
| Raise (e : exn).
Arguments Ok {A} a.
Arguments Raise {A} e.

Definition bind {A B : Type} (r : result A) (k : A -> result B) : result B :=
  match r with
  | Ok a => k a
  | Raise e => Raise e
  end.

Notation "'try' x <- r ; k" := (bind r (fun x => k))
  (at level 10, x pattern, r at level 100, k at level 200).

(** *** Dictionaries *)

Section Dict.
Context {A : Type}.

Fixpoint dict_get (k : string) (d : list (string * A)) : option A :=
  match d with
  | [] => None
  | (k', v) :: d' => if String.eqb k k' then Some v else dict_get k d'
  end.

(** [d[k] = v] *)
Fixpoint dict_set (k : string) (v : A) (d : list (string * A))
  : list (string * A) :=
  match d with
  | [] => [(k, v)]
  | (k', v') :: d' =>
      if String.eqb k k' then (k, v) :: d' else (k', v') :: dict_set k v d'
  end.

Definition dict_values (d : list (string * A)) : list A := map snd d.

Definition dict_has (k : string) (d : list (string * A)) : bool :=
  match dict_get k d with Some _ => true | None => false end.
End Dict.

(** [data[k]] on a parsed document: a [KeyError] when the key is missing,
    a [TypeError] when [data] is not subscriptable by a string. *)
Definition getitem (data : json) (k : string) : result json :=
  match data with
  | JDict kvs =>
      match dict_get k kvs with
      | Some v => Ok v
      | None => Raise (KeyError (JStr k))
      end
  | _ => Raise TypeError
  end.

(** Reading a value at its documented type. *)
Definition as_int (v : json) : result Z :=
  match v with
  | JInt z => Ok z
  | _ => Raise TypeError
  end.

Definition as_number (v : json) : result Q :=
  match v with
  | JInt z => Ok (inject_Z z)
  | JFloat q => Ok q
  | _ => Raise TypeError
  end.

Definition as_str (v : json) : result string :=
  match v with
  | JStr s => Ok s
  | _ => Raise TypeError
  end.

Definition as_pair (v : json) : result (Q * Q) :=
  match v with
  | JList [a; b] =>
      try x <- as_number a; try y <- as_number b; Ok (x, y)
  | _ => Raise TypeError
  end.

(** [for x in v]: the elements of a list. *)
Definition as_list (v : json) : result (list json) :=
  match v with
  | JList l => Ok l
  | _ => Raise TypeError
  end.

(** [str(n)] for an integer, as an f-string formats it. *)
Definition str_int (z : Z) : string := NilZero.string_of_int (Z.to_int z).

(** Boolean [<] on rationals. *)
Definition Qltb (a b : Q) : bool :=
  match Qcompare a b with
  | Lt => true
  | _ => false
  end.

(** ** The world outside the maze *)

(** The process-wide generator of the [random] module: a sequence of raw
    draws and a cursor.  Every theorem quantifies over the whole sequence. *)
Record Random : Type := mkRandom { raw : nat -> Z; cursor : nat }.

Definition next (g : Random) : Z * Random :=
  (raw g (cursor g), mkRandom (raw g) (S (cursor g))).

(** [random.randint(a, b)]: an integer of [[a, b]]. *)
Definition randint (a b : Z) (g : Random) : Z * Random :=
  let (r, g') := next g in (a + r mod (b - a + 1), g').

(** [random.uniform(a, b)]: [a + (b - a) * random()], [random()] a multiple
    of [2^-53] in [[0, 1)]. *)
Definition uniform (a b : Q) (g : Random) : Q * Random :=
  let (r, g') := next g in
  ((a + (b - a) * (inject_Z (r mod 2 ^ 53) / inject_Z (2 ^ 53)))%Q, g').

(** [random.choice(seq)] for a sequence with first element [x]. *)
Definition choice {A : Type} (x : A) (xs : list A) (g : Random) : A * Random :=
  let (r, g') := next g in
  (nth (Z.to_nat (r mod Z.of_nat (S (List.length xs)))) (x :: xs) x, g').

Record World : Type := mkWorld {
  rand : Random;
  stdout : list string;
  files : list (string * json)
}.

Definition print (line : string) (w : World) : World :=
  mkWorld (rand w) (stdout w ++ [line])%list (files w).

Definition with_rand (g : Random) (w : World) : World :=
  mkWorld g (stdout w) (files w).

Definition write_file (path : string) (doc : json) (w : World) : World :=
  mkWorld (rand w) (stdout w) (dict_set path doc (files w)).

(** ** The scene: [ry.Config] and the shape primitives [ry.ST] *)

(** The engine's shape enumeration; the program only ever names [ssBox]. *)
Inductive ST : Type := box | sphere | capsule | mesh | ssBox.

(** [str(shape)], the qualified name of the enumeration member. *)
Definition ST_str (s : ST) : string :=
  match s with
  | box => "ST.box"
  | sphere => "ST.sphere"
  | capsule => "ST.capsule"
  | mesh => "ST.mesh"
  | ssBox => "ST.ssBox"
  end.

(** The text after the last occurrence of [c], when [c] occurs. *)
Fixpoint after_last (c : ascii) (s : string) : option string :=
  match s with
  | EmptyString => None
  | String a s' =>
      match after_last c s' with
      | Some t => Some t
      | None => if Ascii.eqb a c then Some s' else None
      end
  end.

(** [s.split(c)[-1]] *)
Definition split_last (c : ascii) (s : string) : string :=
  match after_last c s with
  | Some t => t
  | None => s
  end.

Record Frame : Type := mkFrame {
  frame_name : string;
  frame_shape : option (ST * json);
  frame_color : option json;
  frame_position : option json
}.

Definition Config : Type := list Frame.

Fixpoint update_frame (i : nat) (f : Frame -> Frame) (C : Config) : Config :=
  match C, i with
  | [], _ => []
  | x :: C', O => f x :: C'
  | x :: C', S j => x :: update_frame j f C'
  end.

(** [config.addFrame(name)] returns a handle on the new frame. *)
Definition addFrame (name : string) (C : Config) : nat * Config :=
  (List.length C, (C ++ [mkFrame name None None None])%list).

Definition setShape (h : nat) (shape : ST) (size : json) (C : Config) : Config :=
  update_frame h
    (fun f => mkFrame (frame_name f) (Some (shape, size)) (frame_color f)
                      (frame_position f)) C.

Definition setColor (h : nat) (color : json) (C : Config) : Config :=
  update_frame h
    (fun f => mkFrame (frame_name f) (frame_shape f) (Some color)
                      (frame_position f)) C.

Definition setPosition (h : nat) (position : json) (C : Config) : Config :=
  update_frame h
    (fun f => mkFrame (frame_name f) (frame_shape f) (frame_color f)
                      (Some position)) C.

(** [config.clear()] *)
Definition clear (C : Config) : Config := [].

(** ** class Obstacle *)

Module Obstacle.

Record t : Type := mk {
  name : string;
  shape_type : ST;
  size : json;
  color : json;
  position : json
}.

Definition create_object (self : t) (config : Config) : Config :=
  let (frame, config) := addFrame (name self) config in
  let config := setShape frame (shape_type self) (size self) config in
  let config := setColor frame (color self) config in
  setPosition frame (position self) config.

(** [Obstacle(config, name, shape_type, size, color, position)] *)
Definition init (config : Config) (name : string) (shape_type : ST)
    (size color position : json) (w : World) : t * Config * World :=
  let (unique_id, g) := randint 1000 9999 (rand w) in
  let self := mk (name ++ "_" ++ str_int unique_id) shape_type size color
                 position in
  (self, create_object self config, with_rand g w).

Definition shape_type_mapping : list (string * ST) := [("ssBox", ssBox)].

(** [shape_type_mapping[key]]: the key is whatever the record holds. *)
Definition lookup_shape (key : json) : result ST :=
  match key with
  | JStr s =>
      match dict_get s shape_type_mapping with
      | Some st => Ok st
      | None => Raise (KeyError key)
      end
  | JList _ | JDict _ => Raise TypeError
  | _ => Raise (KeyError key)
  end.

Definition from_dict (config : Config) (data : json) (w : World)
  : result (t * Config * World) :=
  try key <- getitem data "shape_type";
  try shape_type <- lookup_shape key;
  try name <- getitem data "name";
  try size <- getitem data "size";
  try color <- getitem data "color";
  try position <- getitem data "position";
  try name <- as_str name;
  Ok (init config name shape_type size color position w).

Definition to_dict (self : t) : json :=
  JDict [("name", JStr (name self));
         ("shape_type", JStr (split_last "." (ST_str (shape_type self))));
         ("size", size self);
         ("color", color self);
         ("position", position self)].

End Obstacle.

(** [range(n)] *)
Definition range (n : Z) : list Z := map Z.of_nat (seq 0 (Z.to_nat n)).

(** A Python list of numbers. *)
Definition floats (l : list Q) : json := JList (map JFloat l).

(** ** class Robot *)

Module Robot.
Record t : Type := mk {
  position : json;
  model : string;
  quaternion : json
}.
End Robot.

(** ** class Maze *)

Module Maze.

Record t : Type := mk {
  config : Config;
  obstacles : list Obstacle.t;
  size : Z;
  scale : Q;
  wall_height : Q;
  wall_length : Q;
  maze_size : Q;
  center_position : Q * Q;
  custom_walls : list (string * Obstacle.t);
  wall_id_counter : Z;
  goal_object : option Obstacle.t;
  final_object : option Obstacle.t
}.

(** Field assignments. *)
Definition set_config (c : Config) (m : t) : t :=
  mk c (obstacles m) (size m) (scale m) (wall_height m) (wall_length m)
     (maze_size m) (center_position m) (custom_walls m) (wall_id_counter m)
     (goal_object m) (final_object m).
Definition set_obstacles (l : list Obstacle.t) (m : t) : t :=
  mk (config m) l (size m) (scale m) (wall_height m) (wall_length m)
     (maze_size m) (center_position m) (custom_walls m) (wall_id_counter m)
     (goal_object m) (final_object m).
Definition set_size (z : Z) (m : t) : t :=
  mk (config m) (obstacles m) z (scale m) (wall_height m) (wall_length m)
     (maze_size m) (center_position m) (custom_walls m) (wall_id_counter m)
     (goal_object m) (final_object m).
Definition set_scale (q : Q) (m : t) : t :=
  mk (config m) (obstacles m) (size m) q (wall_height m) (wall_length m)
     (maze_size m) (center_position m) (custom_walls m) (wall_id_counter m)
     (goal_object m) (final_object m).
Definition set_wall_height (q : Q) (m : t) : t :=
  mk (config m) (obstacles m) (size m) (scale m) q (wall_length m)
     (maze_size m) (center_position m) (custom_walls m) (wall_id_counter m)
     (goal_object m) (final_object m).
Definition set_wall_length (q : Q) (m : t) : t :=
  mk (config m) (obstacles m) (size m) (scale m) (wall_height m) q
     (maze_size m) (center_position m) (custom_walls m) (wall_id_counter m)
     (goal_object m) (final_object m).
Definition set_maze_size (q : Q) (m : t) : t :=
  mk (config m) (obstacles m) (size m) (scale m) (wall_height m)
     (wall_length m) q (center_position m) (custom_walls m)
     (wall_id_counter m) (goal_object m) (final_object m).
Definition set_center_position (p : Q * Q) (m : t) : t :=
  mk (config m) (obstacles m) (size m) (scale m) (wall_height m)
     (wall_length m) (maze_size m) p (custom_walls m) (wall_id_counter m)
     (goal_object m) (final_object m).
Definition set_custom_walls (d : list (string * Obstacle.t)) (m : t) : t :=
  mk (config m) (obstacles m) (size m) (scale m) (wall_height m)
     (wall_length m) (maze_size m) (center_position m) d (wall_id_counter m)
     (goal_object m) (final_object m).
Definition set_wall_id_counter (z : Z) (m : t) : t :=
  mk (config m) (obstacles m) (size m) (scale m) (wall_height m)
     (wall_length m) (maze_size m) (center_position m) (custom_walls m) z
     (goal_object m) (final_object m).
Definition set_goal_object (o : Obstacle.t) (m : t) : t :=
  mk (config m) (obstacles m) (size m) (scale m) (wall_height m)
     (wall_length m) (maze_size m) (center_position m) (custom_walls m)
     (wall_id_counter m) (Some o) (final_object m).
Definition set_final_object (o : Obstacle.t) (m : t) : t :=
  mk (config m) (obstacles m) (size m) (scale m) (wall_height m)
     (wall_length m) (maze_size m) (center_position m) (custom_walls m)
     (wall_id_counter m) (goal_object m) (Some o).

(** [self.obstacles.append(o)] *)
Definition append_obstacle (o : Obstacle.t) (m : t) : t :=
  set_obstacles (obstacles m ++ [o])%list m.

(** [Obstacle(self.config, ...)]: the new frame lands in the maze's scene. *)
Definition new_obstacle (self : t) (name : string) (size color position : json)
    (w : World) : Obstacle.t * t * World :=
  let '(o, c, w) :=
    Obstacle.init (config self) name ssBox size color position w in
  (o, set_config c self, w).

Definition create_floor (self : t) (w : World) : t * World :=
  let floor_color := floats [8 # 10; 8 # 10; 8 # 10]%Q in
  let floor_thickness := (1 # 10)%Q in
  let floor_size :=
    floats [maze_size self; maze_size self; floor_thickness; 1 # 10]%Q in
  let (center_x, center_y) := center_position self in
  let floor_position :=
    floats [center_x; center_y; - floor_thickness / 2]%Q in
  let '(floor, self, w) :=
    new_obstacle self "floor" floor_size floor_color floor_position w in
  (append_obstacle floor self, w).

Definition add_wall (self : t) (name : string) (position size color : json)
    (w : World) : t * World :=
  let '(wall, self, w) := new_obstacle self name size color position w in
  let self := append_obstacle wall self in
  (set_wall_id_counter (wall_id_counter self + 1) self, w).

Definition create_maze (self : t) (w : World) : t * World :=
  let wall_color := floats [35 # 100; 16 # 100; 14 # 100]%Q in
  let cube_size :=
    floats [wall_length self; wall_length self; wall_height self; 1 # 10]%Q in
  let offset_x := (- maze_size self / 2)%Q in
  let offset_y := (- maze_size self / 2)%Q in
  let st :=
    fold_left
      (fun (st : t * World) (i : Z) =>
         let (self, w) := st in
         let x := (offset_x + inject_Z i * wall_length self
                   - wall_length self / 2)%Q in
         let (self, w) :=
           add_wall self ("top_wall_" ++ str_int i)
             (floats [x; offset_y - wall_length self / 2;
                      wall_height self / 2]%Q)
             cube_size wall_color w in
         add_wall self ("bottom_wall_" ++ str_int i)
           (floats [x; offset_y + maze_size self + wall_length self / 2;
                    wall_height self / 2]%Q)
           cube_size wall_color w)
      (range (size self + 2)) (self, w) in
  fold_left
    (fun (st : t * World) (i : Z) =>
       let (self, w) := st in
       let y := (offset_y + inject_Z i * wall_length self
                 - wall_length self / 2)%Q in
       let (self, w) :=
         add_wall self ("left_wall_" ++ str_int i)
           (floats [offset_x - wall_length self / 2; y;
                    wall_height self / 2]%Q)
           cube_size wall_color w in
       add_wall self ("right_wall_" ++ str_int i)
         (floats [offset_x + maze_size self + wall_length self / 2; y;
                  wall_height self / 2]%Q)
         cube_size wall_color w)
    (range (size (fst st) + 2)) st.

(** [Maze(config, size, scale, wall_height, wall_length, floor_size,
    center_position)]; [floor_size] is accepted and not used. *)
Definition init (config : Config) (size : Z) (scale wall_height wall_length : Q)
    (floor_size : Q) (center_position : Q * Q) (w : World) : t * World :=
  let self :=
    mk config [] size scale wall_height wall_length
       (inject_Z size * wall_length)%Q center_position [] 1 None None in
  let (self, w) := create_floor self w in
  create_maze self w.

(** The defaults of the constructor's keyword arguments. *)
Definition init_default (config : Config) (w : World) : t * World :=
  init config 16 (1 / 3)%Q 1%Q 1%Q 20%Q (0, 0)%Q w.

Definition add_custom_wall (self : t) (start_coords : Q * Q)
    (direction : string) (length : Z) (w : World) : t * World :=
  let wall_color := floats [25 # 100; 25 # 100; 25 # 100]%Q in
  let cube_size :=
    floats [wall_length self; wall_length self; wall_height self; 1 # 10]%Q in
  let (x, y) := start_coords in
  if String.eqb direction "horizontal" then
    fold_left
      (fun (st : t * World) (i : Z) =>
         let (self, w) := st in
         let name := "custom_wall_" ++ str_int (wall_id_counter self) in
         let (self, w) :=
           add_wall self name
             (floats [x + inject_Z i * wall_length self; y;
                      wall_height self / 2]%Q)
             cube_size wall_color w in
         (set_wall_id_counter (wall_id_counter self + 1) self, w))
      (range length) (self, w)
  else if String.eqb direction "vertical" then
    fold_left
      (fun (st : t * World) (i : Z) =>
         let (self, w) := st in
         let name := "custom_wall_" ++ str_int (wall_id_counter self) in
         let (self, w) :=
           add_wall self name
             (floats [x; y + inject_Z i * wall_length self;
                      wall_height self / 2]%Q)
             cube_size wall_color w in
         (set_wall_id_counter (wall_id_counter self + 1) self, w))
      (range length) (self, w)
  else (self, w).

Definition add_goal_object (self : t) (coord : Q * Q) (w : World) : t * World :=
  let position := floats [fst coord; snd coord; 2 # 10]%Q in
  let '(o, self, w) :=
    new_obstacle self "goal_object"
      (floats [3 # 10; 3 # 10; 3 # 10; 1 # 10]%Q)
      (JList [JInt 0; JInt 0; JInt 1]) position w in
  let self := set_goal_object o self in
  let self := append_obstacle o self in
  (self, print "Goal object added." w).

Definition add_final_object (self : t) (coord : Q * Q) (w : World) : t * World :=
  let position := floats [fst coord; snd coord; 3 # 10]%Q in
  let '(o, self, w) :=
    new_obstacle self "final_object"
      (floats [4 # 10; 4 # 10; 4 # 10; 1 # 10]%Q)
      (JList [JInt 1; JInt 1; JInt 0]) position w in
  let self := set_final_object o self in
  let self := append_obstacle o self in
  (self, print "Final object added." w).

Definition save_maze (self : t) (file_path : string)
    (robot : option Robot.t) (w : World) : World :=
  let maze_data :=
    [("size", JInt (size self));
     ("scale", JFloat (scale self));
     ("wall_height", JFloat (wall_height self));
     ("wall_length", JFloat (wall_length self));
     ("maze_size", JFloat (maze_size self));
     ("center_position",
      floats [fst (center_position self); snd (center_position self)]);
     ("wall_id_counter", JInt (wall_id_counter self));
     ("obstacles", JList (map Obstacle.to_dict (obstacles self)));
     ("custom_walls",
      JList (map Obstacle.to_dict (dict_values (custom_walls self))))] in
  let maze_data :=
    match robot with
    | Some robot =>
        dict_set "robot_quaternion" (Robot.quaternion robot)
          (dict_set "robot_model" (JStr (Robot.model robot))
             (dict_set "robot_position" (Robot.position robot) maze_data))
    | None => maze_data
    end in
  let w := write_file file_path (JDict maze_data) w in
  print ("Maze saved to " ++ file_path) w.

(** A method that can raise leaves the maze as it was at the raise. *)
Definition outcome : Type := result unit * t * World.

(** [self.field = value], [value] read from the document. *)
Definition assign {X : Type} (value : result X) (set : X -> t -> t)
    (k : t -> outcome) (self : t) (w : World) : outcome :=
  match value with
  | Ok x => k (set x self)
  | Raise e => (Raise e, self, w)
  end.

Fixpoint load_obstacles (l : list json) (self : t) (w : World) : outcome :=
  match l with
  | [] => (Ok tt, self, w)
  | obs_data :: l' =>
      match Obstacle.from_dict (config self) obs_data w with
      | Ok (obstacle, c, w') =>
          load_obstacles l' (append_obstacle obstacle (set_config c self)) w'
      | Raise e => (Raise e, self, w)
      end
  end.

Fixpoint load_custom_walls (l : list json) (self : t) (w : World) : outcome :=
  match l with
  | [] => (Ok tt, self, w)
  | wall_data :: l' =>
      match Obstacle.from_dict (config self) wall_data w with
      | Ok (wall, c, w') =>
          load_custom_walls l'
            (set_custom_walls
               (dict_set (Obstacle.name wall) wall (custom_walls self))
               (set_config c self)) w'
      | Raise e => (Raise e, self, w)
      end
  end.

(** Lines 182-197: the scene is cleared and the obstacles, then the custom
    walls, are rebuilt from the document. *)
Definition load_contents (maze_data : json) (file_path : string) (self : t)
    (w : World) : outcome :=
  let self := set_config (clear (config self)) self in
  let self := set_obstacles [] self in
  match (try v <- getitem maze_data "obstacles"; as_list v) with
  | Raise e => (Raise e, self, w)
  | Ok l =>
      match load_obstacles l self w with
      | (Raise e, self, w) => (Raise e, self, w)
      | (Ok _, self, w) =>
          let self := set_custom_walls [] self in
          let done (self : t) (w : World) : outcome :=
            (Ok tt, self, print ("Maze loaded from " ++ file_path) w) in
          match maze_data with
          | JDict kvs =>
              if dict_has "custom_walls" kvs then
                match (try v <- getitem maze_data "custom_walls";
                       as_list v) with
                | Raise e => (Raise e, self, w)
                | Ok l =>
                    match load_custom_walls l self w with
                    | (Raise e, self, w) => (Raise e, self, w)
                    | (Ok _, self, w) => done self w
                    end
                end
              else done self w
          | _ => (Raise TypeError, self, w)
          end
      end
  end.

Definition load_maze (self : t) (file_path : string) (w : World) : outcome :=
  match dict_get file_path (files w) with
  | None => (Raise (FileNotFoundError file_path), self, w)
  | Some maze_data =>
    assign (try v <- getitem maze_data "size"; as_int v) set_size (fun self =>
    assign (try v <- getitem maze_data "scale"; as_number v) set_scale
      (fun self =>
    assign (try v <- getitem maze_data "wall_height"; as_number v)
      set_wall_height (fun self =>
    assign (try v <- getitem maze_data "wall_length"; as_number v)
      set_wall_length (fun self =>
    assign (try v <- getitem maze_data "maze_size"; as_number v)
      set_maze_size (fun self =>
    assign (try v <- getitem maze_data "center_position"; as_pair v)
      set_center_position (fun self =>
    assign (try v <- getitem maze_data "wall_id_counter"; as_int v)
      set_wall_id_counter (fun self =>
    load_contents maze_data file_path self w)
      self w) self w) self w) self w) self w) self w) self w
  end.

End Maze.

(** ** Random wall placement *)

(** A footprint [(x1, y1, x2, y2)]. *)
Definition boundary : Type := (Q * Q * Q * Q)%type.

Fixpoint check_collision (new_wall : boundary) (existing_walls : list boundary)
  : bool :=
  let '(x1, y1, x2, y2) := new_wall in
  match existing_walls with
  | [] => false
  | wall :: rest =>
      let '(wx1, wy1, wx2, wy2) := wall in
      if Qltb x1 wx2 && Qltb wx1 x2 && Qltb y1 wy2 && Qltb wy1 y2
      then true
      else check_collision new_wall rest
  end.

Definition max_attempts : Z := 100.

(** The footprint of a proposed wall (lines 264-267). *)
Definition wall_boundary (maze : Maze.t) (x y : Q) (direction : string)
    (length : Z) : boundary :=
  if String.eqb direction "horizontal" then
    (x, y, x + inject_Z length * Maze.wall_length maze,
     y + Maze.wall_height maze)%Q
  else
    (x, y, x + Maze.wall_length maze,
     y + inject_Z length * Maze.wall_length maze)%Q.

(** The local state of [generate_random_walls]. *)
Record Placement : Type := mkPlacement {
  maze_of : Maze.t;
  existing_walls : list boundary;
  world_of : World
}.

(** One proposal: the four draws of lines 256-261. *)
Definition propose (maze : Maze.t) (w : World) : Q * Q * string * Z * World :=
  let lo := (- Maze.maze_size maze / 2 + Maze.wall_length maze)%Q in
  let hi := (Maze.maze_size maze / 2 - Maze.wall_length maze)%Q in
  let (x, g) := uniform lo hi (rand w) in
  let (y, g) := uniform lo hi g in
  let (direction, g) := choice "horizontal" ["vertical"] g in
  let (length, g) := randint 1 3 g in
  (x, y, direction, length, with_rand g w).

(** [while attempts < max_attempts: ...]; the loop leaves [attempts] at
    [max_attempts] exactly when it ends without a [break].  [fuel] bounds
    the unfolding and is never what stops the loop (see [attempt_fuel]). *)
Fixpoint attempt (fuel : nat) (attempts : Z) (st : Placement) : Z * Placement :=
  match fuel with
  | O => (attempts, st)
  | S fuel' =>
      if attempts <? max_attempts then
        let maze := maze_of st in
        let '(x, y, direction, length, w) := propose maze (world_of st) in
        let b := wall_boundary maze x y direction length in
        if negb (check_collision b (existing_walls st)) then
          let (maze, w) := Maze.add_custom_wall maze (x, y) direction length w in
          (attempts, mkPlacement maze (existing_walls st ++ [b])%list w)
        else
          attempt fuel' (attempts + 1) (mkPlacement maze (existing_walls st) w)
      else (attempts, st)
  end.

(** One iteration of [for _ in range(num_walls)]. *)
Definition place_wall (st : Placement) : Placement :=
  let (attempts, st) := attempt (S (Z.to_nat max_attempts)) 0 st in
  if attempts =? max_attempts then
    mkPlacement (maze_of st) (existing_walls st)
      (print ("Failed to place wall after " ++ str_int max_attempts
              ++ " attempts.") (world_of st))
  else st.

(** [generate_random_walls(maze, num_walls)].  The function returns nothing;
    the model hands back its local [existing_walls] with the maze. *)
Definition generate_random_walls (maze : Maze.t) (num_walls : Z) (w : World)
  : Placement :=
  let st :=
    fold_left (fun st _ => place_wall st) (range num_walls)
      (mkPlacement maze [] w) in
  mkPlacement (maze_of st) (existing_walls st)
    (print (str_int num_walls ++ " random walls added without collisions.")
       (world_of st)).

(** ** Batch generation *)

Definition starts_with_slash (s : string) : bool :=
  match s with
  | String c _ => Ascii.eqb c "/"
  | EmptyString => false
  end.

Fixpoint ends_with_slash (s : string) : bool :=
  match s with
  | EmptyString => false
  | String c EmptyString => Ascii.eqb c "/"
  | String _ s' => ends_with_slash s'
  end.

(** [os.path.join(a, b)] on a POSIX system. *)
Definition path_join (a b : string) : string :=
  if starts_with_slash b then b
  else if String.eqb a "" || ends_with_slash a then a ++ b
  else a ++ "/" ++ b.

(** [range(a, b)] *)
Definition range_from (a b : Z) : list Z := map (fun k => a + k) (range (b - a)).

(** One round of the loop of [generate_and_save_random_mazes] (lines
    298-314): a new scene, a maze with the default grid, the random walls,
    the two markers, the file. *)
Definition batch_round (num_walls : Z) (folder_path : string) (w : World)
    (i : Z) : World :=
  let config : Config := [] in
  let (maze, w) := Maze.init config 16 (1 / 3)%Q 1%Q 1%Q 20%Q (0, 0)%Q w in
  let st := generate_random_walls maze num_walls w in
  let maze := maze_of st in
  let w := world_of st in
  let lo := (- Maze.maze_size maze / 2 + Maze.wall_length maze)%Q in
  let hi := (Maze.maze_size maze / 2 - Maze.wall_length maze)%Q in
  let (goal_x, g) := uniform lo hi (rand w) in
  let (goal_y, g) := uniform lo hi g in
  let (final_x, g) := uniform lo hi g in
  let (final_y, g) := uniform lo hi g in
  let w := with_rand g w in
  let (maze, w) := Maze.add_goal_object maze (goal_x, goal_y) w in
  let (maze, w) := Maze.add_final_object maze (final_x, final_y) w in
  let file_name := "maze_" ++ str_int i ++ ".json" in
  let file_path := path_join folder_path file_name in
  let w := Maze.save_maze maze file_path None w in
  print ("Random maze " ++ str_int i ++ " saved to " ++ file_name) w.

(** [generate_and_save_random_mazes(num_mazes, num_walls, folder_path)].
    Directories are not part of the modelled file system: as in
    [save_maze], a write succeeds wherever it goes, so the guard of lines
    294-295 leaves the world as it is.  The one case it decides by itself
    is the empty path, which never exists and which [os.makedirs] refuses
    with [FileNotFoundError]. *)
Definition generate_and_save_random_mazes (num_mazes num_walls : Z)
    (folder_path : string) (w : World) : result World :=
  if String.eqb folder_path "" then Raise (FileNotFoundError "")
  else
    Ok (fold_left (batch_round num_walls folder_path)
          (range_from 1 (num_mazes + 1)) w).

(** * Vocabulary of the properties *)

(** Strict overlap of two footprints, as section 4.1 of the specification
    writes it. *)
Definition interiors_overlap (a b : boundary) : Prop :=
  let '(x1, y1, x2, y2) := a in
  let '(wx1, wy1, wx2, wy2) := b in
  (x1 < wx2 /\ x2 > wx1 /\ y1 < wy2 /\ y2 > wy1)%Q.

(** One footprint ends, on some axis, no later than the other begins; this
    includes two footprints that share a boundary edge. *)
Definition apart (a b : boundary) : Prop :=
  let '(x1, y1, x2, y2) := a in
  let '(wx1, wy1, wx2, wy2) := b in
  (wx2 <= x1 \/ x2 <= wx1 \/ wy2 <= y1 \/ y2 <= wy1)%Q.

(** Neither footprint collides with the other under [check_collision]. *)
Definition no_mutual_collision (a b : boundary) : Prop :=
  check_collision a [b] = false /\ check_collision b [a] = false.

(** The unique id an obstacle created in world [w] receives. *)
Definition unique_id (w : World) : Z := fst (randint 1000 9999 (rand w)).

(** The world once that id has been drawn. *)
Definition drawn (w : World) : World :=
  with_rand (snd (randint 1000 9999 (rand w))) w.

(** The obstacle that [Obstacle(config, name, ssBox, size, color, position)]
    constructs in world [w]. *)
Definition made (name : string) (size color position : json) (w : World)
  : Obstacle.t :=
  Obstacle.mk (name ++ "_" ++ str_int (unique_id w)) ssBox size color position.

(** The number of obstacles of the maze whose name starts with [side]. *)
Definition side_count (side : string) (m : Maze.t) : Z :=
  Z.of_nat
    (List.length
       (filter (fun o => String.prefix side (Obstacle.name o))
          (Maze.obstacles m))).

(** The fields of a maze that fix its geometry. *)
Definition geometry (m : Maze.t) : Z * Q * Q * Q * Q * (Q * Q) :=
  (Maze.size m, Maze.scale m, Maze.wall_height m, Maze.wall_length m,
   Maze.maze_size m, Maze.center_position m).

Definition obstacle_count (m : Maze.t) : Z :=
  Z.of_nat (List.length (Maze.obstacles m)).

(** A wall segment of one cell: the [cube_size] of [create_maze]. *)
Definition unit_segment (m : Maze.t) (o : Obstacle.t) : Prop :=
  Obstacle.size o =
  floats [Maze.wall_length m; Maze.wall_length m; Maze.wall_height m; 1 # 10]%Q.

(** The frame an obstacle puts in the scene. *)
Definition frame_of (o : Obstacle.t) : Frame :=
  mkFrame (Obstacle.name o) (Some (Obstacle.shape_type o, Obstacle.size o))
          (Some (Obstacle.color o)) (Some (Obstacle.position o)).

(** The goal marker [add_goal_object] creates at [coord] in world [w], and
    the final marker [add_final_object] creates. *)
Definition goal_marker (coord : Q * Q) (w : World) : Obstacle.t :=
  made "goal_object" (floats [3 # 10; 3 # 10; 3 # 10; 1 # 10]%Q)
       (JList [JInt 0; JInt 0; JInt 1])
       (floats [fst coord; snd coord; 2 # 10]%Q) w.

Definition final_marker (coord : Q * Q) (w : World) : Obstacle.t :=
  made "final_object" (floats [4 # 10; 4 # 10; 4 # 10; 1 # 10]%Q)
       (JList [JInt 1; JInt 1; JInt 0])
       (floats [fst coord; snd coord; 3 # 10]%Q) w.

(** The footprints of a list were accepted one after the other, each
    after [check_collision] found it free of all the earlier ones. *)
Inductive accepted_in_turn : list boundary -> Prop :=
| accepted_none : accepted_in_turn []
| accepted_next (l : list boundary) (b : boundary) :
    accepted_in_turn l ->
    check_collision b l = false ->
    accepted_in_turn (l ++ [b]).

(** What a maze operation that only adds walls leaves alone. *)
Definition untouched (m : Maze.t) (w : World)
  : (Z * Q * Q * Q * Q * (Q * Q)) * list (string * Obstacle.t)
    * option Obstacle.t * option Obstacle.t * list string
    * list (string * json) :=
  (geometry m, Maze.custom_walls m, Maze.goal_object m, Maze.final_object m,
   stdout w, files w).

(** The report of a wall given up. *)
Definition failure_message : string :=
  "Failed to place wall after " ++ str_int max_attempts ++ " attempts.".

(** The closing line of [generate_random_walls]. *)
Definition closing_message (num_walls : Z) : string :=
  str_int num_walls ++ " random walls added without collisions.".

(** The number of footprints committed so far. *)
Definition placed (st : Placement) : Z :=
  Z.of_nat (List.length (existing_walls st)).

(** The two footprints of section 4.3, step 4 of the specification. *)
Definition horizontal_footprint (m : Maze.t) (x y : Q) (length : Z) : boundary :=
  (x, y, x + inject_Z length * Maze.wall_length m, y + Maze.wall_height m)%Q.

Definition vertical_footprint (m : Maze.t) (x y : Q) (length : Z) : boundary :=
  (x, y, x + Maze.wall_length m, y + inject_Z length * Maze.wall_length m)%Q.

Definition footprint_of_proposal (m : Maze.t) (b : boundary) : Prop :=
  exists (x y : Q) (length : Z),
    1 <= length <= 3 /\
    (b = horizontal_footprint m x y length \/
     b = vertical_footprint m x y length).

(** The seven scalar fields of a maze document, read in the order and at
    the types [load_maze] reads them. *)
Definition read_scalars (maze_data : json)
  : result (Z * Q * Q * Q * Q * (Q * Q) * Z) :=
  try size <- (try v <- getitem maze_data "size"; as_int v);
  try scale <- (try v <- getitem maze_data "scale"; as_number v);
  try wall_height <- (try v <- getitem maze_data "wall_height"; as_number v);
  try wall_length <- (try v <- getitem maze_data "wall_length"; as_number v);
  try maze_size <- (try v <- getitem maze_data "maze_size"; as_number v);
  try center <- (try v <- getitem maze_data "center_position"; as_pair v);
  try counter <- (try v <- getitem maze_data "wall_id_counter"; as_int v);
  Ok (size, scale, wall_height, wall_length, maze_size, center, counter).

(** An obstacle record of the file format with the known shape kind. *)
Definition obstacle_record (r : json) : Prop :=
  exists kvs name size color position,
    r = JDict kvs /\
    dict_get "shape_type" kvs = Some (JStr "ssBox") /\
    dict_get "name" kvs = Some (JStr name) /\
    dict_get "size" kvs = Some size /\
    dict_get "color" kvs = Some color /\
    dict_get "position" kvs = Some position.

(** [o] is what [from_dict] builds from the record [r]: the record's shape,
    size, color and position, and the record's name followed by a new
    four-digit id. *)
Definition reloaded_from (r : json) (o : Obstacle.t) : Prop :=
  exists (name : string) (uid : Z),
    1000 <= uid <= 9999 /\
    getitem r "name" = Ok (JStr name) /\
    Obstacle.name o = name ++ "_" ++ str_int uid /\
    Obstacle.shape_type o = ssBox /\
    getitem r "size" = Ok (Obstacle.size o) /\
    getitem r "color" = Ok (Obstacle.color o) /\
    getitem r "position" = Ok (Obstacle.position o).

(** What rebuilding the obstacles leaves alone. *)
Definition kept (m : Maze.t) (w : World)
  : (Z * Q * Q * Q * Q * (Q * Q)) * Z * option Obstacle.t * option Obstacle.t
    * list string * list (string * json) :=
  (geometry m, Maze.wall_id_counter m, Maze.goal_object m,
   Maze.final_object m, stdout w, files w).

(** The maze once [load_maze] has assigned the seven scalar fields. *)
Definition restored (self : Maze.t) (sc : Z * Q * Q * Q * Q * (Q * Q) * Z)
  : Maze.t :=
  let '(size, scale, wall_height, wall_length, maze_size, center, counter) :=
    sc in
  Maze.set_wall_id_counter counter
    (Maze.set_center_position center
       (Maze.set_maze_size maze_size
          (Maze.set_wall_length wall_length
             (Maze.set_wall_height wall_height
                (Maze.set_scale scale (Maze.set_size size self)))))).

(** ** Sample data *)

(** A generator whose raw draws are 13, 7932, 15851, ... *)
Definition sample_random : Random :=
  mkRandom (fun n => Z.of_nat n * 7919 + 13) 0.

Definition sample_world : World := mkWorld sample_random [] [].

(** A maze document that lacks the key [custom_walls]. *)
Definition document_without_custom_walls : list (string * json) :=
  [("size", JInt 4); ("scale", JFloat (1 # 3));
   ("wall_height", JInt 1); ("wall_length", JInt 1);
   ("maze_size", JInt 4);
   ("center_position", JList [JInt 0; JInt 0]);
   ("wall_id_counter", JInt 25);
   ("obstacles",
    JList [JDict [("name", JStr "floor_1234");
                  ("shape_type", JStr "ssBox");
                  ("size", floats [4; 4; 1 # 10; 1 # 10]%Q);
                  ("color", floats [8 # 10; 8 # 10; 8 # 10]%Q);
                  ("position", floats [0; 0; - (1 # 20)]%Q)]])].

Definition world_with_document : World :=
  mkWorld sample_random []
    [("maze_1.json", JDict document_without_custom_walls)].

(** A maze object that holds a custom wall from an earlier load. *)
Definition stale_maze : Maze.t :=
  Maze.mk [] [] 16 (1 / 3)%Q 1%Q 1%Q 16%Q (0, 0)%Q
    [("old_1111", Obstacle.mk "old_1111" ssBox JNull JNull JNull)]
    1 None None.

(** [o'] has the shape, size, color and position of [o] and the name of [o]
    followed by a new four-digit id. *)
Definition renamed_copy (o o' : Obstacle.t) : Prop :=
  Obstacle.shape_type o' = Obstacle.shape_type o /\
  Obstacle.size o' = Obstacle.size o /\
  Obstacle.color o' = Obstacle.color o /\
  Obstacle.position o' = Obstacle.position o /\
  exists uid : Z,
    1000 <= uid <= 9999 /\
    Obstacle.name o' = Obstacle.name o ++ "_" ++ str_int uid.

(** Every obstacle of the maze is a rounded box, the one shape the maze
    operations create. *)
Definition all_ssBox (m : Maze.t) : Prop :=
  Forall (fun o => Obstacle.shape_type o = ssBox) (Maze.obstacles m) /\
  Forall (fun o => Obstacle.shape_type o = ssBox)
    (dict_values (Maze.custom_walls m)).

(** ** Names and the wall-id counter *)

(** The text before the first occurrence of [c]; all of it when there is
    none. *)
Fixpoint before_first (c : ascii) (s : string) : string :=
  match s with
  | EmptyString => EmptyString
  | String a s' => if Ascii.eqb a c then EmptyString
                   else String a (before_first c s')
  end.

(** [s] without its prefix [p], when [p] is a prefix of [s]. *)
Fixpoint drop_prefix (p s : string) : option string :=
  match p with
  | EmptyString => Some s
  | String a p' =>
      match s with
      | EmptyString => None
      | String b s' => if Ascii.eqb a b then drop_prefix p' s' else None
      end
  end.

(** The integer a decimal numeral denotes. *)
Definition parse_int (s : string) : option Z :=
  option_map Z.of_int (NilZero.int_of_string s).

(** The numeric suffix of a name: the number after its last underscore. *)
Definition numeric_suffix (name : string) : option Z :=
  match after_last "_" name with
  | Some t => parse_int t
  | None => None
  end.

(** The wall id of a custom wall name: the number [K] of
    [custom_wall_K_...], which [add_custom_wall] takes from the counter. *)
Definition custom_wall_id (name : string) : option Z :=
  match drop_prefix "custom_wall_" name with
  | Some rest => parse_int (before_first "_" rest)
  | None => None
  end.

Definition is_custom_wall (o : Obstacle.t) : bool :=
  String.prefix "custom_wall_" (Obstacle.name o).

(** The name of [o] does not start like a custom wall's, or it is
    [custom_wall_K_...] for a [K] below [c]. *)
Definition named_below (c : Z) (o : Obstacle.t) : Prop :=
  (exists a s, Obstacle.name o = String a s /\ a <> "c"%char) \/
  (exists K tail,
     Obstacle.name o = "custom_wall_" ++ str_int K ++ "_" ++ tail /\ K < c).

Definition well_named (m : Maze.t) : Prop :=
  all_ssBox m /\
  Forall (named_below (Maze.wall_id_counter m)) (Maze.obstacles m).

(** The mazes the program builds: a constructed maze, and what the wall and
    marker operations make of one. *)
Inductive built : Maze.t -> Prop :=
| built_init (config : Config) (size : Z)
    (scale wall_height wall_length floor_size : Q) (center : Q * Q)
    (w : World) :
    built (fst (Maze.init config size scale wall_height wall_length floor_size
                  center w))
| built_custom_wall (m : Maze.t) (start : Q * Q) (direction : string)
    (length : Z) (w : World) :
    built m -> built (fst (Maze.add_custom_wall m start direction length w))
| built_goal (m : Maze.t) (coord : Q * Q) (w : World) :
    built m -> built (fst (Maze.add_goal_object m coord w))
| built_final (m : Maze.t) (coord : Q * Q) (w : World) :
    built m -> built (fst (Maze.add_final_object m coord w))
| built_random (m : Maze.t) (num_walls : Z) (w : World) :
    built m -> built (maze_of (generate_random_walls m num_walls w)).

(** A maze of grid size 1 with one custom wall of one cell. *)
Definition small_maze : Maze.t * World :=
  let (m, w) := Maze.init [] 1 (1 / 3)%Q 1%Q 1%Q 20%Q (0, 0)%Q sample_world in
  Maze.add_custom_wall m (0, 0)%Q "horizontal" 1 w.

(** The counter exceeds every numeric suffix among the custom wall names
    of the maze. *)
Definition counter_exceeds_suffixes (m : Maze.t) : Prop :=
  forall o,
    In o (Maze.obstacles m) -> is_custom_wall o = true ->
    forall k, numeric_suffix (Obstacle.name o) = Some k ->
              k < Maze.wall_id_counter m.

(** The counter exceeds every wall id among the names of the maze. *)
Definition counter_exceeds_wall_ids (m : Maze.t) : Prop :=
  forall o,
    In o (Maze.obstacles m) ->
    forall k, custom_wall_id (Obstacle.name o) = Some k ->
              k < Maze.wall_id_counter m.

(** That maze saved to a file and loaded from it. *)
Definition reloaded_small_maze : Maze.t :=
  let (m, w) := small_maze in
  snd (fst (Maze.load_maze m "maze_1.json"
              (Maze.save_maze m "maze_1.json" None w))).

(** ** Vocabulary of the further properties *)

(** The first of [keys] that the dictionary lacks. *)
Definition first_missing (keys : list string) (kvs : list (string * json))
  : option string :=
  find (fun k => negb (dict_has k kvs)) keys.

(** The maze with [loaded] appended to its obstacles and their frames to
    its scene. *)
Definition loaded_into (loaded : list Obstacle.t) (self : Maze.t) : Maze.t :=
  Maze.set_obstacles (Maze.obstacles self ++ loaded)%list
    (Maze.set_config (Maze.config self ++ map frame_of loaded)%list self).

(** The maze with an empty scene and no obstacle. *)
Definition emptied (self : Maze.t) : Maze.t :=
  Maze.set_obstacles [] (Maze.set_config (clear (Maze.config self)) self).

(** The records under [custom_walls] that [load_maze] goes through: none
    when the key is missing. *)
Definition custom_wall_records (kvs : list (string * json))
  : option (list json) :=
  match dict_get "custom_walls" kvs with
  | None => Some []
  | Some (JList cw) => Some cw
  | Some _ => None
  end.

(** A document that lacks the key [wall_id_counter]. *)
Definition document_without_counter : list (string * json) :=
  [("size", JInt 4); ("scale", JFloat (1 # 3));
   ("wall_height", JInt 1); ("wall_length", JInt 1);
   ("maze_size", JInt 4);
   ("center_position", JList [JInt 0; JInt 0]);
   ("obstacles", JList [])].

(** A document whose second obstacle has an unknown shape kind. *)
Definition document_with_unknown_shape : list (string * json) :=
  [("size", JInt 4); ("scale", JFloat (1 # 3));
   ("wall_height", JInt 1); ("wall_length", JInt 1);
   ("maze_size", JInt 4);
   ("center_position", JList [JInt 0; JInt 0]);
   ("wall_id_counter", JInt 25);
   ("obstacles",
    JList [JDict [("name", JStr "floor_1234");
                  ("shape_type", JStr "ssBox");
                  ("size", floats [4; 4; 1 # 10; 1 # 10]%Q);
                  ("color", floats [8 # 10; 8 # 10; 8 # 10]%Q);
                  ("position", floats [0; 0; - (1 # 20)]%Q)];
           JDict [("name", JStr "ball_5678");
                  ("shape_type", JStr "unknownPrimitive")]])].

Definition world_with (doc : list (string * json)) : World :=
  mkWorld sample_random [] [("maze_1.json", JDict doc)].

(** The nine keys of a maze document that [load_maze] looks up. *)
Definition maze_keys : list string :=
  ["size"; "scale"; "wall_height"; "wall_length"; "maze_size";
   "center_position"; "wall_id_counter"; "obstacles"; "custom_walls"].

(** Two worlds with the same generator and the same output; their files may
    differ. *)
Definition same_run (w w' : World) : Prop :=
  rand w = rand w' /\ stdout w = stdout w'.

(** Two outcomes with the same result and maze, in worlds of the same run. *)
Definition same_outcome (a b : Maze.outcome) : Prop :=
  fst (fst a) = fst (fst b) /\ snd (fst a) = snd (fst b) /\
  same_run (snd a) (snd b).

(** The sample document with an agent placement added, as [save_maze] adds
    it. *)
Definition document_with_robot : list (string * json) :=
  dict_set "robot_quaternion" (JList [JInt 1; JInt 0; JInt 0; JInt 0])
    (dict_set "robot_model" (JStr "panda")
       (dict_set "robot_position" (JList [JInt 0; JInt 0; JInt 0])
          document_without_custom_walls)).

(** The position [add_custom_wall] gives the segment of index [i] of a wall
    that starts at [(x, y)]. *)
Definition segment_position (m : Maze.t) (x y : Q) (direction : string)
    (i : Z) : json :=
  if String.eqb direction "horizontal" then
    floats [x + inject_Z i * Maze.wall_length m; y; Maze.wall_height m / 2]%Q
  else
    floats [x; y + inject_Z i * Maze.wall_length m; Maze.wall_height m / 2]%Q.

(** The wall ids of a list of obstacles, in order. *)
Definition wall_ids (l : list Obstacle.t) : list (option Z) :=
  map (fun o => custom_wall_id (Obstacle.name o)) l.

(** The segments a call has added: each has the size of one cell of [m0]
    and a wall id from [lo] up to, not including, [hi]. *)
Definition new_segment (m0 : Maze.t) (lo hi : Z) (o : Obstacle.t) : Prop :=
  unit_segment m0 o /\
  exists k, custom_wall_id (Obstacle.name o) = Some k /\ lo <= k < hi.

(** The maze [m] is the maze [m0] with the segments [news] added by
    [placed] committed walls. *)
Definition extended_by (m0 : Maze.t) (news : list Obstacle.t) (placed : Z)
    (m : Maze.t) : Prop :=
  Maze.obstacles m = (Maze.obstacles m0 ++ news)%list /\
  Maze.config m = (Maze.config m0 ++ map frame_of news)%list /\
  placed <= Z.of_nat (List.length news) <= 3 * placed /\
  Forall (new_segment m0 (Maze.wall_id_counter m0) (Maze.wall_id_counter m))
    news /\
  Maze.wall_id_counter m =
  Maze.wall_id_counter m0 + 2 * Z.of_nat (List.length news) /\
  geometry m = geometry m0 /\
  Maze.custom_walls m = Maze.custom_walls m0 /\
  Maze.goal_object m = Maze.goal_object m0 /\
  Maze.final_object m = Maze.final_object m0.

(** The custom-wall mapping is empty and the scene ends with the frames of
    the obstacles, in the order of the obstacle list. *)
Definition scene_in_step (m : Maze.t) : Prop :=
  Maze.custom_walls m = [] /\
  exists C0 : Config,
    Maze.config m = (C0 ++ map frame_of (Maze.obstacles m))%list.

(** [o] is a wall created under the name [n] at position [p], with the
    given size and color: its name is [n] followed by a four-digit id. *)
Definition wall_like (size color : json) (o : Obstacle.t)
    (np : string * json) : Prop :=
  exists uid : Z,
    1000 <= uid <= 9999 /\
    Obstacle.name o = fst np ++ "_" ++ str_int uid /\
    Obstacle.position o = snd np /\
    Obstacle.size o = size /\
    Obstacle.color o = color /\
    Obstacle.shape_type o = ssBox.

(** The names and positions of the perimeter walls of a maze of grid size
    [g], in the order [create_maze] lays them: the top and bottom wall of
    each index, then the left and right wall of each index.  The maze's
    center is not part of it. *)
Definition perimeter_plan (g : Z) (wl wh : Q) : list (string * json) :=
  let S := (inject_Z g * wl)%Q in
  let ox := (- S / 2)%Q in
  let oy := (- S / 2)%Q in
  let rows :=
    flat_map
      (fun i =>
         [("top_wall_" ++ str_int i,
           floats [ox + inject_Z i * wl - wl / 2; oy - wl / 2; wh / 2]%Q);
          ("bottom_wall_" ++ str_int i,
           floats [ox + inject_Z i * wl - wl / 2; oy + S + wl / 2;
                   wh / 2]%Q)])
      (range (g + 2)) in
  let columns :=
    flat_map
      (fun i =>
         [("left_wall_" ++ str_int i,
           floats [ox - wl / 2; oy + inject_Z i * wl - wl / 2; wh / 2]%Q);
          ("right_wall_" ++ str_int i,
           floats [ox + S + wl / 2; oy + inject_Z i * wl - wl / 2;
                   wh / 2]%Q)])
      (range (g + 2)) in
  (rows ++ columns)%list.

(** The path of the file of the maze of index [i] of a batch. *)
Definition batch_file (folder_path : string) (i : Z) : string :=
  path_join folder_path ("maze_" ++ str_int i ++ ".json").

(** The geometry of the mazes of a batch. *)
Definition default_geometry : Z * Q * Q * Q * Q * (Q * Q) :=
  (16, (1 / 3)%Q, 1%Q, 1%Q, (inject_Z 16 * 1)%Q, (0, 0)%Q).

(** A maze of a batch that asks for [num_walls] walls: built by the
    program, of the default geometry, with the floor, the 72 perimeter
    walls, [k] custom segments and, last, the goal and the final marker. *)
Definition batch_maze (num_walls : Z) (m : Maze.t) : Prop :=
  built m /\
  geometry m = default_geometry /\
  (exists k, 0 <= k <= 3 * Z.max 0 num_walls /\
             obstacle_count m = 75 + k /\
             Maze.wall_id_counter m = 73 + 2 * k) /\
  exists rest goal final,
    Maze.obstacles m = (rest ++ [goal; final])%list /\
    Maze.goal_object m = Some goal /\
    Maze.final_object m = Some final.

(** The file at [path] holds what [save_maze] writes for the maze [m]. *)
Definition holds_saved (m : Maze.t) (path : string) (w : World) : Prop :=
  dict_get path (files w) =
  dict_get path (files (Maze.save_maze m path None w)).

(** * Properties *)

(** ** The collision test *)

Lemma Qltb_lt (a b : Q) : Qltb a b = true <-> (a < b)%Q.
Proof.
  unfold Qltb. rewrite Qlt_alt.
  destruct (a ?= b)%Q; split; intro H; congruence.
Qed.

Lemma Qltb_ge (a b : Q) : Qltb a b = false <-> (b <= a)%Q.
Proof.
  split; intro H.
  - apply Qnot_lt_le. intro Hlt. apply Qltb_lt in Hlt. congruence.
  - destruct (Qltb a b) eqn:E; [|reflexivity].
    apply Qltb_lt in E. exfalso. exact (Qle_not_lt _ _ H E).
Qed.

Lemma check_collision_cons (a b : boundary) (l : list boundary) :
  check_collision a (b :: l) = check_collision a [b] || check_collision a l.
Proof.
  destruct a as [[[x1 y1] x2] y2], b as [[[wx1 wy1] wx2] wy2]. simpl.
  destruct (Qltb x1 wx2 && Qltb wx1 x2 && Qltb y1 wy2 && Qltb wy1 y2);
    reflexivity.
Qed.

Lemma check_collision_one (a b : boundary) :
  check_collision a [b] = true <-> interiors_overlap a b.
Proof.
  destruct a as [[[x1 y1] x2] y2], b as [[[wx1 wy1] wx2] wy2]. simpl.
  destruct (Qltb x1 wx2) eqn:E1, (Qltb wx1 x2) eqn:E2,
           (Qltb y1 wy2) eqn:E3, (Qltb wy1 y2) eqn:E4; simpl;
    rewrite <- !Qltb_lt, ?E1, ?E2, ?E3, ?E4; intuition congruence.
Qed.

Lemma check_collision_one_false (a b : boundary) :
  check_collision a [b] = false <-> apart a b.
Proof.
  destruct a as [[[x1 y1] x2] y2], b as [[[wx1 wy1] wx2] wy2]. simpl.
  rewrite <- !Qltb_ge.
  destruct (Qltb x1 wx2), (Qltb wx1 x2), (Qltb y1 wy2), (Qltb wy1 y2); simpl;
    intuition congruence.
Qed.

Lemma check_collision_sym (a b : boundary) :
  check_collision a [b] = check_collision b [a].
Proof.
  destruct a as [[[x1 y1] x2] y2], b as [[[wx1 wy1] wx2] wy2]. simpl.
  destruct (Qltb x1 wx2), (Qltb wx1 x2), (Qltb y1 wy2), (Qltb wy1 y2),
           (Qltb wx1 x2), (Qltb x1 wx2); reflexivity.
Qed.

Lemma check_collision_false_iff (a : boundary) (l : list boundary) :
  check_collision a l = false <-> Forall (fun b => check_collision a [b] = false) l.
Proof.
  induction l as [|b l IH].
  - destruct a as [[[? ?] ?] ?]. simpl. split; auto.
  - rewrite check_collision_cons, orb_false_iff, IH. split.
    + intros [H1 H2]. constructor; assumption.
    + intro H. inversion H; subst. split; assumption.
Qed.

(** C3.  [check_collision] answers true exactly when the new footprint
    strictly overlaps one of the existing ones, the four strict
    inequalities of the specification; against a single footprint it answers
    false exactly when the two are apart on some axis, which covers two
    footprints that only share an edge.  The function is a pure function of
    its two arguments. *)
Theorem check_collision_strict_overlap :
  forall (a b : boundary) (l : list boundary),
    (check_collision a l = true <-> Exists (interiors_overlap a) l) /\
    (check_collision a [b] = false <-> apart a b).
Proof.
  intros a b l. split; [|apply check_collision_one_false].
  induction l as [|c l IH].
  - destruct a as [[[? ?] ?] ?]. simpl. split; [discriminate|].
    intro H. inversion H.
  - rewrite check_collision_cons, orb_true_iff, IH, check_collision_one.
    rewrite Exists_cons. reflexivity.
Qed.

(** Two unit squares side by side share the edge [x = 1] and do not collide;
    shifted by a half they do. *)
Example check_collision_edge :
  check_collision (0, 0, 1, 1)%Q [(1, 0, 2, 1)%Q] = false /\
  check_collision (0, 0, 1, 1)%Q [(1 # 2, 0, 3 # 2, 1)%Q] = true.
Proof. split; reflexivity. Qed.

(** ** Frame lemmas for the maze operations *)

Lemma fold_left_invariant {A B : Type} (P : A -> Prop) (f : A -> B -> A)
    (l : list B) (a : A) :
  P a -> (forall a b, P a -> P (f a b)) -> P (fold_left f l a).
Proof.
  revert a. induction l as [|b l IH]; simpl; intros a Ha Hf; auto.
Qed.

Lemma range_length (n : Z) : List.length (range n) = Z.to_nat n.
Proof. unfold range. rewrite length_map, length_seq. reflexivity. Qed.

Lemma unique_id_range (w : World) : 1000 <= unique_id w <= 9999.
Proof.
  unfold unique_id, randint, next. cbv beta iota zeta. unfold fst.
  change (9999 - 1000 + 1) with 9000.
  pose proof (Z.mod_pos_bound (raw (rand w) (cursor (rand w))) 9000 eq_refl).
  lia.
Qed.

Lemma update_frame_last (f : Frame -> Frame) (C : Config) (x : Frame) :
  update_frame (List.length C) f (C ++ [x])%list = (C ++ [f x])%list.
Proof. induction C as [|y C IH]; simpl; [reflexivity | now rewrite IH]. Qed.

(** [create_object] adds one frame, fully set, after the frames in place. *)
Lemma create_object_frame (o : Obstacle.t) (C : Config) :
  Obstacle.create_object o C = (C ++ [frame_of o])%list.
Proof.
  unfold Obstacle.create_object, addFrame, setShape, setColor, setPosition.
  rewrite !update_frame_last. reflexivity.
Qed.

Lemma Obstacle_init_eq (C : Config) (name : string) (st : ST)
    (size color position : json) (w : World) :
  Obstacle.init C name st size color position w =
  (let o := Obstacle.mk (name ++ "_" ++ str_int (unique_id w)) st size color
                        position in
   (o, Obstacle.create_object o C, drawn w)).
Proof.
  unfold Obstacle.init, unique_id, drawn.
  destruct (randint 1000 9999 (rand w)) as [u g]. reflexivity.
Qed.

Lemma add_wall_eq (self : Maze.t) (name : string) (position size color : json)
    (w : World) :
  Maze.add_wall self name position size color w =
  (let o := made name size color position w in
   (Maze.set_wall_id_counter (Maze.wall_id_counter self + 1)
      (Maze.append_obstacle o
         (Maze.set_config (Obstacle.create_object o (Maze.config self)) self)),
    drawn w)).
Proof.
  unfold Maze.add_wall, Maze.new_obstacle. rewrite Obstacle_init_eq.
  reflexivity.
Qed.

Lemma fold_left_measure {B : Type} (f : Maze.t * World -> B -> Maze.t * World)
    (mu : Maze.t -> Z) (d : Z) :
  (forall st b, mu (fst (f st b)) = mu (fst st) + d) ->
  forall l st,
    mu (fst (fold_left f l st)) = mu (fst st) + d * Z.of_nat (List.length l).
Proof.
  intros Hstep l. induction l as [|b l IH]; intro st.
  - simpl. lia.
  - cbn [fold_left]. rewrite IH, Hstep. cbn [List.length]. lia.
Qed.

Lemma side_count_snoc (side : string) (m : Maze.t) (o : Obstacle.t) :
  side_count side (Maze.append_obstacle o m) =
  side_count side m + (if String.prefix side (Obstacle.name o) then 1 else 0).
Proof.
  unfold side_count, Maze.append_obstacle. simpl.
  rewrite filter_app, length_app. simpl.
  destruct (String.prefix side (Obstacle.name o)); simpl; lia.
Qed.

Lemma side_count_frame (side : string) (m : Maze.t) (c : Config) (z : Z) :
  side_count side (Maze.set_wall_id_counter z m) = side_count side m /\
  side_count side (Maze.set_config c m) = side_count side m.
Proof. split; reflexivity. Qed.

Lemma prefix_empty (s : string) : String.prefix "" s = true.
Proof. destruct s; reflexivity. Qed.

Lemma add_wall_side_count side self name pos size color w :
  side_count side (fst (Maze.add_wall self name pos size color w)) =
  side_count side self +
  (if String.prefix side (name ++ "_" ++ str_int (unique_id w)) then 1 else 0).
Proof.
  rewrite add_wall_eq. cbv zeta. cbn [fst].
  rewrite (proj1 (side_count_frame _ _ [] _)), side_count_snoc.
  rewrite (proj2 (side_count_frame _ _ _ 0)). reflexivity.
Qed.

Lemma add_wall_obstacle_count self name pos size color w :
  obstacle_count (fst (Maze.add_wall self name pos size color w)) =
  obstacle_count self + 1.
Proof.
  rewrite add_wall_eq. unfold obstacle_count. simpl.
  rewrite length_app. simpl. lia.
Qed.

Lemma add_wall_counter self name pos size color w :
  Maze.wall_id_counter (fst (Maze.add_wall self name pos size color w)) =
  Maze.wall_id_counter self + 1.
Proof. rewrite add_wall_eq. reflexivity. Qed.

Lemma add_wall_geometry self name pos size color w :
  geometry (fst (Maze.add_wall self name pos size color w)) = geometry self.
Proof. rewrite add_wall_eq. reflexivity. Qed.

Lemma add_wall_obstacles self name pos size color w :
  Maze.obstacles (fst (Maze.add_wall self name pos size color w)) =
  (Maze.obstacles self ++ [made name size color pos w])%list.
Proof. rewrite add_wall_eq. reflexivity. Qed.

(** ** The perimeter *)

(** One round of a perimeter loop: two [add_wall] calls in sequence.  The
    tactic records what the first call does to each measure, then rewrites
    the second. *)
Ltac perimeter_step :=
  intros [? ?] ?; cbv beta iota zeta;
  match goal with
  | |- context [let (_, _) := Maze.add_wall ?self ?n ?p ?sz ?c ?w in _] =>
      pose proof (add_wall_side_count "top_wall_" self n p sz c w);
      pose proof (add_wall_side_count "bottom_wall_" self n p sz c w);
      pose proof (add_wall_side_count "left_wall_" self n p sz c w);
      pose proof (add_wall_side_count "right_wall_" self n p sz c w);
      pose proof (add_wall_side_count "floor" self n p sz c w);
      pose proof (add_wall_obstacle_count self n p sz c w);
      pose proof (add_wall_counter self n p sz c w);
      pose proof (add_wall_geometry self n p sz c w);
      destruct (Maze.add_wall self n p sz c w) as [? ?]
  end;
  cbn [fst] in *;
  rewrite ?add_wall_side_count, ?add_wall_obstacle_count, ?add_wall_counter,
    ?add_wall_geometry;
  simpl String.prefix in *; rewrite ?prefix_empty in *; cbv iota in *;
  try lia; try congruence.

Ltac measure_loops d1 d2 :=
  match goal with
  | |- ?mu (fst (fold_left ?f ?l ?s)) = _ =>
      rewrite (fold_left_measure f mu d2) by perimeter_step
  end;
  match goal with
  | st := fold_left ?f ?l ?s |- context [?mu (fst ?st')] =>
      subst st; rewrite (fold_left_measure f mu d1) by perimeter_step
  end.

Lemma create_maze_counts (self : Maze.t) (w : World) :
  let n := Z.max 0 (Maze.size self + 2) in
  let m := fst (Maze.create_maze self w) in
  side_count "top_wall_" m = side_count "top_wall_" self + n /\
  side_count "bottom_wall_" m = side_count "bottom_wall_" self + n /\
  side_count "left_wall_" m = side_count "left_wall_" self + n /\
  side_count "right_wall_" m = side_count "right_wall_" self + n /\
  side_count "floor" m = side_count "floor" self /\
  obstacle_count m = obstacle_count self + 4 * n /\
  Maze.wall_id_counter m = Maze.wall_id_counter self + 4 * n /\
  geometry m = geometry self.
Proof.
  intros n m. subst n m. unfold Maze.create_maze. cbv zeta.
  match goal with
  | |- context [fold_left ?f (range (Maze.size self + 2)) (self, w)] =>
      set (st := fold_left f (range (Maze.size self + 2)) (self, w))
  end.
  assert (Hst : geometry (fst st) = geometry self).
  { subst st.
    apply (fold_left_invariant (fun st => geometry (fst st) = geometry self));
      [reflexivity|]. perimeter_step. }
  assert (Hsz : Maze.size (fst st) = Maze.size self).
  { injection Hst. intros. congruence. }
  rewrite Hsz.
  repeat split.
  - measure_loops 1 0. rewrite !range_length. cbn [fst]. lia.
  - measure_loops 1 0. rewrite !range_length. cbn [fst]. lia.
  - measure_loops 0 1. rewrite !range_length. cbn [fst]. lia.
  - measure_loops 0 1. rewrite !range_length. cbn [fst]. lia.
  - measure_loops 0 0. rewrite !range_length. cbn [fst]. lia.
  - measure_loops 2 2. rewrite !range_length. cbn [fst]. lia.
  - measure_loops 2 2. rewrite !range_length. cbn [fst]. lia.
  - rewrite <- Hst.
    apply (fold_left_invariant (fun s => geometry (fst s) = geometry (fst st)));
      [reflexivity|]. perimeter_step.
Qed.

Lemma create_floor_eq (self : Maze.t) (w : World) :
  Maze.create_floor self w =
  (let (cx, cy) := Maze.center_position self in
   let o := made "floor"
              (floats [Maze.maze_size self; Maze.maze_size self; 1 # 10;
                       1 # 10]%Q)
              (floats [8 # 10; 8 # 10; 8 # 10]%Q)
              (floats [cx; cy; - (1 # 10) / 2]%Q) w in
   (Maze.append_obstacle o
      (Maze.set_config (Obstacle.create_object o (Maze.config self)) self),
    drawn w)).
Proof.
  unfold Maze.create_floor, Maze.new_obstacle.
  destruct (Maze.center_position self) as [cx cy].
  rewrite Obstacle_init_eq. reflexivity.
Qed.

(** Every obstacle the perimeter loops add has the size of one cell. *)
Lemma create_maze_unit (self : Maze.t) (w : World) (R : Obstacle.t -> Prop) :
  (forall o, unit_segment self o -> R o) ->
  Forall R (Maze.obstacles self) ->
  Forall R (Maze.obstacles (fst (Maze.create_maze self w))).
Proof.
  intros HR H0. unfold Maze.create_maze. cbv zeta.
  assert (Hstep : forall n1 p1 n2 p2 (st : Maze.t * World),
             Forall R (Maze.obstacles (fst st)) ->
             Forall R (Maze.obstacles (fst
               (let (s1, w1) :=
                  Maze.add_wall (fst st) n1 p1
                    (floats [Maze.wall_length self; Maze.wall_length self;
                             Maze.wall_height self; 1 # 10]%Q)
                    (floats [35 # 100; 16 # 100; 14 # 100]%Q) (snd st) in
                Maze.add_wall s1 n2 (p2 s1)
                  (floats [Maze.wall_length self; Maze.wall_length self;
                           Maze.wall_height self; 1 # 10]%Q)
                  (floats [35 # 100; 16 # 100; 14 # 100]%Q) w1)))).
  { intros n1 p1 n2 p2 [s0 w0] H. cbn [fst snd] in *.
    match goal with
    | |- context [let (_, _) := Maze.add_wall ?s ?n ?p ?sz ?c ?w in _] =>
        pose proof (add_wall_obstacles s n p sz c w) as E;
        destruct (Maze.add_wall s n p sz c w) as [s1 w1]
    end.
    cbn [fst] in E. rewrite add_wall_obstacles, E, !Forall_app.
    repeat split; auto; constructor; auto; apply HR; reflexivity. }
  apply (fold_left_invariant (fun st => Forall R (Maze.obstacles (fst st)))).
  - apply (fold_left_invariant (fun st => Forall R (Maze.obstacles (fst st))));
      [exact H0|].
    intros [s0 w0] i H.
    exact (Hstep _ _ _
             (fun s1 => floats [_; (_ + Maze.maze_size s1
                                    + Maze.wall_length s1 / 2)%Q;
                                (Maze.wall_height s1 / 2)%Q])
             (s0, w0) H).
  - intros [s0 w0] i H.
    exact (Hstep _ _ _
             (fun s1 => floats [(_ + Maze.maze_size s1
                                 + Maze.wall_length s1 / 2)%Q; _;
                                (Maze.wall_height s1 / 2)%Q])
             (s0, w0) H).
Qed.

(** C7.  A maze constructed with grid size [g] has, next to its one floor,
    exactly [4 * (g + 2)] perimeter segments: [g + 2] named [top_wall_i],
    [g + 2] named [bottom_wall_i], [g + 2] named [left_wall_i] and [g + 2]
    named [right_wall_i], each of the size of one cell. *)
Theorem perimeter_segments :
  forall (config : Config) (g : Z) (scale wall_height wall_length floor_size : Q)
         (center_position : Q * Q) (w : World),
    0 <= g ->
    let m := fst (Maze.init config g scale wall_height wall_length floor_size
                    center_position w) in
    side_count "top_wall_" m = g + 2 /\
    side_count "bottom_wall_" m = g + 2 /\
    side_count "left_wall_" m = g + 2 /\
    side_count "right_wall_" m = g + 2 /\
    side_count "floor" m = 1 /\
    obstacle_count m = 1 + 4 * (g + 2) /\
    Forall (fun o => String.prefix "floor" (Obstacle.name o) = true \/
                     unit_segment m o) (Maze.obstacles m).
Proof.
  intros config g sc wh wl fs cp w Hg m. subst m. unfold Maze.init.
  rewrite create_floor_eq. cbn [Maze.center_position]. destruct cp as [cx cy].
  cbv zeta.
  match goal with
  | |- context [Maze.create_maze ?m0 ?w0] => set (self := m0); set (w1 := w0)
  end.
  pose proof (create_maze_counts self w1) as H. cbv zeta in H.
  destruct H as (Ht & Hb & Hl & Hr & Hf & Hn & _ & Hgeo).
  replace (Z.max 0 (Maze.size self + 2)) with (g + 2) in *
    by (subst self; cbn [Maze.size Maze.set_config Maze.append_obstacle
                         Maze.set_obstacles]; lia).
  rewrite Ht, Hb, Hl, Hr, Hf, Hn.
  repeat split; try reflexivity.
  apply create_maze_unit.
  - intros o Ho. right. unfold unit_segment in *.
    injection Hgeo as _ _ Hwh Hwl _ _. rewrite Hwh, Hwl. exact Ho.
  - subst self. cbn. constructor; [left; reflexivity | constructor].
Qed.

(** The default maze of the program: grid size 16, hence 72 perimeter
    segments and 73 obstacles. *)
Lemma perimeter_segments_default :
  0 <= 16 /\
  obstacle_count
    (fst (Maze.init [] 16 (1 / 3)%Q 1%Q 1%Q 20%Q (0, 0)%Q
            sample_world)) = 73.
Proof.
  split; [lia|].
  apply (perimeter_segments [] 16 (1 / 3)%Q 1%Q 1%Q 20%Q (0, 0)%Q
           sample_world).
  lia.
Defined.

(** ** Goal and final markers *)

Lemma add_goal_object_eq (self : Maze.t) (coord : Q * Q) (w : World) :
  Maze.add_goal_object self coord w =
  (let o := goal_marker coord w in
   (Maze.append_obstacle o
      (Maze.set_goal_object o
         (Maze.set_config (Maze.config self ++ [frame_of o])%list self)),
    print "Goal object added." (drawn w))).
Proof.
  unfold Maze.add_goal_object, Maze.new_obstacle.
  rewrite Obstacle_init_eq. cbv zeta. rewrite create_object_frame.
  reflexivity.
Qed.

Lemma add_final_object_eq (self : Maze.t) (coord : Q * Q) (w : World) :
  Maze.add_final_object self coord w =
  (let o := final_marker coord w in
   (Maze.append_obstacle o
      (Maze.set_final_object o
         (Maze.set_config (Maze.config self ++ [frame_of o])%list self)),
    print "Final object added." (drawn w))).
Proof.
  unfold Maze.add_final_object, Maze.new_obstacle.
  rewrite Obstacle_init_eq. cbv zeta. rewrite create_object_frame.
  reflexivity.
Qed.

(** C9.  The maze holds one reference to a goal marker and one to a final
    marker.  A second [add_goal_object] makes the reference point at the
    new marker; the first marker stays in the obstacle list and in the
    scene, the new one is appended to both, and the geometry, the custom
    walls, the wall-id counter and the other marker's reference are as
    before.  The same holds for [add_final_object]. *)
Theorem second_marker_keeps_first :
  forall (m : Maze.t) (c1 c2 : Q * Q) (w : World),
    (let (m1, w1) := Maze.add_goal_object m c1 w in
     let (m2, w2) := Maze.add_goal_object m1 c2 w1 in
     let o1 := goal_marker c1 w in
     let o2 := goal_marker c2 w1 in
     Maze.goal_object m1 = Some o1 /\
     Maze.goal_object m2 = Some o2 /\
     Maze.obstacles m2 = (Maze.obstacles m ++ [o1; o2])%list /\
     Maze.config m2 = (Maze.config m ++ [frame_of o1; frame_of o2])%list /\
     geometry m2 = geometry m1 /\
     Maze.custom_walls m2 = Maze.custom_walls m1 /\
     Maze.wall_id_counter m2 = Maze.wall_id_counter m1 /\
     Maze.final_object m2 = Maze.final_object m1) /\
    (let (m1, w1) := Maze.add_final_object m c1 w in
     let (m2, w2) := Maze.add_final_object m1 c2 w1 in
     let o1 := final_marker c1 w in
     let o2 := final_marker c2 w1 in
     Maze.final_object m1 = Some o1 /\
     Maze.final_object m2 = Some o2 /\
     Maze.obstacles m2 = (Maze.obstacles m ++ [o1; o2])%list /\
     Maze.config m2 = (Maze.config m ++ [frame_of o1; frame_of o2])%list /\
     geometry m2 = geometry m1 /\
     Maze.custom_walls m2 = Maze.custom_walls m1 /\
     Maze.wall_id_counter m2 = Maze.wall_id_counter m1 /\
     Maze.goal_object m2 = Maze.goal_object m1).
Proof.
  intros m c1 c2 w. split.
  - rewrite add_goal_object_eq. cbv beta iota zeta.
    rewrite add_goal_object_eq. cbv beta iota zeta. cbn.
    rewrite <- !app_assoc. repeat split; reflexivity.
  - rewrite add_final_object_eq. cbv beta iota zeta.
    rewrite add_final_object_eq. cbv beta iota zeta. cbn.
    rewrite <- !app_assoc. repeat split; reflexivity.
Qed.

(** ** Reconstructing an obstacle *)

Lemma lookup_shape_str (s : string) :
  Obstacle.lookup_shape (JStr s) =
  if String.eqb s "ssBox" then Ok ssBox else Raise (KeyError (JStr s)).
Proof.
  unfold Obstacle.lookup_shape, Obstacle.shape_type_mapping. cbn [dict_get].
  destruct (String.eqb s "ssBox"); reflexivity.
Qed.

Lemma from_dict_unknown (config : Config) (kvs : list (string * json))
    (s : string) (w : World) :
  dict_get "shape_type" kvs = Some (JStr s) ->
  s <> "ssBox" ->
  Obstacle.from_dict config (JDict kvs) w = Raise (KeyError (JStr s)).
Proof.
  intros Hs Hne. unfold Obstacle.from_dict, getitem.
  rewrite Hs. cbn [bind]. rewrite lookup_shape_str.
  apply String.eqb_neq in Hne. rewrite Hne. reflexivity.
Qed.

Lemma from_dict_known (config : Config) (kvs : list (string * json))
    (name : string) (size color position : json) (w : World) :
  dict_get "shape_type" kvs = Some (JStr "ssBox") ->
  dict_get "name" kvs = Some (JStr name) ->
  dict_get "size" kvs = Some size ->
  dict_get "color" kvs = Some color ->
  dict_get "position" kvs = Some position ->
  Obstacle.from_dict config (JDict kvs) w =
  Ok (Obstacle.init config name ssBox size color position w).
Proof.
  intros Hs Hn Hz Hc Hp. unfold Obstacle.from_dict, getitem.
  rewrite Hs, Hn, Hz, Hc, Hp. reflexivity.
Qed.

(** C8.  For a record whose [shape_type] is a string [s]: when [s] is not
    the one key ["ssBox"] of the lookup table, [from_dict] raises the
    table's [KeyError] on [s], whatever else the record holds; when [s] is
    ["ssBox"] and the record has its other four fields, [from_dict] returns
    the obstacle built from them. *)
Theorem from_dict_shape_kind :
  forall (config : Config) (kvs : list (string * json)) (s : string)
         (w : World),
    dict_get "shape_type" kvs = Some (JStr s) ->
    (s <> "ssBox" ->
     Obstacle.from_dict config (JDict kvs) w = Raise (KeyError (JStr s))) /\
    (s = "ssBox" ->
     forall (name : string) (size color position : json),
       dict_get "name" kvs = Some (JStr name) ->
       dict_get "size" kvs = Some size ->
       dict_get "color" kvs = Some color ->
       dict_get "position" kvs = Some position ->
       Obstacle.from_dict config (JDict kvs) w =
       Ok (Obstacle.init config name ssBox size color position w)).
Proof.
  intros config kvs s w Hs. split.
  - apply from_dict_unknown. exact Hs.
  - intros ->. intros. apply from_dict_known; assumption.
Qed.

(** A record with an unknown shape kind, and one with the known kind. *)
Lemma from_dict_shape_kind_witness :
  Obstacle.from_dict []
    (JDict [("name", JStr "floor_1234"); ("shape_type", JStr "unknownPrimitive");
            ("size", floats [1; 1]%Q); ("color", floats [1; 1; 1]%Q);
            ("position", floats [0; 0; 0]%Q)])
    sample_world =
  Raise (KeyError (JStr "unknownPrimitive")).
Proof.
  apply (from_dict_shape_kind [] _ "unknownPrimitive").
  - reflexivity.
  - discriminate.
Defined.

(** ** Random wall placement *)

Lemma add_custom_wall_step (self : Maze.t) (w : World) (name : Z -> string)
    (pos : Maze.t -> Z -> json) (size color : json) (l : list Z)
    (st : Maze.t * World) :
  untouched (fst st) (snd st) = untouched self w ->
  let st' :=
    fold_left
      (fun (st : Maze.t * World) (i : Z) =>
         let (self, w) := st in
         let (self, w) :=
           Maze.add_wall self (name (Maze.wall_id_counter self)) (pos self i)
             size color w in
         (Maze.set_wall_id_counter (Maze.wall_id_counter self + 1) self, w))
      l st in
  untouched (fst st') (snd st') = untouched self w /\
  Maze.wall_id_counter (fst st') =
  Maze.wall_id_counter (fst st) + 2 * Z.of_nat (List.length l).
Proof.
  revert st. induction l as [|i l IH]; intros [s0 w0] H0.
  - cbn. split; [assumption | lia].
  - cbn [fold_left]. rewrite add_wall_eq. cbv beta iota zeta.
    match goal with
    | |- context [fold_left ?f l ?s] => specialize (IH s)
    end.
    cbv zeta in IH. destruct IH as [IH1 IH2]; [exact H0|].
    split; [exact IH1|]. rewrite IH2. cbn [fst List.length].
    cbn [Maze.wall_id_counter Maze.set_wall_id_counter]. lia.
Qed.

(** [add_custom_wall] leaves the geometry, the custom-wall mapping, the
    markers and the output alone, and moves the counter by two for each
    segment: once in [add_wall], once in its own loop. *)
Lemma add_custom_wall_effect (self : Maze.t) (start_coords : Q * Q)
    (direction : string) (length : Z) (w : World) :
  let r := Maze.add_custom_wall self start_coords direction length w in
  untouched (fst r) (snd r) = untouched self w /\
  Maze.wall_id_counter self <= Maze.wall_id_counter (fst r).
Proof.
  unfold Maze.add_custom_wall. destruct start_coords as [x y]. cbv zeta.
  destruct (String.eqb direction "horizontal").
  - destruct (add_custom_wall_step self w
                (fun c => "custom_wall_" ++ str_int c)
                (fun s i => floats [x + inject_Z i * Maze.wall_length s; y;
                                    Maze.wall_height s / 2]%Q)
                (floats [Maze.wall_length self; Maze.wall_length self;
                         Maze.wall_height self; 1 # 10]%Q)
                (floats [25 # 100; 25 # 100; 25 # 100]%Q)
                (range length) (self, w) eq_refl) as [H1 H2].
    split; [exact H1|]. rewrite H2. cbn [fst]. lia.
  - destruct (String.eqb direction "vertical").
    + destruct (add_custom_wall_step self w
                  (fun c => "custom_wall_" ++ str_int c)
                  (fun s i => floats [x; y + inject_Z i * Maze.wall_length s;
                                      Maze.wall_height s / 2]%Q)
                  (floats [Maze.wall_length self; Maze.wall_length self;
                           Maze.wall_height self; 1 # 10]%Q)
                  (floats [25 # 100; 25 # 100; 25 # 100]%Q)
                  (range length) (self, w) eq_refl) as [H1 H2].
      split; [exact H1|]. rewrite H2. cbn [fst]. lia.
    + split; [reflexivity | cbn [fst]; lia].
Qed.

Lemma randint_range (a b : Z) (g : Random) :
  a <= b -> a <= fst (randint a b g) <= b.
Proof.
  intro H. unfold randint, next. cbv beta iota zeta. unfold fst.
  pose proof (Z.mod_pos_bound (raw g (cursor g)) (b - a + 1)). lia.
Qed.

Lemma choice_direction (g : Random) :
  fst (choice "horizontal" ["vertical"] g) = "horizontal" \/
  fst (choice "horizontal" ["vertical"] g) = "vertical".
Proof.
  unfold choice, next. cbv beta iota zeta. unfold fst.
  match goal with
  | |- context [Z.to_nat ?k] => destruct (Z.to_nat k) as [|[|n]]
  end; cbn; auto. destruct n; auto.
Qed.

Lemma propose_world (maze : Maze.t) (w : World) :
  let '(_, _, direction, length, w') := propose maze w in
  (direction = "horizontal" \/ direction = "vertical") /\
  1 <= length <= 3 /\
  stdout w' = stdout w /\ files w' = files w.
Proof.
  unfold propose.
  destruct (uniform _ _ (rand w)) as [x g1].
  destruct (uniform _ _ g1) as [y g2].
  pose proof (choice_direction g2) as Hd.
  destruct (choice _ _ g2) as [d g3].
  pose proof (randint_range 1 3 g3 ltac:(lia)) as Hl.
  destruct (randint 1 3 g3) as [len g4].
  cbn [fst] in *. repeat split; auto; lia.
Qed.

(** An invariant of the placement state holds after the generator when it
    holds for the empty start, survives a rejected proposal (only the
    generator moved), a committed one, and a line of output. *)
Section PlacementInvariant.
Variable P : Placement -> Prop.

Hypothesis rejected :
  forall st x y d len w,
    P st -> propose (maze_of st) (world_of st) = (x, y, d, len, w) ->
    P (mkPlacement (maze_of st) (existing_walls st) w).

Hypothesis committed :
  forall st x y d len w,
    P st -> propose (maze_of st) (world_of st) = (x, y, d, len, w) ->
    check_collision (wall_boundary (maze_of st) x y d len)
      (existing_walls st) = false ->
    let r := Maze.add_custom_wall (maze_of st) (x, y) d len w in
    P (mkPlacement (fst r)
         (existing_walls st ++ [wall_boundary (maze_of st) x y d len])
         (snd r)).

Hypothesis printed :
  forall st line,
    P st ->
    P (mkPlacement (maze_of st) (existing_walls st)
         (print line (world_of st))).

Lemma attempt_invariant (fuel : nat) :
  forall a st, P st -> P (snd (attempt fuel a st)).
Proof.
  induction fuel as [|fuel IH]; intros a st Hst; cbn [attempt].
  - assumption.
  - destruct (a <? max_attempts); [|assumption].
    destruct (propose (maze_of st) (world_of st)) as [[[[x y] d] len] w]
      eqn:E.
    destruct (check_collision _ (existing_walls st)) eqn:Ec; cbn [negb].
    + apply IH. exact (rejected st x y d len w Hst E).
    + pose proof (committed st x y d len w Hst E Ec) as Hc. cbv zeta in Hc.
      destruct (Maze.add_custom_wall (maze_of st) (x, y) d len w).
      exact Hc.
Qed.

Lemma place_wall_invariant (st : Placement) : P st -> P (place_wall st).
Proof.
  intro Hst. unfold place_wall.
  pose proof (attempt_invariant (S (Z.to_nat max_attempts)) 0 st Hst) as H.
  destruct (attempt _ 0 st) as [a st']. cbn [snd] in H.
  destruct (a =? max_attempts); [apply printed|]; assumption.
Qed.

Lemma generate_invariant (maze : Maze.t) (num_walls : Z) (w : World) :
  P (mkPlacement maze [] w) -> P (generate_random_walls maze num_walls w).
Proof.
  intro H0. unfold generate_random_walls. apply printed.
  apply fold_left_invariant; [exact H0|].
  intros st _. apply place_wall_invariant.
Qed.
End PlacementInvariant.

Lemma Forall_ordered_snoc {A : Type} (R : A -> A -> Prop) (l : list A) (b : A) :
  ForallOrdPairs R l -> Forall (fun a => R a b) l ->
  ForallOrdPairs R (l ++ [b]).
Proof.
  induction 1 as [|a l Ha Hl IH]; intro Hb; cbn.
  - constructor; constructor.
  - inversion Hb; subst. constructor.
    + apply Forall_app. split; [assumption | constructor; auto].
    + apply IH. assumption.
Qed.

Lemma accepted_in_turn_pairwise (l : list boundary) :
  accepted_in_turn l -> ForallOrdPairs no_mutual_collision l.
Proof.
  induction 1 as [|l b Hl IH Hb].
  - constructor.
  - apply Forall_ordered_snoc; [assumption|].
    apply check_collision_false_iff in Hb.
    apply Forall_impl with (2 := Hb). intros a Ha.
    split; [rewrite check_collision_sym|]; exact Ha.
Qed.

(** C2.  The footprints [generate_random_walls] has committed when it
    returns were accepted in turn, each one only after [check_collision]
    found it free of every footprint accepted before it; hence no two of
    them collide, in either order of the test.  The function is total, so
    this holds of every run. *)
Theorem committed_walls_do_not_collide :
  forall (maze : Maze.t) (num_walls : Z) (w : World),
    let l := existing_walls (generate_random_walls maze num_walls w) in
    accepted_in_turn l /\ ForallOrdPairs no_mutual_collision l.
Proof.
  intros maze n w l.
  assert (H : accepted_in_turn l).
  { subst l.
    apply (generate_invariant (fun st => accepted_in_turn (existing_walls st)));
      cbn [maze_of existing_walls world_of fst snd]; auto.
    - intros st x y d len w' Hst _ Hc. constructor; assumption.
    - constructor. }
  split; [exact H | apply accepted_in_turn_pairwise; exact H].
Qed.

Lemma geometry_footprint (m m' : Maze.t) (b : boundary) :
  geometry m = geometry m' ->
  footprint_of_proposal m b -> footprint_of_proposal m' b.
Proof.
  intros Hg (x & y & len & Hlen & H). exists x, y, len.
  unfold horizontal_footprint, vertical_footprint in *.
  injection Hg as _ _ Hwh Hwl _ _. rewrite <- Hwh, <- Hwl. auto.
Qed.

Lemma untouched_geometry (m m' : Maze.t) (w w' : World) :
  untouched m w = untouched m' w' -> geometry m = geometry m'.
Proof.
  intro H. exact (f_equal (fun t => fst (fst (fst (fst (fst t))))) H).
Qed.

(** C6.  The footprint a proposal is tested with is
    [(x, y, x + length * wall_length, y + wall_height)] when the direction
    drawn is horizontal and
    [(x, y, x + wall_length, y + length * wall_length)] when it is vertical,
    and no other direction is drawn: the cross dimension of a horizontal
    footprint is [wall_height].  Every footprint the generator records has
    one of the two forms, for the maze it was given. *)
Theorem candidate_footprint :
  forall (maze : Maze.t) (num_walls : Z) (w : World),
    (let '(x, y, direction, length, _) := propose maze w in
     (direction = "horizontal" /\
      wall_boundary maze x y direction length =
      horizontal_footprint maze x y length) \/
     (direction = "vertical" /\
      wall_boundary maze x y direction length =
      vertical_footprint maze x y length)) /\
    Forall (footprint_of_proposal maze)
      (existing_walls (generate_random_walls maze num_walls w)).
Proof.
  intros maze n w. split.
  - pose proof (propose_world maze w) as H.
    destruct (propose maze w) as [[[[x y] d] len] w'].
    destruct H as [[-> | ->] _]; [left | right]; split; reflexivity.
  - apply (generate_invariant
             (fun st => geometry (maze_of st) = geometry maze /\
                        Forall (footprint_of_proposal maze)
                          (existing_walls st)));
      cbn [maze_of existing_walls world_of fst snd]; auto.
    intros st x y d len w' [Hg Hf] E Hc.
    pose proof (propose_world (maze_of st) (world_of st)) as H.
    rewrite E in H. destruct H as (Hd & Hlen & _).
    destruct (add_custom_wall_effect (maze_of st) (x, y) d len w') as [Hu _].
    apply untouched_geometry in Hu. split; [congruence|].
    apply Forall_app. split; [assumption|]. constructor; [|constructor].
    apply (geometry_footprint (maze_of st)); [assumption|].
    exists x, y, len. split; [assumption|].
    destruct Hd as [-> | ->]; [left | right]; reflexivity.
Qed.

(** With walls of length 1 and height 2, a horizontal wall of three cells
    at the origin is tested with the footprint [(0, 0, 3, 2)]. *)
Example horizontal_footprint_uses_wall_height :
  wall_boundary (Maze.mk [] [] 4 (1 / 3) 2 1 4 (0, 0) [] 1 None None)%Q
    0 0 "horizontal" 3 = (0, 0, 3, 2)%Q.
Proof. reflexivity. Qed.

(** Within its first hundred rounds the [while] loop ends by itself, by a
    [break] or by its condition: more fuel changes nothing. *)
Lemma attempt_fuel (fuel : nat) :
  forall a st,
    (Z.to_nat (max_attempts - a) < fuel)%nat ->
    attempt (S fuel) a st = attempt fuel a st.
Proof.
  induction fuel as [|fuel IH]; intros a st Hf; [lia|].
  cbn [attempt]. destruct (a <? max_attempts) eqn:Ea; [|reflexivity].
  apply Z.ltb_lt in Ea.
  destruct (propose (maze_of st) (world_of st)) as [[[[x y] d] len] w].
  destruct (negb _); [reflexivity|].
  apply (IH (a + 1)). unfold max_attempts in *. lia.
Qed.

Lemma attempt_outcome (fuel : nat) :
  forall a st,
    0 <= a <= max_attempts ->
    (Z.to_nat (max_attempts - a) < fuel)%nat ->
    let r := attempt fuel a st in
    a <= fst r <= max_attempts /\
    stdout (world_of (snd r)) = stdout (world_of st) /\
    ((fst r < max_attempts /\ placed (snd r) = placed st + 1) \/
     (fst r = max_attempts /\ placed (snd r) = placed st)).
Proof.
  induction fuel as [|fuel IH]; intros a st Ha Hf; [lia|].
  cbn [attempt]. destruct (a <? max_attempts) eqn:Ea.
  - apply Z.ltb_lt in Ea.
    pose proof (propose_world (maze_of st) (world_of st)) as Hp.
    destruct (propose (maze_of st) (world_of st)) as [[[[x y] d] len] w].
    destruct Hp as (_ & _ & Hout & _).
    destruct (check_collision _ (existing_walls st)); cbn [negb].
    + specialize (IH (a + 1) (mkPlacement (maze_of st) (existing_walls st) w)).
      cbv zeta in IH. destruct IH as (H1 & H2 & H3).
      * lia.
      * unfold max_attempts in *. lia.
      * unfold placed in *. cbn [existing_walls world_of] in *.
        split; [lia|]. split; [congruence | exact H3].
    + destruct (add_custom_wall_effect (maze_of st) (x, y) d len w) as [Hu _].
      destruct (Maze.add_custom_wall (maze_of st) (x, y) d len w) as [m' w'].
      cbn [fst snd world_of existing_walls] in *.
      split; [lia|]. split.
      * apply (f_equal (fun t => snd (fst t))) in Hu. cbn in Hu. congruence.
      * left. split; [lia|]. unfold placed. cbn [existing_walls].
        rewrite length_app. cbn [List.length]. lia.
  - apply Z.ltb_ge in Ea. cbn [fst snd].
    split; [lia|]. split; [reflexivity|]. right. split; [lia | reflexivity].
Qed.

Lemma place_wall_outcome (st : Placement) :
  let st' := place_wall st in
  (placed st' = placed st + 1 /\
   stdout (world_of st') = stdout (world_of st)) \/
  (placed st' = placed st /\
   stdout (world_of st') = (stdout (world_of st) ++ [failure_message])%list).
Proof.
  unfold place_wall.
  pose proof (attempt_outcome (S (Z.to_nat max_attempts)) 0 st) as H.
  cbv zeta in H. destruct H as (Ha & Hout & H).
  - unfold max_attempts. lia.
  - unfold max_attempts. lia.
  - destruct (attempt (S (Z.to_nat max_attempts)) 0 st) as [a st'].
    cbn [fst snd] in *. destruct H as [[Hlt Hp] | [-> Hp]].
    + replace (a =? max_attempts) with false by (symmetry; apply Z.eqb_neq; lia).
      left. split; assumption.
    + rewrite Z.eqb_refl. right. unfold placed in *.
      cbn [existing_walls world_of print stdout]. rewrite Hout.
      split; [assumption | reflexivity].
Qed.

Lemma place_walls_outcome (l : list Z) :
  forall st,
    let st' := fold_left (fun st (_ : Z) => place_wall st) l st in
    exists k : nat,
      placed st' + Z.of_nat k = placed st + Z.of_nat (List.length l) /\
      stdout (world_of st') =
      (stdout (world_of st) ++ repeat failure_message k)%list.
Proof.
  induction l as [|i l IH]; intro st; cbn [fold_left].
  - exists 0%nat. cbn. rewrite app_nil_r. split; [lia | reflexivity].
  - destruct (IH (place_wall st)) as (k & Hk & Hout).
    destruct (place_wall_outcome st) as [[Hp Ho] | [Hp Ho]].
    + exists k. rewrite Hout, Ho. cbn [List.length]. split; [lia | reflexivity].
    + exists (S k). rewrite Hout, Ho, <- app_assoc. cbn [List.length].
      split; [lia | reflexivity].
Qed.

(** C4.  [generate_random_walls] is a total function and raises nothing.
    For one wall, the [while] loop ends within its hundred rounds by itself
    and leaves [attempts] between 0 and 100.  Over the whole run each of the
    [N] rounds either commits one wall or prints the failure line and goes
    on: the output gains [k] failure lines and the closing line, and the
    walls placed and [k] add up to [N], so at most [N] walls are placed. *)
Theorem generation_is_best_effort :
  forall (maze : Maze.t) (N : Z) (w : World),
    0 <= N ->
    (forall (st : Placement) (fuel : nat),
       (Z.to_nat max_attempts < fuel)%nat ->
       attempt fuel 0 st = attempt (S (Z.to_nat max_attempts)) 0 st /\
       0 <= fst (attempt fuel 0 st) <= max_attempts) /\
    let p := generate_random_walls maze N w in
    0 <= placed p <= N /\
    exists k : nat,
      placed p + Z.of_nat k = N /\
      stdout (world_of p) =
      (stdout w ++ repeat failure_message k ++ [closing_message N])%list.
Proof.
  intros maze N w HN. split.
  - intros st fuel Hf.
    assert (E : attempt fuel 0 st = attempt (S (Z.to_nat max_attempts)) 0 st).
    { induction fuel as [|fuel IH]; [lia|].
      destruct (Nat.eq_dec fuel (Z.to_nat max_attempts)) as [-> | Hne];
        [reflexivity|].
      rewrite attempt_fuel by (unfold max_attempts in *; lia).
      apply IH. lia. }
    split; [exact E|]. rewrite E.
    pose proof (attempt_outcome (S (Z.to_nat max_attempts)) 0 st) as H.
    cbv zeta in H. destruct H as (Ha & _).
    + unfold max_attempts. lia.
    + unfold max_attempts. lia.
    + exact Ha.
  - intro p. subst p. unfold generate_random_walls.
    destruct (place_walls_outcome (range N) (mkPlacement maze [] w))
      as (k & Hk & Hout).
    cbv zeta in Hk, Hout. rewrite range_length in Hk.
    unfold placed in *. cbn [existing_walls world_of List.length] in *.
    split; [lia|]. exists k. split; [lia|].
    cbn [print stdout]. rewrite Hout, <- app_assoc. reflexivity.
Qed.

(** Ten walls asked of the default maze. *)
Lemma generation_is_best_effort_witness :
  0 <= placed
         (generate_random_walls (fst (Maze.init_default [] sample_world)) 10
            (snd (Maze.init_default [] sample_world)))
    <= 10.
Proof.
  apply (generation_is_best_effort (fst (Maze.init_default [] sample_world)) 10
           (snd (Maze.init_default [] sample_world))).
  lia.
Defined.

Lemma attempt_unfold (fuel : nat) (a : Z) (st : Placement) :
  attempt (S fuel) a st =
  if a <? max_attempts then
    let maze := maze_of st in
    let '(x, y, direction, length, w) := propose maze (world_of st) in
    let b := wall_boundary maze x y direction length in
    if negb (check_collision b (existing_walls st)) then
      let (maze, w) := Maze.add_custom_wall maze (x, y) direction length w in
      (a, mkPlacement maze (existing_walls st ++ [b])%list w)
    else attempt fuel (a + 1) (mkPlacement maze (existing_walls st) w)
  else (a, st).
Proof. reflexivity. Qed.

(** With no footprint recorded yet nothing can collide: the first proposal
    of a run is committed, whatever the size of the maze. *)
Lemma place_wall_first (maze : Maze.t) (w : World) :
  placed (place_wall (mkPlacement maze [] w)) = 1.
Proof.
  unfold place_wall. rewrite attempt_unfold.
  change (0 <? max_attempts) with true. cbv beta iota zeta.
  cbn [maze_of existing_walls world_of].
  destruct (propose maze w) as [[[[x y] d] len] w1].
  destruct (wall_boundary maze x y d len) as [[[x1 y1] x2] y2] eqn:Eb.
  cbn [check_collision negb].
  destruct (Maze.add_custom_wall maze (x, y) d len w1) as [m1 w2].
  change (0 =? max_attempts) with false. reflexivity.
Qed.

(** A run that is asked for at least one wall places at least one. *)
Remark first_wall_is_placed (maze : Maze.t) (N : Z) (w : World) :
  1 <= N -> 1 <= placed (generate_random_walls maze N w).
Proof.
  intro HN. unfold generate_random_walls, range.
  destruct (Z.to_nat N) as [|n] eqn:En; [lia|].
  cbn [seq map fold_left]. unfold placed at 1. cbn [existing_walls].
  fold (placed (fold_left (fun st (_ : Z) => place_wall st)
                  (map Z.of_nat (seq 1 n))
                  (place_wall (mkPlacement maze [] w)))).
  destruct (place_walls_outcome (map Z.of_nat (seq 1 n))
              (place_wall (mkPlacement maze [] w))) as (k & Hk & _).
  cbv zeta in Hk. rewrite place_wall_first in Hk.
  assert (Hmono : forall l st,
             placed st <=
             placed (fold_left (fun st (_ : Z) => place_wall st) l st)).
  { induction l as [|i l IH]; intro st; cbn [fold_left]; [lia|].
    specialize (IH (place_wall st)).
    destruct (place_wall_outcome st) as [[Hp _] | [Hp _]]; lia. }
  specialize (Hmono (map Z.of_nat (seq 1 n))
                (place_wall (mkPlacement maze [] w))).
  rewrite place_wall_first in Hmono. exact Hmono.
Qed.

(** ** Loading a maze *)

Lemma from_dict_record (config : Config) (r : json) (w : World) :
  obstacle_record r ->
  exists o,
    Obstacle.from_dict config r w = Ok (o, (config ++ [frame_of o])%list, drawn w)
    /\ reloaded_from r o.
Proof.
  intros (kvs & name & size & color & position & -> & Hs & Hn & Hz & Hc & Hp).
  rewrite (from_dict_known config kvs name size color position w Hs Hn Hz Hc Hp).
  rewrite Obstacle_init_eq. cbv zeta. rewrite create_object_frame.
  eexists. split; [reflexivity|].
  exists name, (unique_id w). unfold getitem. rewrite Hn, Hz, Hc, Hp.
  repeat split; try reflexivity; apply unique_id_range.
Qed.

Lemma load_obstacles_ok (l : list json) :
  forall self w,
    Forall obstacle_record l ->
    exists loaded m' w',
      Maze.load_obstacles l self w = (Ok tt, m', w') /\
      Maze.obstacles m' = (Maze.obstacles self ++ loaded)%list /\
      Forall2 reloaded_from l loaded /\
      kept m' w' = kept self w /\
      Maze.custom_walls m' = Maze.custom_walls self.
Proof.
  induction l as [|r l IH]; intros self w Hl.
  - exists [], self, w. cbn. rewrite app_nil_r. repeat split. constructor.
  - inversion Hl as [|? ? Hr Hl']; subst. cbn [Maze.load_obstacles].
    destruct (from_dict_record (Maze.config self) r w Hr) as (o & -> & Ho).
    destruct (IH (Maze.append_obstacle o
                    (Maze.set_config (Maze.config self ++ [frame_of o])%list
                       self)) (drawn w) Hl')
      as (loaded & m' & w' & E & Hobs & Hrel & Hk & Hcw).
    exists (o :: loaded), m', w'. rewrite E, Hobs, Hk, Hcw.
    cbn. rewrite <- app_assoc. repeat split. constructor; assumption.
Qed.

Lemma load_custom_walls_ok (l : list json) :
  forall self w,
    Forall obstacle_record l ->
    exists m' w',
      Maze.load_custom_walls l self w = (Ok tt, m', w') /\
      Maze.obstacles m' = Maze.obstacles self /\
      kept m' w' = kept self w.
Proof.
  induction l as [|r l IH]; intros self w Hl.
  - exists self, w. repeat split.
  - inversion Hl as [|? ? Hr Hl']; subst. cbn [Maze.load_custom_walls].
    destruct (from_dict_record (Maze.config self) r w Hr) as (o & -> & Ho).
    match goal with
    | |- context [Maze.load_custom_walls l ?s ?w0] =>
        destruct (IH s w0 Hl') as (m' & w' & E & Hobs & Hk)
    end.
    exists m', w'. rewrite E, Hobs, Hk. repeat split.
Qed.

Lemma kept_fields (m m' : Maze.t) (w w' : World) :
  kept m w = kept m' w' ->
  geometry m = geometry m' /\ Maze.wall_id_counter m = Maze.wall_id_counter m'.
Proof.
  intro H. split.
  - exact (f_equal (fun t => fst (fst (fst (fst (fst t))))) H).
  - exact (f_equal (fun t => snd (fst (fst (fst (fst t))))) H).
Qed.

Lemma load_contents_ok (kvs : list (string * json)) (path : string)
    (self : Maze.t) (w : World) (obs : list json) :
  dict_get "obstacles" kvs = Some (JList obs) ->
  Forall obstacle_record obs ->
  match dict_get "custom_walls" kvs with
  | None => True
  | Some v => exists cw, v = JList cw /\ Forall obstacle_record cw
  end ->
  exists loaded m' w',
    Maze.load_contents (JDict kvs) path self w = (Ok tt, m', w') /\
    Maze.obstacles m' = loaded /\
    Forall2 reloaded_from obs loaded /\
    geometry m' = geometry self /\
    Maze.wall_id_counter m' = Maze.wall_id_counter self /\
    (dict_get "custom_walls" kvs = None -> Maze.custom_walls m' = []).
Proof.
  intros Hobs Hrec Hcw. unfold Maze.load_contents, getitem. rewrite Hobs.
  cbn [bind as_list]. cbv zeta.
  match goal with
  | |- context [Maze.load_obstacles obs ?s w] =>
      destruct (load_obstacles_ok obs s w Hrec)
        as (loaded & m1 & w1 & -> & Hl & Hrel & Hk & _)
  end.
  cbn [Maze.obstacles Maze.set_obstacles app] in Hl.
  unfold dict_has. destruct (dict_get "custom_walls" kvs) as [v|].
  - destruct Hcw as (cw & -> & Hcw). cbn [bind as_list].
    match goal with
    | |- context [Maze.load_custom_walls cw ?s w1] =>
        destruct (load_custom_walls_ok cw s w1 Hcw)
          as (m2 & w2 & -> & Hl2 & Hk2)
    end.
    exists loaded, m2, (print ("Maze loaded from " ++ path) w2).
    apply kept_fields in Hk, Hk2. destruct Hk as [Hg Hc], Hk2 as [Hg2 Hc2].
    cbn [Maze.obstacles Maze.set_custom_walls] in Hl2.
    repeat split; try congruence.
    + rewrite Hg2. exact Hg.
    + rewrite Hc2. exact Hc.
  - exists loaded, (Maze.set_custom_walls [] m1),
      (print ("Maze loaded from " ++ path) w1).
    apply kept_fields in Hk. destruct Hk as [Hg Hc].
    repeat split; try congruence; [exact Hl | exact Hg | exact Hc].
Qed.

Lemma load_maze_scalars (self : Maze.t) (path : string) (w : World)
    (doc : json) (sc : Z * Q * Q * Q * Q * (Q * Q) * Z) :
  dict_get path (files w) = Some doc ->
  read_scalars doc = Ok sc ->
  Maze.load_maze self path w = Maze.load_contents doc path (restored self sc) w.
Proof.
  intros Hfile Hsc. unfold Maze.load_maze. rewrite Hfile.
  unfold read_scalars in Hsc. unfold Maze.assign.
  repeat match type of Hsc with
         | bind ?r _ = Ok _ =>
             let E := fresh "E" in
             destruct r eqn:E; cbn [bind] in Hsc; [|discriminate Hsc]
         end.
  injection Hsc as <-. reflexivity.
Qed.

Lemma load_maze_ok (self : Maze.t) (path : string) (w : World)
    (kvs : list (string * json)) (obs : list json)
    (sc : Z * Q * Q * Q * Q * (Q * Q) * Z) :
  dict_get path (files w) = Some (JDict kvs) ->
  read_scalars (JDict kvs) = Ok sc ->
  dict_get "obstacles" kvs = Some (JList obs) ->
  Forall obstacle_record obs ->
  match dict_get "custom_walls" kvs with
  | None => True
  | Some v => exists cw, v = JList cw /\ Forall obstacle_record cw
  end ->
  exists loaded m' w',
    Maze.load_maze self path w = (Ok tt, m', w') /\
    Maze.obstacles m' = loaded /\
    Forall2 reloaded_from obs loaded /\
    (geometry m', Maze.wall_id_counter m') = sc /\
    (dict_get "custom_walls" kvs = None -> Maze.custom_walls m' = []).
Proof.
  intros Hfile Hsc Hobs Hrec Hcw.
  rewrite (load_maze_scalars self path w (JDict kvs) sc Hfile Hsc).
  destruct (load_contents_ok kvs path (restored self sc) w obs Hobs Hrec Hcw)
    as (loaded & m' & w' & -> & H1 & H2 & H3 & H4 & H5).
  exists loaded, m', w'. repeat split; try assumption.
  rewrite H3, H4. destruct sc as [[[[[[? ?] ?] ?] ?] ?] ?]. reflexivity.
Qed.

(** C10.  A document in which the seven scalar fields read well and the
    key [custom_walls] is missing: when [obstacles] is a list of obstacle
    records, [load_maze] returns normally and the maze's custom-wall mapping
    is empty, whatever it held before; when [obstacles] is missing as well,
    [load_maze] raises [KeyError] on that key. *)
Theorem load_without_custom_walls :
  forall (self : Maze.t) (path : string) (w : World)
         (kvs : list (string * json)) (sc : Z * Q * Q * Q * Q * (Q * Q) * Z),
    dict_get path (files w) = Some (JDict kvs) ->
    read_scalars (JDict kvs) = Ok sc ->
    dict_get "custom_walls" kvs = None ->
    (forall obs,
       dict_get "obstacles" kvs = Some (JList obs) ->
       Forall obstacle_record obs ->
       exists m' w',
         Maze.load_maze self path w = (Ok tt, m', w') /\
         Maze.custom_walls m' = []) /\
    (dict_get "obstacles" kvs = None ->
     exists m' w',
       Maze.load_maze self path w =
       (Raise (KeyError (JStr "obstacles")), m', w')).
Proof.
  intros self path w kvs sc Hfile Hsc Hcw. split.
  - intros obs Hobs Hrec.
    destruct (load_maze_ok self path w kvs obs sc Hfile Hsc Hobs Hrec)
      as (loaded & m' & w' & E & _ & _ & _ & H).
    + rewrite Hcw. exact I.
    + exists m', w'. split; [exact E | exact (H Hcw)].
  - intro Hobs.
    rewrite (load_maze_scalars self path w (JDict kvs) sc Hfile Hsc).
    unfold Maze.load_contents, getitem. rewrite Hobs. cbn [bind].
    eexists. eexists. reflexivity.
Qed.

(** A document with the scalar fields and one obstacle, without the key
    [custom_walls], loaded into a maze that held a custom wall. *)
Lemma load_without_custom_walls_witness :
  exists m' w',
    Maze.load_maze stale_maze "maze_1.json" world_with_document =
    (Ok tt, m', w') /\
    Maze.custom_walls m' = [].
Proof.
  refine (proj1 (load_without_custom_walls stale_maze "maze_1.json"
                   world_with_document document_without_custom_walls
                   (4, (1 # 3)%Q, 1%Q, 1%Q, 4%Q, (0, 0)%Q, 25)
                   eq_refl eq_refl eq_refl) _ eq_refl _).
  constructor; [|constructor].
  unfold obstacle_record. do 5 eexists. repeat split; reflexivity.
Defined.

(** ** Saving, then loading *)

Lemma dict_get_set_same {A : Type} (k : string) (v : A) (d : list (string * A)) :
  dict_get k (dict_set k v d) = Some v.
Proof.
  induction d as [|[k' v'] d IH]; cbn [dict_set].
  - cbn [dict_get]. rewrite String.eqb_refl. reflexivity.
  - destruct (String.eqb k k') eqn:E; cbn [dict_get].
    + rewrite String.eqb_refl. reflexivity.
    + rewrite E. exact IH.
Qed.

Lemma to_dict_record (o : Obstacle.t) :
  Obstacle.shape_type o = ssBox -> obstacle_record (Obstacle.to_dict o).
Proof.
  intro H. unfold Obstacle.to_dict. rewrite H.
  exists [("name", JStr (Obstacle.name o)); ("shape_type", JStr "ssBox");
          ("size", Obstacle.size o); ("color", Obstacle.color o);
          ("position", Obstacle.position o)],
    (Obstacle.name o), (Obstacle.size o), (Obstacle.color o),
    (Obstacle.position o).
  repeat split; reflexivity.
Qed.

Lemma reloaded_from_to_dict (o o' : Obstacle.t) :
  Obstacle.shape_type o = ssBox ->
  reloaded_from (Obstacle.to_dict o) o' -> renamed_copy o o'.
Proof.
  intros Hs (name & uid & Hu & Hn & Hn' & Hs' & Hz & Hc & Hp).
  cbn in Hn, Hz, Hc, Hp. injection Hn as <-. injection Hz as Hz.
  injection Hc as Hc. injection Hp as Hp.
  unfold renamed_copy. repeat split; try congruence.
  exists uid. split; assumption.
Qed.

Lemma to_dict_records (l : list Obstacle.t) :
  Forall (fun o => Obstacle.shape_type o = ssBox) l ->
  Forall obstacle_record (map Obstacle.to_dict l).
Proof.
  induction 1; cbn; constructor; auto using to_dict_record.
Qed.

Lemma reloaded_copies (l : list Obstacle.t) :
  forall loaded,
    Forall (fun o => Obstacle.shape_type o = ssBox) l ->
    Forall2 reloaded_from (map Obstacle.to_dict l) loaded ->
    Forall2 renamed_copy l loaded.
Proof.
  induction l as [|o l IH]; intros loaded Hs H; cbn in H;
    inversion H; subst; constructor; inversion Hs; subst.
  - apply reloaded_from_to_dict; assumption.
  - apply IH; assumption.
Qed.

(** Saving a maze and loading the file gives back the geometry, the counter
    and, one for one, the obstacles, each under a longer name. *)
Lemma save_then_load (m self : Maze.t) (path : string)
    (robot : option Robot.t) (w : World) :
  all_ssBox m ->
  exists loaded m' w',
    Maze.load_maze self path (Maze.save_maze m path robot w) = (Ok tt, m', w')
    /\ Maze.obstacles m' = loaded
    /\ Forall2 renamed_copy (Maze.obstacles m) loaded
    /\ geometry m' = geometry m
    /\ Maze.wall_id_counter m' = Maze.wall_id_counter m.
Proof.
  intros [Hobs Hcw]. unfold Maze.save_maze. cbv zeta.
  match goal with
  | |- context [write_file path (JDict ?d) w] => set (kvs := d)
  end.
  destruct (load_maze_ok self path
              (print ("Maze saved to " ++ path) (write_file path (JDict kvs) w))
              kvs (map Obstacle.to_dict (Maze.obstacles m))
              (geometry m, Maze.wall_id_counter m))
    as (loaded & m' & w' & E & Hl & Hrel & Hsc & _).
  - cbn [print write_file files]. apply dict_get_set_same.
  - subst kvs. unfold geometry.
    destruct (Maze.center_position m), robot; reflexivity.
  - subst kvs. destruct robot; reflexivity.
  - apply to_dict_records. exact Hobs.
  - subst kvs. destruct robot; cbn [dict_get dict_set String.eqb Ascii.eqb
                                      Bool.eqb];
      (eexists; split; [reflexivity | apply to_dict_records; exact Hcw]).
  - exists loaded, m', w'.
    pose proof (f_equal fst Hsc) as Hg. pose proof (f_equal snd Hsc) as Hc.
    cbn [fst snd] in Hg, Hc. repeat split; try assumption.
    apply reloaded_copies; assumption.
Qed.

Lemma string_length_append (s t : string) :
  String.length (s ++ t) = (String.length s + String.length t)%nat.
Proof. induction s as [|a s IH]; cbn; [reflexivity | now rewrite IH]. Qed.

(** Every obstacle comes back under another name. *)
Lemma renamed_copy_name (o o' : Obstacle.t) :
  renamed_copy o o' -> Obstacle.name o' <> Obstacle.name o.
Proof.
  intros (_ & _ & _ & _ & uid & _ & Hn) E. rewrite Hn in E.
  apply (f_equal String.length) in E.
  rewrite !string_length_append in E. cbn [String.length] in E. lia.
Qed.

(** C1 on a concrete maze.  The maze of grid size 1 with one custom wall is
    saved and loaded: the load succeeds and gives back as many obstacles,
    and each has a second id after its saved name. *)
Theorem save_load_changes_names :
  let (m, w) := small_maze in
  let '(r, m', _) :=
    Maze.load_maze m "maze_1.json" (Maze.save_maze m "maze_1.json" None w) in
  r = Ok tt /\
  List.length (Maze.obstacles m') = List.length (Maze.obstacles m) /\
  map Obstacle.name (firstn 2 (Maze.obstacles m)) =
    ["floor_1013"; "top_wall_0_8932"] /\
  map Obstacle.name (firstn 2 (Maze.obstacles m')) =
    ["floor_1013_3879"; "top_wall_0_8932_2798"].
Proof. vm_compute. repeat split; reflexivity. Qed.

(** ** The wall-id counter and the names *)

Lemma parse_str_int (K : Z) : parse_int (str_int K) = Some K.
Proof.
  unfold parse_int, str_int.
  destruct (Z.to_int K) as [d | d] eqn:E.
  - destruct d as [| | | | | | | | | |];
      try (rewrite NilZero.isi by discriminate; cbn [option_map];
           rewrite <- E, DecimalZ.of_to; reflexivity).
    rewrite NilZero.isi_posnil. cbn [option_map].
    rewrite <- (DecimalZ.of_to K), E. reflexivity.
  - destruct d as [| | | | | | | | | |];
      try (rewrite NilZero.isi by discriminate; cbn [option_map];
           rewrite <- E, DecimalZ.of_to; reflexivity).
    rewrite NilZero.isi_negnil. cbn [option_map].
    rewrite <- (DecimalZ.of_to K), E. reflexivity.
Qed.

(** A decimal numeral holds no underscore. *)
Lemma before_first_uint (d : Decimal.uint) (tail : string) :
  before_first "_" (NilEmpty.string_of_uint d ++ String "_" tail) =
  NilEmpty.string_of_uint d.
Proof.
  induction d; cbn; rewrite ?IHd; reflexivity.
Qed.

Lemma before_first_str_int (K : Z) (tail : string) :
  before_first "_" (str_int K ++ "_" ++ tail) = str_int K.
Proof.
  unfold str_int, NilZero.string_of_int, NilZero.string_of_uint.
  change ("_" ++ tail) with (String "_" tail).
  destruct (Z.to_int K) as [d | d]; destruct d;
    try apply before_first_uint; try reflexivity;
    cbn [String.append before_first Ascii.eqb Bool.eqb];
    try (f_equal; apply before_first_uint).
Qed.

Lemma custom_wall_id_named (K : Z) (tail : string) :
  custom_wall_id ("custom_wall_" ++ str_int K ++ "_" ++ tail) = Some K.
Proof.
  unfold custom_wall_id.
  change (drop_prefix "custom_wall_"
            ("custom_wall_" ++ str_int K ++ "_" ++ tail))
    with (Some (str_int K ++ "_" ++ tail)).
  cbv beta iota. rewrite before_first_str_int. apply parse_str_int.
Qed.

Lemma custom_wall_id_other (a : ascii) (s : string) :
  a <> "c"%char -> custom_wall_id (String a s) = None.
Proof.
  intro H. unfold custom_wall_id. cbn [drop_prefix].
  destruct (Ascii.eqb_spec "c" a) as [E | _]; [congruence | reflexivity].
Qed.

Lemma named_below_id (c : Z) (o : Obstacle.t) :
  named_below c o ->
  forall k, custom_wall_id (Obstacle.name o) = Some k -> k < c.
Proof.
  intros [(a & s & -> & Ha) | (K & tail & -> & HK)] k Hk.
  - rewrite custom_wall_id_other in Hk by assumption. discriminate.
  - rewrite custom_wall_id_named in Hk. injection Hk as <-. exact HK.
Qed.

Lemma named_below_mono (c c' : Z) (o : Obstacle.t) :
  c <= c' -> named_below c o -> named_below c' o.
Proof.
  intros Hc [H | (K & tail & Hn & HK)]; [left; exact H | right].
  exists K, tail. split; [exact Hn | lia].
Qed.

Lemma string_append_assoc (s t u : string) : (s ++ t) ++ u = s ++ t ++ u.
Proof. induction s as [|a s IH]; cbn; [reflexivity | now rewrite IH]. Qed.

Lemma named_below_suffix (c : Z) (o o' : Obstacle.t) (x : string) :
  Obstacle.name o' = Obstacle.name o ++ x ->
  named_below c o -> named_below c o'.
Proof.
  intros Hn [(a & s & E & Ha) | (K & tail & E & HK)]; rewrite E in Hn.
  - left. exists a, (s ++ x). split; [exact Hn | exact Ha].
  - right. exists K, (tail ++ x). split; [|exact HK].
    rewrite Hn, !string_append_assoc. reflexivity.
Qed.

Lemma well_named_counter (m : Maze.t) (c : Z) :
  Maze.wall_id_counter m <= c ->
  well_named m -> well_named (Maze.set_wall_id_counter c m).
Proof.
  intros Hc [Hs Hn]. split; [exact Hs|].
  cbn [Maze.obstacles Maze.wall_id_counter Maze.set_wall_id_counter].
  apply Forall_impl with (2 := Hn). intro o. apply named_below_mono. exact Hc.
Qed.

Lemma well_named_add (m : Maze.t) (o : Obstacle.t) (cfg : Config) (c : Z) :
  Obstacle.shape_type o = ssBox ->
  Maze.wall_id_counter m <= c ->
  named_below c o ->
  well_named m ->
  well_named
    (Maze.set_wall_id_counter c
       (Maze.append_obstacle o (Maze.set_config cfg m))).
Proof.
  intros Hs Hc Ho [[H1 H2] Hn]. repeat split.
  - cbn. apply Forall_app. split; [exact H1 | constructor; auto].
  - exact H2.
  - cbn. apply Forall_app. split; [|constructor; auto].
    apply Forall_impl with (2 := Hn). intro o'. apply named_below_mono.
    exact Hc.
Qed.

(** [add_wall] under a name that is not a custom wall's. *)
Lemma add_wall_well_named (self : Maze.t) (a : ascii) (s : string)
    (position size color : json) (w : World) :
  a <> "c"%char ->
  well_named self ->
  well_named (fst (Maze.add_wall self (String a s) position size color w)).
Proof.
  intros Ha H. rewrite add_wall_eq. cbv zeta. cbn [fst].
  apply well_named_add; [reflexivity | lia | | exact H].
  left. exists a, (s ++ "_" ++ str_int (unique_id w)).
  split; [reflexivity | exact Ha].
Qed.

(** One round of the loop of [add_custom_wall]: the wall is named after the
    counter, and the counter moves past it. *)
Lemma custom_wall_round (self : Maze.t) (position size color : json)
    (w : World) :
  well_named self ->
  well_named
    (fst (let (self', w') :=
            Maze.add_wall self
              ("custom_wall_" ++ str_int (Maze.wall_id_counter self))
              position size color w in
          (Maze.set_wall_id_counter (Maze.wall_id_counter self' + 1) self',
           w'))).
Proof.
  intro H. rewrite add_wall_eq. cbv zeta. cbn [fst].
  apply well_named_counter; [cbn; lia|].
  apply well_named_add; [reflexivity | lia | | exact H].
  right. exists (Maze.wall_id_counter self), (str_int (unique_id w)).
  split; [reflexivity | lia].
Qed.

Lemma add_custom_wall_well_named (self : Maze.t) (start : Q * Q)
    (direction : string) (length : Z) (w : World) :
  well_named self ->
  well_named (fst (Maze.add_custom_wall self start direction length w)).
Proof.
  intro H. unfold Maze.add_custom_wall. destruct start as [x y]. cbv zeta.
  destruct (String.eqb direction "horizontal");
    [|destruct (String.eqb direction "vertical"); [|exact H]].
  all: apply (fold_left_invariant (fun st => well_named (fst st)));
    [exact H|]; intros [s0 w0] i Hs; apply custom_wall_round; exact Hs.
Qed.

Lemma create_maze_well_named (self : Maze.t) (w : World) :
  well_named self -> well_named (fst (Maze.create_maze self w)).
Proof.
  intro H. unfold Maze.create_maze. cbv zeta.
  apply (fold_left_invariant (fun st => well_named (fst st)));
    [apply (fold_left_invariant (fun st => well_named (fst st)));
       [exact H|] |].
  all: intros [s0 w0] i Hs; cbv beta iota zeta;
    match goal with
    | |- context [let (_, _) := Maze.add_wall ?s ?n ?p ?sz ?c ?w in _] =>
        assert (H1 : well_named (fst (Maze.add_wall s n p sz c w)))
          by (apply add_wall_well_named; [discriminate | exact Hs]);
        destruct (Maze.add_wall s n p sz c w) as [s1 w1]
    end;
    cbn [fst] in H1; apply add_wall_well_named; [discriminate | exact H1].
Qed.

Lemma built_well_named (m : Maze.t) : built m -> well_named m.
Proof.
  induction 1 as [config size scale wh wl fs [cx cy] w | | m c w _ IH
                 | m c w _ IH | m n w _ IH].
  - unfold Maze.init. rewrite create_floor_eq.
    cbn [Maze.center_position]. cbv zeta.
    apply create_maze_well_named. repeat split; cbn.
    + constructor; [reflexivity | constructor].
    + constructor.
    + constructor; [|constructor].
      left. eexists. eexists. split; [reflexivity | discriminate].
  - apply add_custom_wall_well_named. assumption.
  - rewrite add_goal_object_eq. cbv zeta. cbn [fst].
    destruct IH as [[H1 H2] Hn]. repeat split; cbn.
    + apply Forall_app. split; [exact H1 | constructor; auto].
    + exact H2.
    + apply Forall_app. split; [exact Hn | constructor; auto].
      left. eexists. eexists. split; [reflexivity | discriminate].
  - rewrite add_final_object_eq. cbv zeta. cbn [fst].
    destruct IH as [[H1 H2] Hn]. repeat split; cbn.
    + apply Forall_app. split; [exact H1 | constructor; auto].
    + exact H2.
    + apply Forall_app. split; [exact Hn | constructor; auto].
      left. eexists. eexists. split; [reflexivity | discriminate].
  - apply (generate_invariant (fun st => well_named (maze_of st)));
      cbn [maze_of existing_walls world_of]; auto.
    intros st x y d len w' Hst _ _.
    apply add_custom_wall_well_named. exact Hst.
Qed.

Lemma well_named_ids (m : Maze.t) : well_named m -> counter_exceeds_wall_ids m.
Proof.
  intros [_ Hn] o Ho. rewrite Forall_forall in Hn.
  apply named_below_id. apply Hn. exact Ho.
Qed.

Lemma renamed_copies_named (c : Z) (l loaded : list Obstacle.t) :
  Forall2 renamed_copy l loaded ->
  Forall (named_below c) l -> Forall (named_below c) loaded.
Proof.
  induction 1 as [|o o' l loaded Hc _ IH]; intro H; [constructor|].
  inversion H; subst. constructor; [|apply IH; assumption].
  destruct Hc as (_ & _ & _ & _ & uid & _ & Hn).
  exact (named_below_suffix c o o' _ Hn ltac:(assumption)).
Qed.

(** C5, as the code has it.  For a maze the program has built, saved and
    loaded, the counter after the load is the counter at the save, and it
    exceeds the wall id [K] of every name [custom_wall_K_...], before and
    after the load.  The four digits [Obstacle] appends to each name are
    random and are not bounded by the counter. *)
Theorem counter_restored_above_wall_ids :
  forall (m self : Maze.t) (path : string) (robot : option Robot.t)
         (w : World),
    built m ->
    exists m' w',
      Maze.load_maze self path (Maze.save_maze m path robot w) =
      (Ok tt, m', w') /\
      Maze.wall_id_counter m' = Maze.wall_id_counter m /\
      counter_exceeds_wall_ids m /\
      counter_exceeds_wall_ids m'.
Proof.
  intros m self path robot w Hb.
  pose proof (built_well_named m Hb) as Hw.
  destruct (save_then_load m self path robot w (proj1 Hw))
    as (loaded & m' & w' & E & Hl & Hrel & _ & Hc).
  exists m', w'. repeat split; try assumption.
  - apply well_named_ids. exact Hw.
  - intros o Ho. apply named_below_id.
    pose proof (renamed_copies_named _ _ _ Hrel (proj2 Hw)) as Hn.
    rewrite Forall_forall in Hn. rewrite Hc. apply Hn. rewrite <- Hl.
    exact Ho.
Qed.

(** The constructed maze of grid size 1. *)
Lemma counter_restored_above_wall_ids_witness :
  exists m' w',
    Maze.load_maze stale_maze "maze_1.json"
      (Maze.save_maze
         (fst (Maze.init [] 1 (1 / 3)%Q 1%Q 1%Q 20%Q (0, 0)%Q sample_world))
         "maze_1.json" None sample_world) =
    (Ok tt, m', w') /\
    Maze.wall_id_counter m' =
    Maze.wall_id_counter
      (fst (Maze.init [] 1 (1 / 3)%Q 1%Q 1%Q 20%Q (0, 0)%Q sample_world)) /\
    counter_exceeds_wall_ids
      (fst (Maze.init [] 1 (1 / 3)%Q 1%Q 1%Q 20%Q (0, 0)%Q sample_world)) /\
    counter_exceeds_wall_ids m'.
Proof.
  exact (counter_restored_above_wall_ids _ stale_maze "maze_1.json" None
           sample_world
           (built_init [] 1 (1 / 3)%Q 1%Q 1%Q 20%Q (0, 0)%Q sample_world)).
Defined.

(** One custom wall whose numeric suffix reaches the counter refutes the
    bound on suffixes. *)
Lemma no_bound_on_one_suffix (m : Maze.t) (name : string) (k : Z) :
  map (fun o => (Obstacle.name o, numeric_suffix (Obstacle.name o)))
    (filter is_custom_wall (Maze.obstacles m)) = [(name, Some k)] ->
  Maze.wall_id_counter m <= k ->
  ~ counter_exceeds_suffixes m.
Proof.
  intros Hn Hc H.
  destruct (filter is_custom_wall (Maze.obstacles m)) as [|o [|? ?]] eqn:Ef;
    try discriminate Hn.
  injection Hn as Hname Hsuf.
  assert (Hin : In o (filter is_custom_wall (Maze.obstacles m)))
    by (rewrite Ef; left; reflexivity).
  apply filter_In in Hin. destruct Hin as [Hin Hcw].
  specialize (H o Hin Hcw k Hsuf). lia.
Qed.

(** C5 as stated fails.  In the maze of grid size 1 with one custom wall,
    saved and loaded, the counter is 15 and the custom wall is named
    [custom_wall_13_4960_7826]: its numeric suffix is 7826. *)
Lemma counter_below_random_suffix :
  Maze.wall_id_counter reloaded_small_maze = 15 /\
  map (fun o => (Obstacle.name o, numeric_suffix (Obstacle.name o)))
    (filter is_custom_wall (Maze.obstacles reloaded_small_maze))
  = [("custom_wall_13_4960_7826", Some 7826)] /\
  ~ counter_exceeds_suffixes reloaded_small_maze.
Proof.
  assert (Hc : Maze.wall_id_counter reloaded_small_maze = 15)
    by (vm_compute; reflexivity).
  assert (Hn : map (fun o => (Obstacle.name o,
                              numeric_suffix (Obstacle.name o)))
                 (filter is_custom_wall (Maze.obstacles reloaded_small_maze)) =
               [("custom_wall_13_4960_7826", Some 7826)])
    by (vm_compute; reflexivity).
  split; [exact Hc|]. split; [exact Hn|].
  revert Hc Hn. generalize reloaded_small_maze. intros m Hc Hn.
  apply (no_bound_on_one_suffix m _ _ Hn). rewrite Hc. discriminate.
Qed.

(** * Further properties of the code *)

(** ** The collision test *)

(** X1.  Testing one footprint against another gives the same answer as
    testing the other against the one. *)
Theorem collision_is_symmetric :
  forall a b : boundary, check_collision a [b] = check_collision b [a].
Proof. exact check_collision_sym. Qed.

Lemma check_collision_nil (a : boundary) : check_collision a [] = false.
Proof. destruct a as [[[? ?] ?] ?]. reflexivity. Qed.

Lemma check_collision_app (a : boundary) (l1 l2 : list boundary) :
  check_collision a (l1 ++ l2) = check_collision a l1 || check_collision a l2.
Proof.
  induction l1 as [|b l1 IH]; cbn [app].
  - rewrite check_collision_nil. reflexivity.
  - rewrite (check_collision_cons a b (l1 ++ l2)),
      (check_collision_cons a b l1), IH, orb_assoc.
    reflexivity.
Qed.

(** X2.  The answer of [check_collision] does not depend on the order in
    which the existing walls are listed. *)
Theorem collision_ignores_order :
  forall (a : boundary) (l l' : list boundary),
    Permutation l l' -> check_collision a l = check_collision a l'.
Proof.
  intros a l l' H. induction H as [|b l l' _ IH|b c l|l l' l'' _ IH1 _ IH2].
  - reflexivity.
  - rewrite (check_collision_cons a b l), (check_collision_cons a b l'), IH.
    reflexivity.
  - rewrite (check_collision_cons a c (b :: l)), (check_collision_cons a b l),
      (check_collision_cons a b (c :: l)), (check_collision_cons a c l).
    rewrite !orb_assoc, (orb_comm (check_collision a [c])). reflexivity.
  - congruence.
Qed.

Lemma collision_ignores_order_witness :
  check_collision (0, 0, 1, 1)%Q [(5, 5, 6, 6)%Q; (1 # 2, 0, 3 # 2, 1)%Q] =
  check_collision (0, 0, 1, 1)%Q [(1 # 2, 0, 3 # 2, 1)%Q; (5, 5, 6, 6)%Q].
Proof.
  apply (collision_ignores_order (0, 0, 1, 1)%Q). apply perm_swap.
Defined.

(** ** Reconstructing an obstacle *)

(** X3.  [from_dict] reads the fields of a record in the order
    [shape_type], [name], [size], [color], [position]: it raises [KeyError]
    on the first of them the record lacks (for a field after [shape_type],
    once the shape kind has been recognised). *)
Theorem from_dict_missing_field :
  forall (config : Config) (kvs : list (string * json)) (k : string)
         (w : World),
    first_missing ["shape_type"; "name"; "size"; "color"; "position"] kvs
    = Some k ->
    k = "shape_type" \/ dict_get "shape_type" kvs = Some (JStr "ssBox") ->
    Obstacle.from_dict config (JDict kvs) w = Raise (KeyError (JStr k)).
Proof.
  intros config kvs k w Hk Hs.
  unfold first_missing, dict_has in Hk. cbn [find] in Hk.
  unfold Obstacle.from_dict, getitem.
  destruct (dict_get "shape_type" kvs) as [v|] eqn:E1; cbn [negb] in Hk.
  2: { injection Hk as <-. reflexivity. }
  destruct Hs as [-> | Hs].
  { destruct (dict_get "name" kvs), (dict_get "size" kvs),
      (dict_get "color" kvs), (dict_get "position" kvs); discriminate Hk. }
  injection Hs as ->. cbn [bind]. rewrite lookup_shape_str. cbn [bind].
  change (String.eqb "ssBox" "ssBox") with true. cbv iota. cbn [bind].
  destruct (dict_get "name" kvs) eqn:E2; cbn [negb] in Hk;
    [|injection Hk as <-; reflexivity].
  destruct (dict_get "size" kvs) eqn:E3; cbn [negb] in Hk;
    [|injection Hk as <-; reflexivity].
  destruct (dict_get "color" kvs) eqn:E4; cbn [negb] in Hk;
    [|injection Hk as <-; reflexivity].
  destruct (dict_get "position" kvs) eqn:E5; cbn [negb] in Hk;
    [discriminate Hk | injection Hk as <-; reflexivity].
Qed.

(** A record of a rounded box without a color. *)
Lemma from_dict_missing_field_witness :
  Obstacle.from_dict []
    (JDict [("name", JStr "floor_1234"); ("shape_type", JStr "ssBox");
            ("size", floats [1; 1]%Q); ("position", floats [0; 0; 0]%Q)])
    sample_world =
  Raise (KeyError (JStr "color")).
Proof.
  apply (from_dict_missing_field [] _ "color").
  - reflexivity.
  - right. reflexivity.
Defined.

(** ** Loading: what a failed load leaves behind *)

(** X4.  When one of the seven scalar fields is missing from the document
    (the fields before it reading well), [load_maze] raises the [KeyError]
    of that field before the scene is cleared: the maze keeps its scene,
    its obstacles and its custom walls, and nothing is printed or drawn. *)
Theorem load_missing_scalar_keeps_scene :
  forall (self : Maze.t) (path : string) (w : World) (doc k : json),
    dict_get path (files w) = Some doc ->
    read_scalars doc = Raise (KeyError k) ->
    exists m',
      Maze.load_maze self path w = (Raise (KeyError k), m', w) /\
      Maze.config m' = Maze.config self /\
      Maze.obstacles m' = Maze.obstacles self /\
      Maze.custom_walls m' = Maze.custom_walls self.
Proof.
  intros self path w doc k Hfile Hsc. unfold Maze.load_maze. rewrite Hfile.
  unfold read_scalars in Hsc. unfold Maze.assign.
  repeat match type of Hsc with
         | bind ?r _ = Raise _ =>
             let E := fresh "E" in
             destruct r eqn:E; cbn [bind] in Hsc;
             [|injection Hsc as ->; eexists; repeat split; reflexivity]
         end.
  discriminate Hsc.
Qed.

Lemma load_missing_scalar_keeps_scene_witness :
  exists m',
    Maze.load_maze stale_maze "maze_1.json"
      (world_with document_without_counter) =
    (Raise (KeyError (JStr "wall_id_counter")), m',
     world_with document_without_counter) /\
    Maze.config m' = Maze.config stale_maze /\
    Maze.obstacles m' = Maze.obstacles stale_maze /\
    Maze.custom_walls m' = Maze.custom_walls stale_maze.
Proof.
  apply (load_missing_scalar_keeps_scene stale_maze "maze_1.json"
           (world_with document_without_counter)
           (JDict document_without_counter)); reflexivity.
Defined.

Lemma loaded_into_cons (o : Obstacle.t) (loaded : list Obstacle.t)
    (self : Maze.t) :
  loaded_into loaded
    (Maze.append_obstacle o
       (Maze.set_config (Maze.config self ++ [frame_of o])%list self)) =
  loaded_into (o :: loaded) self.
Proof.
  unfold loaded_into, Maze.append_obstacle, Maze.set_obstacles,
    Maze.set_config. cbn. rewrite <- !app_assoc. reflexivity.
Qed.

Lemma loaded_into_nil (self : Maze.t) : loaded_into [] self = self.
Proof.
  unfold loaded_into, Maze.set_obstacles, Maze.set_config. cbn.
  rewrite !app_nil_r. destruct self. reflexivity.
Qed.

(** The records that rebuild are gone through one by one; each adds its
    obstacle and its frame and draws one id. *)
Lemma load_obstacles_prefix (l : list json) :
  forall (rest : list json) (self : Maze.t) (w : World),
    Forall obstacle_record l ->
    exists loaded,
      Forall2 reloaded_from l loaded /\
      Maze.load_obstacles (l ++ rest)%list self w =
      Maze.load_obstacles rest (loaded_into loaded self)
        (Nat.iter (List.length l) drawn w).
Proof.
  induction l as [|r l IH]; intros rest self w Hl.
  - exists []. rewrite loaded_into_nil. split; [constructor | reflexivity].
  - inversion Hl as [|? ? Hr Hl']; subst.
    cbn [app Maze.load_obstacles].
    destruct (from_dict_record (Maze.config self) r w Hr) as (o & -> & Ho).
    destruct (IH rest
                (Maze.append_obstacle o
                   (Maze.set_config (Maze.config self ++ [frame_of o])%list
                      self))
                (drawn w) Hl') as (loaded & Hrel & E).
    exists (o :: loaded). split; [constructor; assumption|].
    rewrite E, loaded_into_cons. cbn [List.length].
    rewrite Nat.iter_succ_r. reflexivity.
Qed.

Lemma draws_keep_output (n : nat) (w : World) :
  stdout (Nat.iter n drawn w) = stdout w /\
  files (Nat.iter n drawn w) = files w.
Proof.
  induction n as [|n IH]; [split; reflexivity|].
  rewrite Nat.iter_succ. exact IH.
Qed.

(** X5.  When the obstacle list of the document holds a record of an
    unknown shape kind after records that rebuild, [load_maze] raises the
    [KeyError] of that record and leaves the maze half loaded: the scalar
    fields are the document's, the scene and the obstacle list hold exactly
    the obstacles rebuilt before the failing record, and the custom walls
    are still those of before the load. *)
Theorem load_stops_at_unknown_shape :
  forall (self : Maze.t) (path : string) (w : World)
         (kvs bad : list (string * json))
         (sc : Z * Q * Q * Q * Q * (Q * Q) * Z)
         (before after : list json) (s : string),
    dict_get path (files w) = Some (JDict kvs) ->
    read_scalars (JDict kvs) = Ok sc ->
    dict_get "obstacles" kvs
    = Some (JList (before ++ JDict bad :: after)%list) ->
    Forall obstacle_record before ->
    dict_get "shape_type" bad = Some (JStr s) ->
    s <> "ssBox" ->
    exists m' w',
      Maze.load_maze self path w = (Raise (KeyError (JStr s)), m', w') /\
      Forall2 reloaded_from before (Maze.obstacles m') /\
      Maze.config m' = map frame_of (Maze.obstacles m') /\
      Maze.custom_walls m' = Maze.custom_walls self /\
      (geometry m', Maze.wall_id_counter m') = sc /\
      stdout w' = stdout w.
Proof.
  intros self path w kvs bad sc before after s Hfile Hsc Hobs Hrec Hs Hne.
  rewrite (load_maze_scalars self path w (JDict kvs) sc Hfile Hsc).
  unfold Maze.load_contents, getitem. rewrite Hobs. cbn [bind as_list].
  cbv zeta. fold (emptied (restored self sc)).
  destruct (load_obstacles_prefix before (JDict bad :: after)
              (emptied (restored self sc)) w Hrec) as (loaded & Hrel & ->).
  cbn [Maze.load_obstacles].
  rewrite (from_dict_unknown _ bad s _ Hs Hne).
  exists (loaded_into loaded (emptied (restored self sc))),
    (Nat.iter (List.length before) drawn w).
  destruct sc as [[[[[[? ?] ?] ?] ?] ?] ?].
  repeat split; try reflexivity.
  - exact Hrel.
  - apply draws_keep_output.
Qed.

Lemma load_stops_at_unknown_shape_witness :
  exists m' w',
    Maze.load_maze stale_maze "maze_1.json"
      (world_with document_with_unknown_shape) =
    (Raise (KeyError (JStr "unknownPrimitive")), m', w') /\
    Forall2 reloaded_from
      [JDict [("name", JStr "floor_1234");
              ("shape_type", JStr "ssBox");
              ("size", floats [4; 4; 1 # 10; 1 # 10]%Q);
              ("color", floats [8 # 10; 8 # 10; 8 # 10]%Q);
              ("position", floats [0; 0; - (1 # 20)]%Q)]]
      (Maze.obstacles m') /\
    Maze.config m' = map frame_of (Maze.obstacles m') /\
    Maze.custom_walls m' = Maze.custom_walls stale_maze /\
    (geometry m', Maze.wall_id_counter m') =
    (4, (1 # 3)%Q, 1%Q, 1%Q, 4%Q, (0, 0)%Q, 25) /\
    stdout w' = stdout (world_with document_with_unknown_shape).
Proof.
  refine (load_stops_at_unknown_shape stale_maze "maze_1.json"
            (world_with document_with_unknown_shape)
            document_with_unknown_shape
            [("name", JStr "ball_5678");
             ("shape_type", JStr "unknownPrimitive")]
            (4, (1 # 3)%Q, 1%Q, 1%Q, 4%Q, (0, 0)%Q, 25)
            [JDict [("name", JStr "floor_1234");
                    ("shape_type", JStr "ssBox");
                    ("size", floats [4; 4; 1 # 10; 1 # 10]%Q);
                    ("color", floats [8 # 10; 8 # 10; 8 # 10]%Q);
                    ("position", floats [0; 0; - (1 # 20)]%Q)]]
            [] "unknownPrimitive"
            eq_refl eq_refl eq_refl _ eq_refl _).
  - constructor; [|constructor].
    unfold obstacle_record. do 5 eexists. repeat split; reflexivity.
  - discriminate.
Defined.

(** ** Loading: what a successful load rebuilds *)

Lemma load_custom_walls_frames (l : list json) :
  forall (self : Maze.t) (w : World),
    Forall obstacle_record l ->
    exists rebuilt m' w',
      Maze.load_custom_walls l self w = (Ok tt, m', w') /\
      Forall2 reloaded_from l rebuilt /\
      Maze.config m' = (Maze.config self ++ map frame_of rebuilt)%list /\
      Maze.obstacles m' = Maze.obstacles self /\
      kept m' w' = kept self w.
Proof.
  induction l as [|r l IH]; intros self w Hl.
  - exists [], self, w. cbn. rewrite app_nil_r. repeat split. constructor.
  - inversion Hl as [|? ? Hr Hl']; subst. cbn [Maze.load_custom_walls].
    destruct (from_dict_record (Maze.config self) r w Hr) as (o & -> & Ho).
    match goal with
    | |- context [Maze.load_custom_walls l ?s ?w0] =>
        destruct (IH s w0 Hl') as (rebuilt & m' & w' & E & Hrel & Hc & Hobs & Hk)
    end.
    exists (o :: rebuilt), m', w'. rewrite E, Hc, Hobs, Hk.
    cbn. rewrite <- app_assoc. repeat split. constructor; assumption.
Qed.

(** X6.  A successful [load_maze] replaces the scene and the obstacle list:
    the obstacles are the rebuilt obstacle records, in order; the scene
    holds their frames followed by one frame for each custom-wall record,
    which is rebuilt as an obstacle of its own; the references
    [goal_object] and [final_object] are those of before the load; and one
    line is printed. *)
Theorem load_rebuilds_scene :
  forall (self : Maze.t) (path : string) (w : World)
         (kvs : list (string * json))
         (sc : Z * Q * Q * Q * Q * (Q * Q) * Z) (obs cw : list json),
    dict_get path (files w) = Some (JDict kvs) ->
    read_scalars (JDict kvs) = Ok sc ->
    dict_get "obstacles" kvs = Some (JList obs) ->
    Forall obstacle_record obs ->
    custom_wall_records kvs = Some cw ->
    Forall obstacle_record cw ->
    exists m' w' rebuilt,
      Maze.load_maze self path w = (Ok tt, m', w') /\
      Forall2 reloaded_from obs (Maze.obstacles m') /\
      Forall2 reloaded_from cw rebuilt /\
      Maze.config m' =
      (map frame_of (Maze.obstacles m') ++ map frame_of rebuilt)%list /\
      Maze.goal_object m' = Maze.goal_object self /\
      Maze.final_object m' = Maze.final_object self /\
      stdout w' = (stdout w ++ [("Maze loaded from " ++ path)%string])%list.
Proof.
  intros self path w kvs sc obs cw Hfile Hsc Hobs Hrec Hcw Hrec'.
  rewrite (load_maze_scalars self path w (JDict kvs) sc Hfile Hsc).
  unfold Maze.load_contents, getitem. rewrite Hobs. cbn [bind as_list].
  cbv zeta. fold (emptied (restored self sc)).
  destruct (load_obstacles_prefix obs [] (emptied (restored self sc)) w Hrec)
    as (loaded & Hrel & E).
  rewrite app_nil_r in E. rewrite E. cbn [Maze.load_obstacles].
  pose proof (draws_keep_output (List.length obs) w) as [Hout _].
  assert (Hmark :
            Maze.goal_object (loaded_into loaded (emptied (restored self sc)))
            = Maze.goal_object self /\
            Maze.final_object (loaded_into loaded (emptied (restored self sc)))
            = Maze.final_object self)
    by (destruct sc as [[[[[[? ?] ?] ?] ?] ?] ?]; split; reflexivity).
  destruct Hmark as [Hgoal Hfinal].
  unfold custom_wall_records, dict_has in *.
  destruct (dict_get "custom_walls" kvs) as [v|] eqn:Ec.
  - destruct v; try discriminate Hcw. injection Hcw as ->.
    cbn [bind as_list].
    match goal with
    | |- context [Maze.load_custom_walls cw ?s ?w0] =>
        destruct (load_custom_walls_frames cw s w0 Hrec')
          as (rebuilt & m2 & w2 & -> & Hrel2 & Hc2 & Hobs2 & Hk2)
    end.
    exists m2, (print ("Maze loaded from " ++ path) w2), rebuilt.
    pose proof (f_equal (fun t => snd (fst t)) Hk2) as Hout2.
    pose proof (f_equal (fun t => snd (fst (fst t))) Hk2) as Hfinal2.
    pose proof (f_equal (fun t => snd (fst (fst (fst t)))) Hk2) as Hgoal2.
    cbv beta in Hout2, Hfinal2, Hgoal2. unfold kept in Hout2, Hfinal2, Hgoal2.
    cbn [fst snd] in Hout2, Hfinal2, Hgoal2.
    cbn [Maze.obstacles Maze.set_custom_walls] in Hobs2.
    change (Maze.goal_object (Maze.set_custom_walls [] ?m))
      with (Maze.goal_object m) in Hgoal2.
    change (Maze.final_object (Maze.set_custom_walls [] ?m))
      with (Maze.final_object m) in Hfinal2.
    rewrite Hobs2, Hc2, Hgoal2, Hfinal2.
    split; [reflexivity|]. split; [exact Hrel|]. split; [exact Hrel2|].
    split; [reflexivity|]. split; [exact Hgoal|]. split; [exact Hfinal|].
    cbn [print stdout]. rewrite Hout2, Hout. reflexivity.
  - injection Hcw as <-.
    exists (Maze.set_custom_walls []
              (loaded_into loaded (emptied (restored self sc)))),
      (print ("Maze loaded from " ++ path) (Nat.iter (List.length obs) drawn w)),
      [].
    cbn [map]. rewrite app_nil_r.
    repeat split; try assumption; try constructor.
    cbn [print stdout]. rewrite Hout. reflexivity.
Qed.

Lemma load_rebuilds_scene_witness :
  exists m' w' rebuilt,
    Maze.load_maze stale_maze "maze_1.json" world_with_document =
    (Ok tt, m', w') /\
    Forall2 reloaded_from
      [JDict [("name", JStr "floor_1234");
              ("shape_type", JStr "ssBox");
              ("size", floats [4; 4; 1 # 10; 1 # 10]%Q);
              ("color", floats [8 # 10; 8 # 10; 8 # 10]%Q);
              ("position", floats [0; 0; - (1 # 20)]%Q)]]
      (Maze.obstacles m') /\
    Forall2 reloaded_from [] rebuilt /\
    Maze.config m' =
    (map frame_of (Maze.obstacles m') ++ map frame_of rebuilt)%list /\
    Maze.goal_object m' = Maze.goal_object stale_maze /\
    Maze.final_object m' = Maze.final_object stale_maze /\
    stdout w' =
    (stdout world_with_document ++ ["Maze loaded from maze_1.json"])%list.
Proof.
  refine (load_rebuilds_scene stale_maze "maze_1.json" world_with_document
            document_without_custom_walls
            (4, (1 # 3)%Q, 1%Q, 1%Q, 4%Q, (0, 0)%Q, 25) _ []
            eq_refl eq_refl eq_refl _ eq_refl _).
  - constructor; [|constructor].
    unfold obstacle_record. do 5 eexists. repeat split; reflexivity.
  - constructor.
Defined.

(** ** Loading: what the document is read for *)

Lemma from_dict_same_run (config : Config) (data : json) (w w' : World) :
  same_run w w' ->
  match Obstacle.from_dict config data w, Obstacle.from_dict config data w' with
  | Ok (o, c, w1), Ok (o', c', w1') => o = o' /\ c = c' /\ same_run w1 w1'
  | Raise e, Raise e' => e = e'
  | _, _ => False
  end.
Proof.
  intros [Hr Hs]. unfold Obstacle.from_dict.
  destruct (getitem data "shape_type"); cbn [bind]; [|reflexivity].
  destruct (Obstacle.lookup_shape a); cbn [bind]; [|reflexivity].
  destruct (getitem data "name"); cbn [bind]; [|reflexivity].
  destruct (getitem data "size"); cbn [bind]; [|reflexivity].
  destruct (getitem data "color"); cbn [bind]; [|reflexivity].
  destruct (getitem data "position"); cbn [bind]; [|reflexivity].
  destruct (as_str a1); cbn [bind]; [|reflexivity].
  rewrite !Obstacle_init_eq. cbv zeta. unfold unique_id, drawn, same_run.
  rewrite Hr. cbn [rand stdout with_rand]. rewrite Hs. repeat split.
Qed.

Lemma load_obstacles_same_run (l : list json) :
  forall (self : Maze.t) (w w' : World),
    same_run w w' ->
    same_outcome (Maze.load_obstacles l self w) (Maze.load_obstacles l self w').
Proof.
  induction l as [|r l IH]; intros self w w' H; cbn [Maze.load_obstacles].
  - repeat split; apply H.
  - pose proof (from_dict_same_run (Maze.config self) r w w' H) as Hd.
    destruct (Obstacle.from_dict (Maze.config self) r w) as [[[o c] w1]|e],
      (Obstacle.from_dict (Maze.config self) r w') as [[[o' c'] w1']|e'];
      try contradiction.
    + destruct Hd as (-> & -> & Hw). apply IH. exact Hw.
    + subst e'. repeat split; apply H.
Qed.

Lemma load_custom_walls_same_run (l : list json) :
  forall (self : Maze.t) (w w' : World),
    same_run w w' ->
    same_outcome (Maze.load_custom_walls l self w)
      (Maze.load_custom_walls l self w').
Proof.
  induction l as [|r l IH]; intros self w w' H; cbn [Maze.load_custom_walls].
  - repeat split; apply H.
  - pose proof (from_dict_same_run (Maze.config self) r w w' H) as Hd.
    destruct (Obstacle.from_dict (Maze.config self) r w) as [[[o c] w1]|e],
      (Obstacle.from_dict (Maze.config self) r w') as [[[o' c'] w1']|e'];
      try contradiction.
    + destruct Hd as (-> & -> & Hw). apply IH. exact Hw.
    + subst e'. repeat split; apply H.
Qed.

Lemma same_run_print (line : string) (w w' : World) :
  same_run w w' -> same_run (print line w) (print line w').
Proof.
  intros [Hr Hs]. unfold same_run. cbn [print rand stdout].
  rewrite Hr, Hs. split; reflexivity.
Qed.

Lemma load_contents_same_run (kvs : list (string * json)) (path : string)
    (self : Maze.t) (w w' : World) :
  same_run w w' ->
  same_outcome (Maze.load_contents (JDict kvs) path self w)
    (Maze.load_contents (JDict kvs) path self w').
Proof.
  intro H. unfold Maze.load_contents. cbv zeta.
  destruct (try v <- getitem (JDict kvs) "obstacles"; as_list v) as [l|e];
    [|repeat split; apply H].
  match goal with
  | |- context [Maze.load_obstacles l ?s w] =>
      pose proof (load_obstacles_same_run l s w w' H) as Ho;
      destruct (Maze.load_obstacles l s w) as [[r1 m1] w1],
        (Maze.load_obstacles l s w') as [[r1' m1'] w1']
  end.
  destruct Ho as (Hr & Hm & Hw). cbn [fst snd] in Hr, Hm, Hw. subst r1' m1'.
  destruct r1 as [[]|e]; [|repeat split; apply Hw].
  destruct (dict_has "custom_walls" kvs).
  - destruct (try v <- getitem (JDict kvs) "custom_walls"; as_list v)
      as [l2|e]; [|repeat split; apply Hw].
    match goal with
    | |- context [Maze.load_custom_walls l2 ?s w1] =>
        pose proof (load_custom_walls_same_run l2 s w1 w1' Hw) as Hc;
        destruct (Maze.load_custom_walls l2 s w1) as [[r2 m2] w2],
          (Maze.load_custom_walls l2 s w1') as [[r2' m2'] w2']
    end.
    destruct Hc as (Hr & Hm & Hw2). cbn [fst snd] in Hr, Hm, Hw2.
    subst r2' m2'.
    destruct r2 as [[]|e]; [|repeat split; apply Hw2].
    repeat split; apply same_run_print; exact Hw2.
  - repeat split; apply same_run_print; exact Hw.
Qed.

(** X7.  [load_maze] reads the document through its nine maze keys only
    and the world through its generator and output only: two documents
    that agree on the nine keys, in worlds of the same run, load with the
    same result into the same maze.  In particular the agent placement
    that [save_maze] writes is never read back. *)
Theorem load_reads_the_maze_keys_only :
  forall (self : Maze.t) (path : string) (w w' : World)
         (kvs kvs' : list (string * json)),
    dict_get path (files w) = Some (JDict kvs) ->
    dict_get path (files w') = Some (JDict kvs') ->
    same_run w w' ->
    (forall k, In k maze_keys -> dict_get k kvs = dict_get k kvs') ->
    same_outcome (Maze.load_maze self path w) (Maze.load_maze self path w').
Proof.
  intros self path w w' kvs kvs' Hf Hf' Hw Hk.
  assert (Hget : forall k, In k maze_keys ->
                           getitem (JDict kvs) k = getitem (JDict kvs') k).
  { intros k Hin. unfold getitem. rewrite (Hk k Hin). reflexivity. }
  assert (Hc : forall s w0,
             Maze.load_contents (JDict kvs) path s w0 =
             Maze.load_contents (JDict kvs') path s w0).
  { intros s w0. unfold Maze.load_contents, dict_has.
    rewrite (Hget "obstacles"), (Hget "custom_walls"),
      (Hk "custom_walls") by (cbn; tauto).
    reflexivity. }
  unfold Maze.load_maze. rewrite Hf, Hf'. unfold Maze.assign.
  rewrite (Hget "size"), (Hget "scale"), (Hget "wall_height"),
    (Hget "wall_length"), (Hget "maze_size"), (Hget "center_position"),
    (Hget "wall_id_counter") by (cbn; tauto).
  repeat match goal with
         | |- context [match bind ?r ?k with _ => _ end] =>
             destruct (bind r k); [|repeat split; apply Hw]
         end.
  rewrite Hc. apply load_contents_same_run. exact Hw.
Qed.

(** The sample document with and without an agent placement. *)
Lemma load_reads_the_maze_keys_only_witness :
  same_outcome
    (Maze.load_maze stale_maze "maze_1.json" (world_with document_with_robot))
    (Maze.load_maze stale_maze "maze_1.json"
       (world_with document_without_custom_walls)).
Proof.
  apply (load_reads_the_maze_keys_only stale_maze "maze_1.json"
           (world_with document_with_robot)
           (world_with document_without_custom_walls)
           document_with_robot document_without_custom_walls).
  - reflexivity.
  - reflexivity.
  - split; reflexivity.
  - intros k Hk. cbn in Hk.
    repeat (destruct Hk as [<- | Hk]; [reflexivity|]). contradiction.
Defined.

(** ** Custom walls *)

Lemma made_custom_wall_id (c : Z) (size color position : json) (w : World) :
  custom_wall_id
    (Obstacle.name (made ("custom_wall_" ++ str_int c) size color position w))
  = Some c.
Proof. exact (custom_wall_id_named c (str_int (unique_id w))). Qed.

(** The loop of [add_custom_wall], round by round. *)
Lemma custom_wall_loop (self : Maze.t) (pos : Maze.t -> Z -> json)
    (size color : json) :
  (forall s i, geometry s = geometry self -> pos s i = pos self i) ->
  forall (l : list Z) (s : Maze.t) (w : World),
    geometry s = geometry self ->
    let st' :=
      fold_left
        (fun (st : Maze.t * World) (i : Z) =>
           let (self, w) := st in
           let name := "custom_wall_" ++ str_int (Maze.wall_id_counter self) in
           let (self, w) :=
             Maze.add_wall self name (pos self i) size color w in
           (Maze.set_wall_id_counter (Maze.wall_id_counter self + 1) self, w))
        l (s, w) in
    exists news,
      Maze.obstacles (fst st') = (Maze.obstacles s ++ news)%list /\
      Maze.config (fst st') = (Maze.config s ++ map frame_of news)%list /\
      map Obstacle.position news = map (pos self) l /\
      wall_ids news =
      map (fun k => Some (Maze.wall_id_counter s + 2 * Z.of_nat k))
        (seq 0 (List.length l)) /\
      Forall (fun o => Obstacle.size o = size /\ Obstacle.color o = color /\
                       Obstacle.shape_type o = ssBox) news /\
      Maze.wall_id_counter (fst st') =
      Maze.wall_id_counter s + 2 * Z.of_nat (List.length l) /\
      snd st' = Nat.iter (List.length l) drawn w.
Proof.
  intros Hpos l. induction l as [|i l IH]; intros s w Hg; cbv zeta.
  - exists []. cbn. rewrite !app_nil_r. repeat split; [constructor | lia].
  - cbn [fold_left]. rewrite add_wall_eq. cbv beta iota zeta.
    rewrite create_object_frame.
    match goal with
    | |- context [fold_left ?f l (?s1, ?w1)] =>
        specialize (IH s1 w1); cbv zeta in IH;
        destruct IH as (news & Hobs & Hcfg & Hp & Hid & Hall & Hc & Hw);
        [exact Hg|]
    end.
    exists (made ("custom_wall_" ++ str_int (Maze.wall_id_counter s)) size
              color (pos s i) w :: news).
    rewrite Hobs, Hcfg, Hc, Hw. cbn [List.length].
    rewrite Nat.iter_succ_r. split; [|split; [|split; [|split; [|split]]]].
    + cbn. rewrite <- app_assoc. reflexivity.
    + cbn. rewrite <- app_assoc. reflexivity.
    + cbn [map]. rewrite Hp, (Hpos s i Hg). reflexivity.
    + unfold wall_ids in *. cbn [map seq]. rewrite made_custom_wall_id, Hid.
      rewrite <- seq_shift, map_map. f_equal; [f_equal; lia|].
      apply map_ext. intro k.
      cbn [Maze.wall_id_counter Maze.set_wall_id_counter Maze.append_obstacle
           Maze.set_obstacles Maze.set_config].
      f_equal. lia.
    + constructor; [repeat split | exact Hall].
    + cbn [Maze.wall_id_counter Maze.set_wall_id_counter Maze.append_obstacle
           Maze.set_obstacles Maze.set_config].
      split; [lia | reflexivity].
Qed.

Lemma wall_ids_range (c : Z) (len : Z) :
  map (fun k => Some (c + 2 * Z.of_nat k)) (seq 0 (List.length (range len))) =
  map (fun i => Some (c + 2 * i)) (range len).
Proof.
  unfold range. rewrite length_map, length_seq, map_map. reflexivity.
Qed.

Lemma add_custom_wall_appends :
  forall (self : Maze.t) (x y : Q) (direction : string) (length : Z)
         (w : World),
    direction = "horizontal" \/ direction = "vertical" ->
    let r := Maze.add_custom_wall self (x, y) direction length w in
    exists news,
      Maze.obstacles (fst r) = (Maze.obstacles self ++ news)%list /\
      Maze.config (fst r) = (Maze.config self ++ map frame_of news)%list /\
      map Obstacle.position news =
      map (segment_position self x y direction) (range length) /\
      wall_ids news =
      map (fun i => Some (Maze.wall_id_counter self + 2 * i)) (range length) /\
      Forall (unit_segment self) news /\
      Maze.wall_id_counter (fst r) =
      Maze.wall_id_counter self + 2 * Z.max 0 length /\
      Maze.custom_walls (fst r) = Maze.custom_walls self.
Proof.
  intros self x y d len w Hd r.
  destruct (add_custom_wall_effect self (x, y) d len w) as [Hu _].
  fold r in Hu.
  assert (Hcw : Maze.custom_walls (fst r) = Maze.custom_walls self)
    by exact (f_equal (fun t => snd (fst (fst (fst (fst t))))) Hu).
  revert Hcw. subst r. unfold Maze.add_custom_wall. cbv zeta.
  unfold segment_position.
  destruct Hd as [-> | ->];
    [change (String.eqb "horizontal" "horizontal") with true
    |change (String.eqb "vertical" "horizontal") with false;
     change (String.eqb "vertical" "vertical") with true];
    cbv iota; intro Hcw.
  - destruct (custom_wall_loop self
                (fun s i => floats [x + inject_Z i * Maze.wall_length s; y;
                                    Maze.wall_height s / 2]%Q)
                (floats [Maze.wall_length self; Maze.wall_length self;
                         Maze.wall_height self; 1 # 10]%Q)
                (floats [25 # 100; 25 # 100; 25 # 100]%Q))
      with (l := range len) (s := self) (w := w)
      as (news & Hobs & Hcfg & Hp & Hid & Hall & Hc & _).
    + intros s i Hg. injection Hg as _ _ -> -> _ _. reflexivity.
    + reflexivity.
    + exists news. rewrite wall_ids_range in Hid. rewrite range_length in Hc.
      repeat split; try assumption.
      * apply Forall_impl with (2 := Hall). intros o (Hs & _). exact Hs.
      * etransitivity; [exact Hc | lia].
  - destruct (custom_wall_loop self
                (fun s i => floats [x; y + inject_Z i * Maze.wall_length s;
                                    Maze.wall_height s / 2]%Q)
                (floats [Maze.wall_length self; Maze.wall_length self;
                         Maze.wall_height self; 1 # 10]%Q)
                (floats [25 # 100; 25 # 100; 25 # 100]%Q))
      with (l := range len) (s := self) (w := w)
      as (news & Hobs & Hcfg & Hp & Hid & Hall & Hc & _).
    + intros s i Hg. injection Hg as _ _ -> -> _ _. reflexivity.
    + reflexivity.
    + exists news. rewrite wall_ids_range in Hid. rewrite range_length in Hc.
      repeat split; try assumption.
      * apply Forall_impl with (2 := Hall). intros o (Hs & _). exact Hs.
      * etransitivity; [exact Hc | lia].
Qed.

(** X8.  [add_custom_wall] with a direction it knows appends one segment
    for each index of [range(length)], in order: the segment of index [i]
    lies [i] wall lengths from the start along the x axis (horizontal) or
    the y axis (vertical), has the size of one cell and is named after the
    wall id [counter + 2 * i]; its frame joins the scene.  The counter
    ends [2 * length] higher, since [add_wall] and the loop both increment
    it, and the custom-wall mapping is not touched. *)
Theorem add_custom_wall_segments :
  forall (self : Maze.t) (x y : Q) (direction : string) (length : Z)
         (w : World),
    direction = "horizontal" \/ direction = "vertical" ->
    let r := Maze.add_custom_wall self (x, y) direction length w in
    exists news,
      Maze.obstacles (fst r) = (Maze.obstacles self ++ news)%list /\
      Maze.config (fst r) = (Maze.config self ++ map frame_of news)%list /\
      map Obstacle.position news =
      map (segment_position self x y direction) (range length) /\
      wall_ids news =
      map (fun i => Some (Maze.wall_id_counter self + 2 * i)) (range length) /\
      Forall (unit_segment self) news /\
      Maze.wall_id_counter (fst r) =
      Maze.wall_id_counter self + 2 * Z.max 0 length /\
      Maze.custom_walls (fst r) = Maze.custom_walls self.
Proof. exact add_custom_wall_appends. Qed.

(** A vertical wall of three segments in the constructed maze of grid
    size 1, whose counter stands at 13. *)
Lemma add_custom_wall_segments_witness :
  exists news,
    Maze.obstacles
      (fst (Maze.add_custom_wall
              (fst (Maze.init [] 1 (1 / 3)%Q 1%Q 1%Q 20%Q (0, 0)%Q
                      sample_world))
              (0, 0)%Q "vertical" 3 sample_world)) =
    (Maze.obstacles
       (fst (Maze.init [] 1 (1 / 3)%Q 1%Q 1%Q 20%Q (0, 0)%Q sample_world))
     ++ news)%list /\
    wall_ids news =
    map (fun i =>
           Some (Maze.wall_id_counter
                   (fst (Maze.init [] 1 (1 / 3)%Q 1%Q 1%Q 20%Q (0, 0)%Q
                           sample_world)) + 2 * i))
      (range 3).
Proof.
  destruct (add_custom_wall_segments
              (fst (Maze.init [] 1 (1 / 3)%Q 1%Q 1%Q 20%Q (0, 0)%Q
                      sample_world))
              0%Q 0%Q "vertical" 3 sample_world (or_intror eq_refl))
    as (news & Hobs & _ & _ & Hid & _).
  exists news. split; [exact Hobs | exact Hid].
Defined.

(** X9.  [add_custom_wall] does nothing at all, and says nothing, when the
    direction is neither ['horizontal'] nor ['vertical'], and when the
    length is zero or negative. *)
Theorem add_custom_wall_ignored :
  forall (self : Maze.t) (start : Q * Q) (direction : string) (length : Z)
         (w : World),
    (direction <> "horizontal" /\ direction <> "vertical") \/ length <= 0 ->
    Maze.add_custom_wall self start direction length w = (self, w).
Proof.
  intros self [x y] d len w H. unfold Maze.add_custom_wall. cbv zeta.
  destruct H as [[H1 H2] | H].
  - apply String.eqb_neq in H1, H2. rewrite H1, H2. reflexivity.
  - replace (range len) with (@nil Z)
      by (unfold range; replace (Z.to_nat len) with 0%nat by lia; reflexivity).
    destruct (String.eqb d "horizontal"); [reflexivity|].
    destruct (String.eqb d "vertical"); reflexivity.
Qed.

Lemma add_custom_wall_ignored_witness :
  Maze.add_custom_wall stale_maze (0, 0)%Q "diagonal" 3 sample_world =
  (stale_maze, sample_world).
Proof.
  apply add_custom_wall_ignored. left. split; discriminate.
Defined.

(** ** What the generator adds to the maze *)

Lemma new_segment_weaken (m0 m1 : Maze.t) (lo lo' hi hi' : Z) (o : Obstacle.t) :
  geometry m1 = geometry m0 -> lo' <= lo -> hi <= hi' ->
  new_segment m1 lo hi o -> new_segment m0 lo' hi' o.
Proof.
  intros Hg Hlo Hhi [Hu (k & Hk & Hb)]. split.
  - unfold unit_segment in *. injection Hg as _ _ Hwh Hwl _ _.
    rewrite <- Hwh, <- Hwl. exact Hu.
  - exists k. split; [exact Hk | lia].
Qed.

Lemma wall_ids_in_range (c len : Z) (news : list Obstacle.t) :
  wall_ids news = map (fun i => Some (c + 2 * i)) (range len) ->
  Forall (fun o => exists k, custom_wall_id (Obstacle.name o) = Some k /\
                             c <= k < c + 2 * Z.max 0 len) news.
Proof.
  intro H. apply Forall_forall. intros o Ho.
  assert (Hin : In (custom_wall_id (Obstacle.name o)) (wall_ids news))
    by (exact (in_map (fun o => custom_wall_id (Obstacle.name o)) news o Ho)).
  rewrite H in Hin. apply in_map_iff in Hin. destruct Hin as (i & Hi & Hr).
  unfold range in Hr. apply in_map_iff in Hr. destruct Hr as (n & <- & Hn).
  apply in_seq in Hn. exists (c + 2 * Z.of_nat n). split; [congruence | lia].
Qed.

Lemma untouched_fields (m m' : Maze.t) (w w' : World) :
  untouched m w = untouched m' w' ->
  geometry m = geometry m' /\
  Maze.custom_walls m = Maze.custom_walls m' /\
  Maze.goal_object m = Maze.goal_object m' /\
  Maze.final_object m = Maze.final_object m'.
Proof.
  intro H. repeat split.
  - exact (f_equal (fun t => fst (fst (fst (fst (fst t))))) H).
  - exact (f_equal (fun t => snd (fst (fst (fst (fst t))))) H).
  - exact (f_equal (fun t => snd (fst (fst (fst t)))) H).
  - exact (f_equal (fun t => snd (fst (fst t))) H).
Qed.

(** One committed wall extends the extension. *)
Lemma extended_by_commit (m0 m : Maze.t) (news : list Obstacle.t) (n : Z)
    (x y : Q) (d : string) (len : Z) (w : World) :
  d = "horizontal" \/ d = "vertical" -> 1 <= len <= 3 ->
  extended_by m0 news n m ->
  exists news',
    extended_by m0 news' (n + 1)
      (fst (Maze.add_custom_wall m (x, y) d len w)).
Proof.
  intros Hd Hlen (Hobs & Hcfg & Hn & Hall & Hc & Hg & Hcw & Hgo & Hfi).
  destruct (add_custom_wall_effect m (x, y) d len w) as [Hu _].
  apply untouched_fields in Hu. destruct Hu as (Hg' & Hcw' & Hgo' & Hfi').
  destruct (add_custom_wall_appends m x y d len w Hd)
    as (added & Hobs' & Hcfg' & Hp & Hid & Hunit & Hc' & _).
  assert (Hl : List.length added = Z.to_nat len).
  { rewrite <- (length_map Obstacle.position), Hp, length_map.
    apply range_length. }
  exists (news ++ added)%list. unfold extended_by.
  rewrite Hobs', Hcfg', Hc', Hobs, Hcfg, Hc, map_app, !length_app, <- !app_assoc.
  repeat split; try congruence; try lia.
  apply Forall_app. split.
  - apply Forall_impl with (2 := Hall). intro o.
    apply new_segment_weaken; [reflexivity | lia | lia].
  - apply wall_ids_in_range in Hid. rewrite Forall_forall in *.
    intros o Ho. apply (new_segment_weaken m0 m (Maze.wall_id_counter m)
                          _ (Maze.wall_id_counter m + 2 * Z.max 0 len));
      [exact Hg | lia | lia |].
    split; [apply Hunit; exact Ho|]. rewrite Hc in *. apply Hid. exact Ho.
Qed.

Lemma generate_extends :
  forall (maze : Maze.t) (num_walls : Z) (w : World),
    let p := generate_random_walls maze num_walls w in
    exists news, extended_by maze news (placed p) (maze_of p).
Proof.
  intros maze n w.
  apply (generate_invariant
           (fun st => exists news,
                        extended_by maze news (placed st) (maze_of st)));
    cbn [maze_of existing_walls world_of fst snd]; auto.
  - intros st x y d len w' (news & H) E Hc.
    pose proof (propose_world (maze_of st) (world_of st)) as Hp.
    rewrite E in Hp. destruct Hp as (Hd & Hlen & _).
    destruct (extended_by_commit maze (maze_of st) news (placed st) x y d len
                w' Hd Hlen H) as (news' & H').
    exists news'. unfold placed in *. cbn [existing_walls].
    rewrite length_app. cbn [List.length].
    replace (Z.of_nat (List.length (existing_walls st) + 1))
      with (Z.of_nat (List.length (existing_walls st)) + 1) by lia.
    exact H'.
  - exists []. unfold extended_by, placed. cbn. rewrite !app_nil_r.
    repeat split; try lia. constructor.
Qed.

(** X10.  [generate_random_walls] only appends to the maze: the obstacle
    list and the scene keep what they held and gain the new segments and
    their frames, between one and three for each wall placed; every new
    segment has the size of one cell and a wall id from the old counter up
    to the new one, which is the old one plus twice the number of new
    segments; the geometry, the custom-wall mapping and the two marker
    references are as before. *)
Theorem generated_walls_extend_the_maze :
  forall (maze : Maze.t) (num_walls : Z) (w : World),
    let p := generate_random_walls maze num_walls w in
    exists news, extended_by maze news (placed p) (maze_of p).
Proof. exact generate_extends. Qed.

(** ** The scene and the custom-wall mapping of a built maze *)

Lemma scene_in_step_add (m : Maze.t) (o : Obstacle.t) (c : Z) :
  scene_in_step m ->
  scene_in_step
    (Maze.set_wall_id_counter c
       (Maze.append_obstacle o
          (Maze.set_config (Maze.config m ++ [frame_of o])%list m))).
Proof.
  intros [Hcw (C0 & Hc)]. split; [exact Hcw|]. exists C0. cbn.
  rewrite Hc, map_app, <- app_assoc. reflexivity.
Qed.

Lemma scene_in_step_counter (m : Maze.t) (c : Z) :
  scene_in_step m -> scene_in_step (Maze.set_wall_id_counter c m).
Proof. intro H. exact H. Qed.

Lemma add_wall_scene_in_step (self : Maze.t) (name : string)
    (position size color : json) (w : World) :
  scene_in_step self ->
  scene_in_step (fst (Maze.add_wall self name position size color w)).
Proof.
  intro H. rewrite add_wall_eq. cbv zeta. rewrite create_object_frame.
  cbn [fst]. apply scene_in_step_add. exact H.
Qed.

Lemma create_maze_scene_in_step (self : Maze.t) (w : World) :
  scene_in_step self -> scene_in_step (fst (Maze.create_maze self w)).
Proof.
  intro H. unfold Maze.create_maze. cbv zeta.
  apply (fold_left_invariant (fun st => scene_in_step (fst st)));
    [apply (fold_left_invariant (fun st => scene_in_step (fst st)));
       [exact H|] |].
  all: intros [s0 w0] i Hs; cbv beta iota zeta;
    match goal with
    | |- context [let (_, _) := Maze.add_wall ?s ?n ?p ?sz ?c ?w in _] =>
        pose proof (add_wall_scene_in_step s n p sz c w Hs) as H1;
        destruct (Maze.add_wall s n p sz c w) as [s1 w1]
    end;
    cbn [fst] in H1; apply add_wall_scene_in_step; exact H1.
Qed.

Lemma add_custom_wall_scene_in_step (self : Maze.t) (start : Q * Q)
    (direction : string) (length : Z) (w : World) :
  scene_in_step self ->
  scene_in_step (fst (Maze.add_custom_wall self start direction length w)).
Proof.
  intro H. unfold Maze.add_custom_wall. destruct start as [x y]. cbv zeta.
  destruct (String.eqb direction "horizontal");
    [|destruct (String.eqb direction "vertical"); [|exact H]].
  all: apply (fold_left_invariant (fun st => scene_in_step (fst st)));
    [exact H|]; intros [s0 w0] i Hs; cbn [fst] in Hs; cbv beta iota zeta;
    rewrite add_wall_eq; cbv zeta; rewrite create_object_frame; cbn [fst];
    apply scene_in_step_counter; apply scene_in_step_add; exact Hs.
Qed.

Lemma built_scene_in_step (m : Maze.t) : built m -> scene_in_step m.
Proof.
  induction 1 as [config size scale wh wl fs [cx cy] w | | m c w _ IH
                 | m c w _ IH | m n w _ IH].
  - unfold Maze.init. rewrite create_floor_eq.
    cbn [Maze.center_position]. cbv zeta. rewrite create_object_frame.
    apply create_maze_scene_in_step. split; [reflexivity|].
    exists config. reflexivity.
  - apply add_custom_wall_scene_in_step. assumption.
  - rewrite add_goal_object_eq. cbv zeta. cbn [fst].
    destruct IH as [Hcw (C0 & Hc)]. split; [exact Hcw|]. exists C0. cbn.
    rewrite Hc, map_app, <- app_assoc. reflexivity.
  - rewrite add_final_object_eq. cbv zeta. cbn [fst].
    destruct IH as [Hcw (C0 & Hc)]. split; [exact Hcw|]. exists C0. cbn.
    rewrite Hc, map_app, <- app_assoc. reflexivity.
  - apply (generate_invariant (fun st => scene_in_step (maze_of st)));
      cbn [maze_of existing_walls world_of]; auto.
    intros st x y d len w' Hst _ _.
    apply add_custom_wall_scene_in_step. exact Hst.
Qed.



(** ** The constructed maze *)

Lemma add_wall_untouched (self : Maze.t) (name : string)
    (position size color : json) (w : World) :
  untouched (fst (Maze.add_wall self name position size color w))
    (snd (Maze.add_wall self name position size color w)) = untouched self w.
Proof. rewrite add_wall_eq. reflexivity. Qed.

Lemma create_maze_untouched (self : Maze.t) (w : World) :
  untouched (fst (Maze.create_maze self w)) (snd (Maze.create_maze self w))
  = untouched self w.
Proof.
  unfold Maze.create_maze. cbv zeta.
  apply (fold_left_invariant
           (fun st => untouched (fst st) (snd st) = untouched self w));
    [apply (fold_left_invariant
              (fun st => untouched (fst st) (snd st) = untouched self w));
       [reflexivity|] |].
  all: intros [s0 w0] i Hs; cbv beta iota zeta;
    match goal with
    | |- context [let (_, _) := Maze.add_wall ?s ?n ?p ?sz ?c ?w in _] =>
        pose proof (add_wall_untouched s n p sz c w) as H1;
        destruct (Maze.add_wall s n p sz c w) as [s1 w1]
    end;
    cbn [fst snd] in H1, Hs; rewrite add_wall_untouched; congruence.
Qed.

Lemma init_effect :
  forall (config : Config) (g : Z) (scale wall_height wall_length floor_size : Q)
         (center : Q * Q) (w : World),
    0 <= g ->
    let r := Maze.init config g scale wall_height wall_length floor_size
               center w in
    Maze.wall_id_counter (fst r) = 4 * g + 9 /\
    geometry (fst r) =
    (g, scale, wall_height, wall_length, (inject_Z g * wall_length)%Q, center)
    /\ Maze.goal_object (fst r) = None
    /\ Maze.final_object (fst r) = None
    /\ Maze.custom_walls (fst r) = []
    /\ stdout (snd r) = stdout w
    /\ files (snd r) = files w.
Proof.
  intros config g sc wh wl fs [cx cy] w Hg r. subst r. unfold Maze.init.
  rewrite create_floor_eq. cbn [Maze.center_position]. cbv zeta.
  match goal with
  | |- context [Maze.create_maze ?m0 ?w0] => set (self := m0); set (w1 := w0)
  end.
  pose proof (create_maze_counts self w1) as H. cbv zeta in H.
  destruct H as (_ & _ & _ & _ & _ & _ & Hc & Hgeo).
  pose proof (create_maze_untouched self w1) as Hu.
  pose proof (f_equal (fun t => snd t) Hu) as Hfiles.
  pose proof (f_equal (fun t => snd (fst t)) Hu) as Hout.
  apply untouched_fields in Hu. destruct Hu as (_ & Hcw & Hgo & Hfi).
  rewrite Hc, Hgeo, Hcw, Hgo, Hfi. cbv beta in Hfiles, Hout.
  unfold untouched in Hfiles, Hout. cbn [fst snd] in Hfiles, Hout.
  rewrite Hfiles, Hout.
  replace (Z.max 0 (Maze.size self + 2)) with (g + 2)
    by (subst self; cbn [Maze.size Maze.set_config Maze.append_obstacle
                         Maze.set_obstacles]; lia).
  repeat split. change (Maze.wall_id_counter self) with 1. lia.
Qed.

(** X12.  A maze constructed with grid size [g >= 0] has no marker and no
    custom wall, the geometry it was given with [maze_size = size *
    wall_length], and its wall-id counter at [4 * g + 9]: the floor takes
    no id, each of the [4 * (g + 2)] perimeter walls takes one.  The
    construction prints nothing and writes no file. *)
Theorem constructed_maze :
  forall (config : Config) (g : Z) (scale wall_height wall_length floor_size : Q)
         (center : Q * Q) (w : World),
    0 <= g ->
    let r := Maze.init config g scale wall_height wall_length floor_size
               center w in
    Maze.wall_id_counter (fst r) = 4 * g + 9 /\
    geometry (fst r) =
    (g, scale, wall_height, wall_length, (inject_Z g * wall_length)%Q, center)
    /\ Maze.goal_object (fst r) = None
    /\ Maze.final_object (fst r) = None
    /\ Maze.custom_walls (fst r) = []
    /\ stdout (snd r) = stdout w
    /\ files (snd r) = files w.
Proof. exact init_effect. Qed.

(** The default maze: the counter stands at 73. *)
Lemma constructed_maze_witness :
  Maze.wall_id_counter (fst (Maze.init_default [] sample_world)) = 4 * 16 + 9.
Proof.
  apply (constructed_maze [] 16 (1 / 3)%Q 1%Q 1%Q 20%Q (0, 0)%Q sample_world).
  lia.
Defined.

Lemma made_wall_like (n : string) (size color p : json) (w : World) :
  wall_like size color (made n size color p w) (n, p).
Proof.
  exists (unique_id w). repeat split; try reflexivity; apply unique_id_range.
Qed.

(** A loop that lays two walls for each index. *)
Lemma perimeter_loop (geo : Z * Q * Q * Q * Q * (Q * Q)) (size color : json)
    (n1 n2 : Z -> string) (q1 : Maze.t -> Z -> json)
    (q2 : Maze.t -> Maze.t -> Z -> json) (Q1 Q2 : Z -> json) :
  (forall s i, geometry s = geo -> q1 s i = Q1 i) ->
  (forall s s' i, geometry s = geo -> geometry s' = geo -> q2 s s' i = Q2 i) ->
  forall (l : list Z) (st : Maze.t * World),
    geometry (fst st) = geo ->
    let st' :=
      fold_left
        (fun (st : Maze.t * World) (i : Z) =>
           let (self, w) := st in
           let (self', w') :=
             Maze.add_wall self (n1 i) (q1 self i) size color w in
           Maze.add_wall self' (n2 i) (q2 self self' i) size color w')
        l st in
    exists news,
      Maze.obstacles (fst st') = (Maze.obstacles (fst st) ++ news)%list /\
      Forall2 (wall_like size color) news
        (flat_map (fun i => [(n1 i, Q1 i); (n2 i, Q2 i)]) l) /\
      geometry (fst st') = geo.
Proof.
  intros H1 H2 l. induction l as [|i l IH]; intros [s w] Hg; cbv zeta.
  - exists []. cbn. rewrite app_nil_r. repeat split; [constructor | exact Hg].
  - cbn [fold_left]. rewrite add_wall_eq. cbv beta iota zeta.
    rewrite add_wall_eq. cbv beta iota zeta.
    match goal with
    | |- context [fold_left ?f l ?s1] =>
        specialize (IH s1); cbv zeta in IH;
        destruct IH as (news & Hobs & Hall & Hgeo); [exact Hg|]
    end.
    cbn [fst] in Hg. eexists (_ :: _ :: news).
    rewrite Hobs. cbn [fst flat_map app].
    split; [|split; [|exact Hgeo]].
    + cbn. rewrite <- !app_assoc. reflexivity.
    + constructor; [|constructor; [|exact Hall]].
      * rewrite (H1 s i Hg). apply made_wall_like.
      * erewrite H2; [apply made_wall_like | exact Hg | exact Hg].
Qed.

(** X13.  The obstacles of a constructed maze are the floor followed by
    the perimeter walls in the order of [perimeter_plan]: for each index
    the top and the bottom wall, then for each index the left and the
    right wall, each named after its side and index, one cell in size and
    dark brown.  The floor lies at [center_position]; the perimeter is
    laid around the origin, whatever [center_position] is. *)
Theorem constructed_maze_layout :
  forall (config : Config) (g : Z) (scale wall_height wall_length floor_size : Q)
         (cx cy : Q) (w : World),
    let m := fst (Maze.init config g scale wall_height wall_length floor_size
                    (cx, cy) w) in
    exists floor walls,
      Maze.obstacles m = floor :: walls /\
      wall_like
        (floats [inject_Z g * wall_length; inject_Z g * wall_length; 1 # 10;
                 1 # 10]%Q)
        (floats [8 # 10; 8 # 10; 8 # 10]%Q) floor
        ("floor", floats [cx; cy; - (1 # 10) / 2]%Q) /\
      Forall2
        (wall_like
           (floats [wall_length; wall_length; wall_height; 1 # 10]%Q)
           (floats [35 # 100; 16 # 100; 14 # 100]%Q))
        walls (perimeter_plan g wall_length wall_height).
Proof.
  intros config g sc wh wl fs cx cy w m. subst m. unfold Maze.init.
  rewrite create_floor_eq. cbn [Maze.center_position]. cbv zeta.
  match goal with
  | |- context [Maze.create_maze ?m0 ?w0] => set (self := m0); set (w1 := w0)
  end.
  set (geo := (g, sc, wh, wl, (inject_Z g * wl)%Q, (cx, cy))).
  assert (Hgeo : geometry self = geo) by reflexivity.
  assert (Hobs0 : Maze.obstacles self =
                  [made "floor"
                     (floats [inject_Z g * wl; inject_Z g * wl; 1 # 10;
                              1 # 10]%Q)
                     (floats [8 # 10; 8 # 10; 8 # 10]%Q)
                     (floats [cx; cy; - (1 # 10) / 2]%Q) w]) by reflexivity.
  unfold Maze.create_maze. cbv zeta.
  change (Maze.wall_length self) with wl.
  change (Maze.wall_height self) with wh.
  change (Maze.maze_size self) with (inject_Z g * wl)%Q.
  change (Maze.size self) with g.
  destruct (perimeter_loop geo
              (floats [wl; wl; wh; 1 # 10]%Q)
              (floats [35 # 100; 16 # 100; 14 # 100]%Q)
              (fun i => "top_wall_" ++ str_int i)
              (fun i => "bottom_wall_" ++ str_int i)
              (fun s i =>
                 floats [- (inject_Z g * wl) / 2 + inject_Z i * Maze.wall_length s
                         - Maze.wall_length s / 2;
                         - (inject_Z g * wl) / 2 - Maze.wall_length s / 2;
                         Maze.wall_height s / 2]%Q)
              (fun s s' i =>
                 floats [- (inject_Z g * wl) / 2 + inject_Z i * Maze.wall_length s
                         - Maze.wall_length s / 2;
                         - (inject_Z g * wl) / 2 + Maze.maze_size s'
                         + Maze.wall_length s' / 2;
                         Maze.wall_height s' / 2]%Q)
              (fun i =>
                 floats [- (inject_Z g * wl) / 2 + inject_Z i * wl - wl / 2;
                         - (inject_Z g * wl) / 2 - wl / 2; wh / 2]%Q)
              (fun i =>
                 floats [- (inject_Z g * wl) / 2 + inject_Z i * wl - wl / 2;
                         - (inject_Z g * wl) / 2 + inject_Z g * wl + wl / 2;
                         wh / 2]%Q))
    with (l := range (g + 2)) (st := (self, w1))
    as (rows & Hrows & Hall1 & Hg1).
  { intros s i Hs. injection Hs as _ _ -> -> _ _. reflexivity. }
  { intros s s' i Hs Hs'. injection Hs as _ _ _ -> _ _.
    injection Hs' as _ _ -> -> -> _. reflexivity. }
  { exact Hgeo. }
  match type of Hrows with
  | Maze.obstacles (fst ?t) = _ => set (st1 := t) in *
  end.
  assert (Hsz : Maze.size (fst st1) = g)
    by (injection Hg1 as -> _ _ _ _ _; reflexivity).
  destruct (perimeter_loop geo
              (floats [wl; wl; wh; 1 # 10]%Q)
              (floats [35 # 100; 16 # 100; 14 # 100]%Q)
              (fun i => "left_wall_" ++ str_int i)
              (fun i => "right_wall_" ++ str_int i)
              (fun s i =>
                 floats [- (inject_Z g * wl) / 2 - Maze.wall_length s / 2;
                         - (inject_Z g * wl) / 2 + inject_Z i * Maze.wall_length s
                         - Maze.wall_length s / 2;
                         Maze.wall_height s / 2]%Q)
              (fun s s' i =>
                 floats [- (inject_Z g * wl) / 2 + Maze.maze_size s'
                         + Maze.wall_length s' / 2;
                         - (inject_Z g * wl) / 2 + inject_Z i * Maze.wall_length s
                         - Maze.wall_length s / 2;
                         Maze.wall_height s' / 2]%Q)
              (fun i =>
                 floats [- (inject_Z g * wl) / 2 - wl / 2;
                         - (inject_Z g * wl) / 2 + inject_Z i * wl - wl / 2;
                         wh / 2]%Q)
              (fun i =>
                 floats [- (inject_Z g * wl) / 2 + inject_Z g * wl + wl / 2;
                         - (inject_Z g * wl) / 2 + inject_Z i * wl - wl / 2;
                         wh / 2]%Q))
    with (l := range (Maze.size (fst st1) + 2)) (st := st1)
    as (columns & Hcols & Hall2 & _).
  { intros s i Hs. injection Hs as _ _ -> -> _ _. reflexivity. }
  { intros s s' i Hs Hs'. injection Hs as _ _ _ -> _ _.
    injection Hs' as _ _ -> -> -> _. reflexivity. }
  { exact Hg1. }
  eexists. exists (rows ++ columns)%list. split; [|split].
  - etransitivity; [exact Hcols|]. rewrite Hrows. cbn [fst].
    rewrite Hobs0. reflexivity.
  - apply made_wall_like.
  - unfold perimeter_plan. cbv zeta. apply Forall2_app.
    + exact Hall1.
    + rewrite Hsz in Hall2. exact Hall2.
Qed.

(** ** Files *)

Lemma dict_get_set_other {A : Type} (k k' : string) (v : A)
    (d : list (string * A)) :
  k <> k' -> dict_get k (dict_set k' v d) = dict_get k d.
Proof.
  intro H. apply String.eqb_neq in H.
  induction d as [|[k0 v0] d IH]; cbn [dict_set dict_get].
  - rewrite H. reflexivity.
  - destruct (String.eqb k' k0) eqn:E; cbn [dict_get].
    + apply String.eqb_eq in E. subst k0. rewrite H. reflexivity.
    + destruct (String.eqb k k0); [reflexivity | exact IH].
Qed.

Lemma save_maze_lookup (m : Maze.t) (path : string) (robot : option Robot.t)
    (w w' : World) :
  dict_get path (files (Maze.save_maze m path robot w)) =
  dict_get path (files (Maze.save_maze m path robot w')).
Proof.
  unfold Maze.save_maze. cbv zeta. cbn [print files write_file].
  rewrite !dict_get_set_same. reflexivity.
Qed.

Lemma save_maze_other (m : Maze.t) (path q : string) (robot : option Robot.t)
    (w : World) :
  q <> path ->
  dict_get q (files (Maze.save_maze m path robot w)) = dict_get q (files w).
Proof.
  intro H. unfold Maze.save_maze. cbv zeta. cbn [print files write_file].
  apply dict_get_set_other. exact H.
Qed.

(** X14.  [save_maze] replaces the document at [file_path], whatever was
    there, leaves every other file as it was, does not depend on the rest
    of the world for what it writes, and prints one line. *)
Theorem save_maze_writes_one_file :
  forall (m : Maze.t) (path : string) (robot : option Robot.t) (w w' : World),
    (exists doc,
        dict_get path (files (Maze.save_maze m path robot w)) = Some doc /\
        dict_get path (files (Maze.save_maze m path robot w')) = Some doc) /\
    (forall q, q <> path ->
               dict_get q (files (Maze.save_maze m path robot w))
               = dict_get q (files w)) /\
    stdout (Maze.save_maze m path robot w) =
    (stdout w ++ [("Maze saved to " ++ path)%string])%list.
Proof.
  intros m path robot w w'. split; [|split].
  - rewrite (save_maze_lookup m path robot w' w).
    unfold Maze.save_maze. cbv zeta. cbn [print files write_file].
    rewrite dict_get_set_same. eexists. split; reflexivity.
  - intros q Hq. apply save_maze_other. exact Hq.
  - reflexivity.
Qed.

Lemma load_contents_no_custom_walls (kvs : list (string * json))
    (path : string) (self : Maze.t) (w : World) (obs : list json) :
  dict_get "obstacles" kvs = Some (JList obs) ->
  Forall obstacle_record obs ->
  custom_wall_records kvs = Some [] ->
  exists loaded,
    Forall2 reloaded_from obs loaded /\
    Maze.load_contents (JDict kvs) path self w =
    (Ok tt, Maze.set_custom_walls [] (loaded_into loaded (emptied self)),
     print ("Maze loaded from " ++ path) (Nat.iter (List.length obs) drawn w)).
Proof.
  intros Hobs Hrec Hcw.
  unfold Maze.load_contents, getitem. rewrite Hobs. cbn [bind as_list].
  cbv zeta. fold (emptied self).
  destruct (load_obstacles_prefix obs [] (emptied self) w Hrec)
    as (loaded & Hrel & E).
  rewrite app_nil_r in E. rewrite E. cbn [Maze.load_obstacles].
  exists loaded. split; [exact Hrel|].
  unfold custom_wall_records, dict_has in *.
  destruct (dict_get "custom_walls" kvs) as [v|]; [|reflexivity].
  destruct v; try discriminate Hcw. injection Hcw as ->. reflexivity.
Qed.

(** Loading a file that holds what [save_maze] writes for a maze without
    custom walls in its mapping. *)
Lemma load_saved (m self : Maze.t) (path : string) (w : World) :
  all_ssBox m ->
  Maze.custom_walls m = [] ->
  holds_saved m path w ->
  exists m' w',
    Maze.load_maze self path w = (Ok tt, m', w') /\
    Forall2 renamed_copy (Maze.obstacles m) (Maze.obstacles m') /\
    Maze.config m' = map frame_of (Maze.obstacles m') /\
    geometry m' = geometry m /\
    Maze.wall_id_counter m' = Maze.wall_id_counter m /\
    Maze.custom_walls m' = [].
Proof.
  intros [Hs _] Hcw H. unfold holds_saved, Maze.save_maze in H.
  cbv zeta in H. cbn [print files write_file] in H.
  rewrite dict_get_set_same, Hcw in H.
  match type of H with
  | _ = Some (JDict ?d) => set (kvs := d) in *
  end.
  assert (Hsc : read_scalars (JDict kvs) =
                Ok (geometry m, Maze.wall_id_counter m))
    by (subst kvs; unfold geometry;
        destruct (Maze.center_position m); reflexivity).
  rewrite (load_maze_scalars self path w (JDict kvs) _ H Hsc).
  destruct (load_contents_no_custom_walls kvs path
              (restored self (geometry m, Maze.wall_id_counter m)) w
              (map Obstacle.to_dict (Maze.obstacles m)))
    as (loaded & Hrel & ->); try reflexivity.
  { apply to_dict_records. exact Hs. }
  eexists. eexists. split; [reflexivity|].
  unfold geometry at 1. cbn.
  repeat split. apply reloaded_copies; assumption.
Qed.

(** ** The batch *)

Lemma placed_at_most (maze : Maze.t) (N : Z) (w : World) :
  0 <= placed (generate_random_walls maze N w) <= Z.max 0 N.
Proof.
  unfold generate_random_walls.
  destruct (place_walls_outcome (range N) (mkPlacement maze [] w))
    as (k & Hk & _).
  cbv zeta in Hk. rewrite range_length in Hk.
  unfold placed in *. cbn [existing_walls List.length] in *. lia.
Qed.

Lemma generate_files (maze : Maze.t) (N : Z) (w : World) :
  files (world_of (generate_random_walls maze N w)) = files w.
Proof.
  apply (generate_invariant (fun st => files (world_of st) = files w));
    cbn [maze_of existing_walls world_of]; auto.
  - intros st x y d len w' H E.
    pose proof (propose_world (maze_of st) (world_of st)) as Hp.
    rewrite E in Hp. destruct Hp as (_ & _ & _ & Hf). congruence.
  - intros st x y d len w' H E _.
    pose proof (propose_world (maze_of st) (world_of st)) as Hp.
    rewrite E in Hp. destruct Hp as (_ & _ & _ & Hf).
    destruct (add_custom_wall_effect (maze_of st) (x, y) d len w') as [Hu _].
    apply (f_equal (fun t => snd t)) in Hu. cbv beta in Hu.
    unfold untouched in Hu. cbn [snd] in Hu. cbv zeta. cbn [world_of].
    congruence.
Qed.

Lemma default_maze_count (w : World) :
  obstacle_count (fst (Maze.init [] 16 (1 / 3)%Q 1%Q 1%Q 20%Q (0, 0)%Q w)) = 73.
Proof.
  unfold Maze.init. rewrite create_floor_eq. cbn [Maze.center_position].
  cbv zeta.
  match goal with
  | |- context [Maze.create_maze ?m0 ?w0] =>
      pose proof (create_maze_counts m0 w0) as H; cbv zeta in H;
      destruct H as (_ & _ & _ & _ & _ & Hn & _)
  end.
  rewrite Hn. reflexivity.
Qed.

Lemma uniform_rand (a b : Q) (g : Random) :
  raw (snd (uniform a b g)) = raw g.
Proof. reflexivity. Qed.

(** One round of the batch writes the file of its index with a maze of the
    batch, and no other file. *)
Lemma batch_round_effect (N : Z) (folder : string) (w : World) (i : Z) :
  exists m,
    batch_maze N m /\
    files (batch_round N folder w i) =
    files (Maze.save_maze m (batch_file folder i) None w).
Proof.
  unfold batch_round. cbv zeta.
  pose proof (init_effect [] 16 (1 / 3)%Q 1%Q 1%Q 20%Q (0, 0)%Q w
                ltac:(lia)) as Hi.
  cbv zeta in Hi. destruct Hi as (Hc0 & Hg0 & _ & _ & _ & _ & Hf0).
  pose proof (built_init [] 16 (1 / 3)%Q 1%Q 1%Q 20%Q (0, 0)%Q w) as Hb0.
  pose proof (default_maze_count w) as Hn0.
  destruct (Maze.init [] 16 (1 / 3)%Q 1%Q 1%Q 20%Q (0, 0)%Q w) as [m0 w0].
  cbn [fst snd] in *.
  destruct (generate_extends m0 N w0)
    as (news & Hobs & _ & Hk & _ & Hc & Hg & _).
  pose proof (placed_at_most m0 N w0) as Hp.
  pose proof (generate_files m0 N w0) as Hf.
  pose proof (built_random m0 N w0 Hb0) as Hb.
  set (p := generate_random_walls m0 N w0) in *.
  destruct (uniform _ _ (rand (world_of p))) as [gx g1].
  destruct (uniform _ _ g1) as [gy g2].
  destruct (uniform _ _ g2) as [fx g3].
  destruct (uniform _ _ g3) as [fy g4].
  pose proof (built_goal (maze_of p) (gx, gy) (with_rand g4 (world_of p)) Hb)
    as Hb1.
  rewrite add_goal_object_eq in Hb1. cbv zeta in Hb1. cbn [fst] in Hb1.
  rewrite add_goal_object_eq. cbv beta iota zeta.
  match type of Hb1 with
  | built ?m1 =>
      match goal with
      | |- context [Maze.add_final_object m1 ?c ?w1] =>
          pose proof (built_final m1 c w1 Hb1) as Hb2
      end
  end.
  rewrite add_final_object_eq in Hb2. cbv zeta in Hb2. cbn [fst] in Hb2.
  rewrite add_final_object_eq. cbv beta iota zeta.
  match type of Hb2 with
  | built ?m2 => exists m2
  end.
  split; [split; [exact Hb2 | split; [|split]]|].
  - change (geometry (maze_of p) = default_geometry). rewrite Hg. exact Hg0.
  - exists (Z.of_nat (List.length news)). unfold obstacle_count in *.
    cbn [Maze.obstacles Maze.append_obstacle Maze.set_obstacles
         Maze.set_final_object Maze.set_goal_object Maze.set_config
         Maze.wall_id_counter].
    rewrite Hobs, !length_app in *. cbn [List.length]. lia.
  - eexists. eexists. eexists.
    cbn [Maze.obstacles Maze.append_obstacle Maze.set_obstacles
         Maze.set_final_object Maze.set_goal_object Maze.set_config
         Maze.goal_object Maze.final_object].
    rewrite <- app_assoc. repeat split.
  - unfold Maze.save_maze. cbv zeta.
    cbn [print files write_file drawn with_rand]. rewrite Hf, Hf0.
    reflexivity.
Qed.

Lemma string_append_cancel_l (s a b : string) : s ++ a = s ++ b -> a = b.
Proof.
  induction s as [|c s IH]; cbn; intro H; [exact H|].
  injection H as H. exact (IH H).
Qed.

Lemma string_append_cancel_r (s : string) :
  forall a b : string, a ++ s = b ++ s -> a = b.
Proof.
  assert (Hl : forall a b : string,
             String.length a = String.length b -> a ++ s = b ++ s -> a = b).
  { induction a as [|c a IH]; intros [|c' b] Hlen H; cbn in Hlen;
      try discriminate Hlen; [reflexivity|].
    cbn in H. injection H as -> H. f_equal. apply IH; [lia | exact H]. }
  intros a b H. apply Hl; [|exact H].
  apply (f_equal String.length) in H. rewrite !string_length_append in H. lia.
Qed.

Lemma str_int_inj (i j : Z) : str_int i = str_int j -> i = j.
Proof.
  intro H. apply (f_equal parse_int) in H. rewrite !parse_str_int in H.
  injection H as H. exact H.
Qed.

(** The files of a batch have different paths. *)
Lemma batch_file_inj (folder : string) (i j : Z) :
  batch_file folder i = batch_file folder j -> i = j.
Proof.
  unfold batch_file, path_join.
  change (starts_with_slash ("maze_" ++ str_int i ++ ".json")) with false.
  change (starts_with_slash ("maze_" ++ str_int j ++ ".json")) with false.
  cbv iota. intro H. apply str_int_inj.
  apply (string_append_cancel_r ".json").
  apply (string_append_cancel_l "maze_").
  destruct (String.eqb folder "" || ends_with_slash folder).
  - exact (string_append_cancel_l folder _ _ H).
  - apply (string_append_cancel_l "/").
    exact (string_append_cancel_l folder _ _ H).
Qed.

Lemma in_range_from (a b i : Z) : In i (range_from a b) <-> a <= i < b.
Proof.
  unfold range_from, range. rewrite map_map, in_map_iff. split.
  - intros (n & <- & Hn). apply in_seq in Hn. lia.
  - intro H. exists (Z.to_nat (i - a)). split; [lia|]. apply in_seq. lia.
Qed.

Lemma range_from_NoDup (a b : Z) : NoDup (range_from a b).
Proof.
  unfold range_from, range. rewrite map_map.
  apply Finite.Injective_map_NoDup; [|apply seq_NoDup].
  intros n n' H. lia.
Qed.

(** Rounds that each write one file, over distinct indices: every index
    has its file, holding a maze of the rounds, and files of other paths
    are as before. *)
Section Rounds.
Variable round : World -> Z -> World.
Variable file : Z -> string.
Variable good : Maze.t -> Prop.

Hypothesis file_inj : forall i j, file i = file j -> i = j.

Hypothesis round_effect :
  forall w i,
    exists m, good m /\
              files (round w i) = files (Maze.save_maze m (file i) None w).

Lemma rounds_write_their_files (l : list Z) :
  NoDup l ->
  forall w : World,
    (forall i, In i l ->
               exists m, good m /\
                         holds_saved m (file i) (fold_left round l w)) /\
    (forall q, (forall i, In i l -> q <> file i) ->
               dict_get q (files (fold_left round l w))
               = dict_get q (files w)).
Proof.
  induction 1 as [|i l Hi Hl IH]; intro w.
  - split; [intros i []|]. reflexivity.
  - change (fold_left round (i :: l) w) with (fold_left round l (round w i)).
    destruct (round_effect w i) as (m & Hm & Hf).
    destruct (IH (round w i)) as [IH1 IH2]. split.
    + intros j [<- | Hj]; [|exact (IH1 j Hj)].
      exists m. split; [exact Hm|]. unfold holds_saved.
      rewrite IH2, Hf.
      * apply save_maze_lookup.
      * intros j Hj E. apply file_inj in E. subst j. contradiction.
    + intros q Hq. rewrite IH2 by (intros j Hj; apply Hq; right; exact Hj).
      rewrite Hf. apply save_maze_other. apply Hq. left. reflexivity.
Qed.
End Rounds.

Lemma batch_rounds (N : Z) (folder : string) (l : list Z) :
  NoDup l ->
  forall w : World,
    (forall i, In i l ->
               exists m, batch_maze N m /\
                         holds_saved m (batch_file folder i)
                           (fold_left (batch_round N folder) l w)) /\
    (forall q, (forall i, In i l -> q <> batch_file folder i) ->
               dict_get q (files (fold_left (batch_round N folder) l w))
               = dict_get q (files w)).
Proof.
  exact (rounds_write_their_files (batch_round N folder) (batch_file folder)
           (batch_maze N) (batch_file_inj folder)
           (batch_round_effect N folder) l).
Qed.

(** X15.  A batch into a folder with a name writes one file for each index
    from 1 to [num_mazes], named [maze_<i>.json] in that folder; the file
    of index [i] holds what [save_maze] writes for a maze built in round
    [i], of the default geometry, with between 0 and [3 * num_walls] custom
    segments and the goal and final marker as its last two obstacles; no
    round overwrites the file of another, and files of other paths are left
    as they were. *)
Theorem batch_writes_one_file_per_maze :
  forall (num_mazes num_walls : Z) (folder_path : string) (w : World),
    folder_path <> "" ->
    exists w',
      generate_and_save_random_mazes num_mazes num_walls folder_path w = Ok w'
      /\ (forall i, 1 <= i <= num_mazes ->
                    exists m, batch_maze num_walls m /\
                              holds_saved m (batch_file folder_path i) w')
      /\ (forall q, (forall i, 1 <= i <= num_mazes ->
                               q <> batch_file folder_path i) ->
                    dict_get q (files w') = dict_get q (files w)).
Proof.
  intros n N folder w Hne. unfold generate_and_save_random_mazes.
  apply String.eqb_neq in Hne. rewrite Hne. eexists. split; [reflexivity|].
  destruct (batch_rounds N folder (range_from 1 (n + 1))
              (range_from_NoDup 1 (n + 1)) w) as [H1 H2].
  split.
  - intros i Hi. apply H1. apply in_range_from. lia.
  - intros q Hq. apply H2. intros i Hi. apply Hq.
    apply in_range_from in Hi. lia.
Qed.

Lemma batch_writes_one_file_per_maze_witness :
  exists w',
    generate_and_save_random_mazes 30 10 "random_mazes" sample_world = Ok w'
    /\ (forall i, 1 <= i <= 30 ->
                  exists m, batch_maze 10 m /\
                            holds_saved m (batch_file "random_mazes" i) w')
    /\ (forall q, (forall i, 1 <= i <= 30 ->
                             q <> batch_file "random_mazes" i) ->
                  dict_get q (files w') = dict_get q (files sample_world)).
Proof.
  apply (batch_writes_one_file_per_maze 30 10 "random_mazes" sample_world).
  discriminate.
Defined.

(** X16.  Every file a batch has written loads: [load_maze] returns
    normally on the file of each index and gives a maze of the default
    geometry, with an empty custom-wall mapping, [75 + k] obstacles and the
    counter at [73 + 2 * k] for some [k] from 0 to [3 * num_walls], whose
    scene holds the frames of its obstacles. *)
Theorem batch_files_load :
  forall (num_mazes num_walls : Z) (folder_path : string) (w : World)
         (self : Maze.t) (i : Z),
    folder_path <> "" ->
    1 <= i <= num_mazes ->
    exists w',
      generate_and_save_random_mazes num_mazes num_walls folder_path w = Ok w'
      /\ exists m' w'',
        Maze.load_maze self (batch_file folder_path i) w' = (Ok tt, m', w'')
        /\ geometry m' = default_geometry
        /\ Maze.custom_walls m' = []
        /\ Maze.config m' = map frame_of (Maze.obstacles m')
        /\ exists k, 0 <= k <= 3 * Z.max 0 num_walls /\
                     obstacle_count m' = 75 + k /\
                     Maze.wall_id_counter m' = 73 + 2 * k.
Proof.
  intros n N folder w self i Hne Hi. unfold generate_and_save_random_mazes.
  apply String.eqb_neq in Hne. rewrite Hne. eexists. split; [reflexivity|].
  destruct (batch_rounds N folder (range_from 1 (n + 1))
              (range_from_NoDup 1 (n + 1)) w) as [H1 _].
  destruct (H1 i) as (m & (Hb & Hg & (k & Hk & Hn & Hc) & _) & Hs).
  { apply in_range_from. lia. }
  pose proof (built_well_named m Hb) as [Hbox _].
  pose proof (built_scene_in_step m Hb) as [Hcw _].
  destruct (load_saved m self (batch_file folder i) _ Hbox Hcw Hs)
    as (m' & w'' & E & Hrel & Hcfg & Hg' & Hc' & Hcw').
  exists m', w''. repeat split; try assumption; try congruence.
  exists k. split; [exact Hk|]. split; [|congruence].
  unfold obstacle_count in *. rewrite <- (Forall2_length Hrel). exact Hn.
Qed.

Lemma batch_files_load_witness :
  exists w',
    generate_and_save_random_mazes 30 10 "random_mazes" sample_world = Ok w'
    /\ exists m' w'',
      Maze.load_maze stale_maze (batch_file "random_mazes" 1) w'
      = (Ok tt, m', w'')
      /\ geometry m' = default_geometry
      /\ Maze.custom_walls m' = []
      /\ Maze.config m' = map frame_of (Maze.obstacles m')
      /\ exists k, 0 <= k <= 3 * Z.max 0 10 /\
                   obstacle_count m' = 75 + k /\
                   Maze.wall_id_counter m' = 73 + 2 * k.
Proof.
  apply (batch_files_load 30 10 "random_mazes" sample_world stale_maze 1).
  - discriminate.
  - lia.
Defined.

(** ** The first wall of a run *)

(** X17.  A run of [generate_random_walls] that is asked for at least one
    wall places at least one and adds at least one segment to the maze,
    whatever the maze is and already holds: the list of footprints starts
    empty at every call, so the first proposal collides with nothing, and
    no proposal is tested against the perimeter or the size of the
    maze. *)
Theorem first_wall_is_always_placed :
  forall (maze : Maze.t) (N : Z) (w : World),
    1 <= N ->
    let p := generate_random_walls maze N w in
    1 <= placed p /\
    obstacle_count maze + 1 <= obstacle_count (maze_of p).
Proof.
  intros maze N w HN p.
  pose proof (first_wall_is_placed maze N w HN) as Hp. fold p in Hp.
  split; [exact Hp|].
  destruct (generate_extends maze N w) as (news & Hobs & _ & Hk & _).
  fold p in Hobs, Hk. unfold obstacle_count. rewrite Hobs, length_app. lia.
Qed.

(** One wall asked of a maze of grid size 1, too small for any wall. *)
Lemma first_wall_is_always_placed_witness :
  1 <= placed
         (generate_random_walls
            (fst (Maze.init [] 1 (1 / 3)%Q 1%Q 1%Q 20%Q (0, 0)%Q sample_world))
            10 sample_world).
Proof.
  apply (first_wall_is_always_placed
           (fst (Maze.init [] 1 (1 / 3)%Q 1%Q 1%Q 20%Q (0, 0)%Q sample_world))
           10 sample_world).
  lia.
Defined.
